(* ===== verification/_CoqProject ===== *)
-Q . S2P
Prelude.v
JsString.v
Dates.v
Json.v
Storage.v
World.v
EmployeeTypes.v
EmployeeStore.v
StoreSpec.v
AuthStore.v
AuthViews.v
EmployeeViews.v
Dashboard.v
App.v
Browser.v
