(* ===== verification/Prelude.v ===== *)
(** * A verification of the EMS-Dashboard employee records dashboard

    The program (TypeScript/React, under src/src/) is a single-page
    dashboard.  A session store ([context/AuthContext.tsx]) authenticates
    one fixed demo user; an employee store ([context/EmployeeContext.tsx])
    owns the employee records and the filter criteria and exposes add /
    update / delete / toggle / setFilters / getById, a filtered view and
    aggregate counts.  Both write every change through to localStorage via
    an adapter ([utils/localStorage], not under src/: modelled from the
    spec).  The views drive the stores: the route guards
    ([components/auth/PrivateRoute.tsx], [pages/Login.tsx]) read the
    session, [LoginForm] calls [login] after an 800 ms delay, [Header]
    shows the user and calls [logout]; on the dashboard [Filters] calls
    [setFilters], [DashboardSummary] shows the stats, and [EmployeeList]
    (with [EmployeeRow], [EmployeeForm], [Modal], [ConfirmDialog]) turns
    clicks into store calls and prints records into a new window.

    ** Layout of the development (library root, in dependency order)

    - [Prelude] (this file): the [ems_scope] notations, the state monad
      [St W] in which effectful code is written (stdpp's [MRet]/[MBind]
      instances, so [x ← m; k] and [mapM] work), the [ems] hint databases,
      the shared tactics and the generic lemmas on lists and [St].
    - [JsString]: the JavaScript string primitives the code calls
      ([toLowerCase], [includes], [padStart], [Number.prototype.toString])
      as executable functions on Stdlib strings, with their specifications
      ([includes] is substring membership), and the range check used for
      statements proved by evaluation.
    - [Dates]: [new Date('YYYY-MM-DD')] (midnight UTC), the calendar
      conversions, date-fns [format(d, 'MMM dd, yyyy')] in a local offset,
      and the date part of [toISOString].
    - [Json]: JSON values as the adapter serialises them, JavaScript
      truthiness, and object-field lookup.
    - [Storage]: the persistence adapter: the typeclass [LocalStorage] with
      the laws [LocalStorageLaws] (get after set, get after remove,
      independence of keys); the stores are proved against the interface
      and the [gmap] instance discharges the laws.
    - [World]: what the handlers run against: a monotone clock read by
      every [new Date()], a stream of [Math.random()] draws, and the
      storage; the effect primitives [date_now], [math_random],
      [get_item], [set_item], [remove_item] live in [St World].
    - [EmployeeTypes]: [types/employee.ts] and the JSON encoding of a record.
    - [EmployeeStore]: [EmployeeContext.tsx]: [generateId],
      [SAMPLE_EMPLOYEES], the mount effect, every handler, the filtered
      view and the stats; [reachable], the provider's lifetime as a
      relation over events, and its invariants.
    - [StoreSpec]: the contract of the employee store (spec 4.1) as a
      relation [spec_step] over an interval of the clock, and the
      refinement of [EmployeeStore]'s handlers into it.
    - [AuthStore]: [AuthContext.tsx]: the restore effect, [login],
      [logout]; the three-phase machine of spec 4.2 and the refinement of
      the store into it.
    - [AuthViews]: the route guards, [LoginForm] (its state, input
      handlers, the submit handler split at its [await] into
      [handleSubmit_start] and [handleSubmit_finish], the browser's
      required/disabled checks, the form with its pending submit as the
      relation [lf_reachable]) and [Header].
    - [EmployeeViews]: [Modal], [ConfirmDialog], [Filters],
      [DashboardSummary], [EmployeeForm], [EmployeeRow], the print
      document, and [EmployeeList]: its state, handlers and event wiring
      as [list_step] over the list state, the mounted form's state and the
      store; [list_enabled] says which events a render offers, and
      [page_reachable] is the dashboard page's lifetime.
    - [Dashboard]: the pieces the page is built from.  [Loader] (the
      spinner and the full-page loader); [Contexts]: [EmployeeContextType]
      and [AuthContextType] as records of a provider's values and
      operations, the providers' values, the laws the employee provider's
      value meets (the dashboard's consumers are proved against them), and
      [useEmployees] / [useAuth] with the error they throw outside a
      provider; [Dashboard]: the page as a provider around header, cards,
      filter bar and list.
    - [App]: the composition, the whole application as a state
      ([AppState]: session, path, the mounted sign-in form or dashboard)
      with the events the renders offer ([app_enabled], [app_event]), a
      render pass ([settle]) that follows the route guards' redirects and
      mounts or unmounts components, and what a state renders
      ([App_view]: the loader, the sign-in form or the dashboard);
      [app_reachable] is the lifetime from a page load.
    - [Browser]: spec 5's several open views over one store: a [gmap]
      of tabs, each its own module instance and [App], over one shared
      world, with the browser's event loop running one tab's event at a
      time ([browser_step], [browser_reachable]).

    ** What the theorems show (property ids are in PROJECT.json)

    - Store (C1-C15): filtering is the conjunction of the three
      predicates of spec 4.1, keeps order, and the stats partition the
      unfiltered collection; each handler's behaviour on every branch,
      including the silent no-op on a missing id; a toggle flips exactly
      the records with the id and a second toggle restores them;
      invariants of the reachable states by rule induction
      (write-through: the stored snapshot decodes to the in-memory
      collection; a remount restores the collection; an update never
      moves [updatedAt] back); bounds and round trip of generated ids;
      the end-to-end scenario of spec 8; and the refinement of every
      handler into the contract of spec 4.1 ([StoreSpec.spec_step]).
    - Application (C16-C22): the composed app keeps the invariants of
      both stores, of the sign-in form and of the list at once (the
      stores write disjoint keys of one storage: [keeps_key] frames); the
      render pass terminates after one redirect; from every reachable
      state a run of offered events reaches the dashboard listing every
      record (liveness); signing out and in again remounts the dashboard
      from storage; the filter criteria stay within the selects' values;
      the running app refines the store's contract on the persisted
      collection, reseeding on mount being the one change outside it;
      and what a reachable app renders: the loader only while the
      session loads, the sign-in form exactly when no session is stored,
      or a dashboard whose header and cards show the stored session and
      collection (proved against the context interface's laws).
    - Several tabs (C23-C26): the invariants that survive tabs sharing
      one storage (the session agreement and write-through do not); last
      write wins: every event leaves storage alone, or stores the writing
      tab's own collection, or reseeds; an update is lost when a tab that
      has not seen it writes; a logout leaves the other tabs signed in
      and writing.  A lemma shows that one tab alone is the application
      of [App].
    - Session (C30-C33): login and logout, restore after restart, the
      invariant of the reachable states, and the refinement into spec 4.2.
    - Views (C34-C36): a submit checks the credentials captured at
      submit; the print document; deleting a record behind its open edit
      form.  Further lemmas show the guards decide by phase alone, at
      most one sign-in is in flight, the list page refines the store (each
      page event is a store event or a stutter), editing without changes
      only restamps, and follow the delete flow, the whole sign-in flow,
      adding through the page, the Clear button and the gender filter.
    - Dates (C37, C38): what a date of birth looks like in a given time
      zone, and the form's date bound east of UTC.  Lemmas show the
      calendar conversions are inverse bijections, the next calendar day,
      and that the ISO strings of consecutive days sort in order.
    - Defects and gaps shown as theorems (C26-C29, C35-C38): a logout
      does not reach other tabs, ids are not kept unique, a new record's
      two timestamps may differ, the seed ids do not follow the generated
      format, the print document does not escape fields, [Modal] traps no
      focus so an edit is silently lost when its record is deleted from
      behind the form, dates of birth show one day early west of UTC, and
      the date bound is the UTC date, which rejects today's local date
      after local midnight east of UTC.

    ** Modelling choices, bounds and what is not modelled

    - Strings are Stdlib [string] (lists of 8-bit [ascii]); [toLowerCase]
      is modelled on ASCII letters only (JavaScript folds all of Unicode).
    - An instant is its epoch-millisecond value [Z]; days count from
      1970-01-01 in the proleptic Gregorian calendar; a time zone is a
      fixed offset in minutes (no daylight-saving changes).  A record's
      [createdAt]/[updatedAt] hold [new Date().toISOString()]; the model
      keeps the instant itself, which [toISOString] renders injectively
      and in order for years 0..9999, so the theorems on timestamp order
      and equality carry over to the stored strings.  The date part of
      [toISOString] is modelled in [Dates] ([dob_max]).
    - [Math.random()] returns [k / 2^53] for a 53-bit integer [k] drawn
      from the world's stream; [Math.floor(r * 10000)] is then exactly
      [(k * 10000) / 2^53] (no floating-point rounding is modelled).
    - The clock is a stream of non-negative drifts: each [new Date()]
      returns the current instant and then advances by the next drift.
    - React is modelled by its effect on state: each event runs one
      handler against the state of the latest render; a mount effect runs
      once before any event; a component's state lives while it is
      mounted (the add/edit form while its modal is open); which events
      exist is decided by what the render shows ([list_enabled]).  An open
      modal's overlay catches pointer events only and [Modal] traps no
      focus, so the keyboard still reaches the page behind it: the model
      offers the page's controls while a modal is open.  A render is
      modelled by the values it binds.
    - The render pass is given two rounds ([settle_fuel]): one redirect
      of a route guard and the page it leads to; C17 shows that this is
      enough from every state, since the two guards' redirect conditions
      exclude each other.
    - Statements proved by evaluation range over finite domains: the
      10^4 id numbers, the 400 years of a Gregorian era, the 372
      month/day pairs, and the zero-padded numbers below 100 and 10^4
      (which bounds the years of the ISO-order lemma to 0..9998); every
      other statement is proved for all inputs.
    - JSON serialisation is assumed to round trip; a stored value that
      does not decode is read as the default.
    - [App.tsx] is not part of the sources: its route table (the Login
      page at /login, [PrivateRoute] around [Dashboard] at /dashboard) is
      taken from the spec and the paths the components navigate to; other
      paths are not modelled.  [cn] (class merging) is modelled by the
      list of classes it receives.
    - Not modelled: layout and CSS, icons, the router's internals (a
      navigation is a value), the FileReader (modelled by the data URL its
      [onload] receives), [window.print] and the print window's browser
      APIs (an output value), [INDIAN_STATES] (the options of the form's
      state select: [utils/constants] is not part of the sources and the
      spec does not list the regions). *)

From stdpp Require Export base list.
From Stdlib Require Export ZArith.

Declare Scope ems_scope.
Delimit Scope ems_scope with ems.

Create HintDb ems discriminated.
Create Rewrite HintDb ems_rw.

(** ** A state monad for effectful handlers *)

(** [St W A] is a computation that reads and updates a world [W] and
  returns an [A]; the value comes first, as in the code's return. *)
Definition St (W A : Type) : Type := W -> A * W.

#[export] Instance St_ret {W} : MRet (St W) := fun _ x w => (x, w).
#[export] Instance St_bind {W} : MBind (St W) :=
  fun _ _ f m w => let '(a, w') := m w in f a w'.

(** Run a computation and keep only its result or its final world. *)
Definition st_run {W A} (m : St W A) (w : W) : A * W := m w.
Definition st_val {W A} (m : St W A) (w : W) : A := fst (m w).
Definition st_world {W A} (m : St W A) (w : W) : W := snd (m w).

Notation "m '@' w" := (st_run m w) (at level 10, w at next level) : ems_scope.

Open Scope ems_scope.

Section StLemmas.
Context {W : Type}.

Lemma st_ret_run {A} (x : A) (w : W) : (mret x : St W A) @ w = (x, w).
Proof. reflexivity. Qed.

Lemma st_bind_run {A B} (m : St W A) (f : A -> St W B) (w : W) :
  (m ≫= f) @ w = f (fst (m @ w)) @ (snd (m @ w)).
Proof. unfold st_run, mbind, St_bind. by destruct (m w). Qed.

(** [mapM] in [St W] runs the callback on each element from left to
    right, threading the world. *)
Lemma st_mapM_nil {A B} (f : A -> St W B) (w : W) :
  mapM f [] @ w = ([], w).
Proof. reflexivity. Qed.

Lemma st_mapM_cons {A B} (f : A -> St W B) x l (w : W) :
  mapM f (x :: l) @ w =
    let '(y, w1) := f x @ w in
    let '(ys, w2) := mapM f l @ w1 in (y :: ys, w2).
Proof.
  unfold st_run; cbn; unfold mbind, St_bind, mret, St_ret.
  destruct (f x w); cbn. by destruct (mapM f l w).
Qed.

Lemma st_mapM_length {A B} (f : A -> St W B) (l : list A) (w : W) :
  length (fst (mapM f l @ w)) = length l.
Proof.
  revert w; induction l as [|x l IH]; intros w; [done|].
  rewrite st_mapM_cons. destruct (f x @ w) as [y w1].
  specialize (IH w1). destruct (mapM f l @ w1). cbn in *. by rewrite IH.
Qed.

(** A callback that leaves every element of [l] unchanged and does not
    touch the world makes [mapM] the identity. *)
Lemma st_mapM_id {A} (f : A -> St W A) (l : list A) (w : W) :
  (forall x, In x l -> f x @ w = (x, w)) -> mapM f l @ w = (l, w).
Proof.
  induction l as [|x l IH]; intros Hf; [done|].
  rewrite st_mapM_cons, (Hf x (or_introl eq_refl)). rewrite IH; [done|].
  intros y Hy. apply Hf. by right.
Qed.

(** An invariant [P] of worlds that every callback preserves is
    preserved by [mapM]; a relation [R] on worlds that is reflexive and
    transitive and that every callback respects is respected by it. *)
Lemma st_mapM_world_pres {A B} (P : W -> Prop) (f : A -> St W B) l (w : W) :
  (forall x w, P w -> P (snd (f x @ w))) -> P w -> P (snd (mapM f l @ w)).
Proof.
  intros Hf; revert w; induction l as [|x l IH]; intros w Hw; [done|].
  rewrite st_mapM_cons. specialize (Hf x w Hw).
  destruct (f x @ w) as [y w1]. specialize (IH w1 Hf).
  destruct (mapM f l @ w1). exact IH.
Qed.

Lemma st_mapM_world_rel {A B} (R : W -> W -> Prop) (P : W -> Prop)
    (f : A -> St W B) l (w : W) :
  (forall w, R w w) -> (forall w1 w2 w3, R w1 w2 -> R w2 w3 -> R w1 w3) ->
  (forall x w, P w -> P (snd (f x @ w)) /\ R w (snd (f x @ w))) ->
  P w -> R w (snd (mapM f l @ w)).
Proof.
  intros Hrefl Htrans Hf; revert w; induction l as [|x l IH]; intros w Hw; [done|].
  rewrite st_mapM_cons. destruct (Hf x w Hw) as [HP HR].
  destruct (f x @ w) as [y w1]. specialize (IH w1 HP).
  destruct (mapM f l @ w1). eapply Htrans; eauto.
Qed.
End StLemmas.

#[export] Hint Rewrite @st_ret_run @st_bind_run @st_mapM_nil : ems_rw.

(** ** Generic list lemmas shared by the components *)

Section ListLemmas.
Context {A : Type}.

(** The elements that pass a boolean test and those that fail it
    partition the list. *)
Lemma filter_length_partition (p : A -> bool) (l : list A) :
  length (List.filter p l) + length (List.filter (fun x => negb (p x)) l)
  = length l.
Proof. induction l as [|x l IH]; [done|]. cbn. destruct (p x); cbn; lia. Qed.

Lemma filter_all_true (p : A -> bool) (l : list A) :
  (forall x, In x l -> p x = true) -> List.filter p l = l.
Proof.
  induction l as [|x l IH]; intros Hp; [done|]. cbn.
  rewrite Hp by (left; done). f_equal. apply IH. intros y Hy. apply Hp. by right.
Qed.

Lemma filter_sublist (p : A -> bool) (l : list A) :
  sublist (List.filter p l) l.
Proof.
  induction l as [|x l IH]; cbn; [constructor|].
  destruct (p x); by constructor.
Qed.

Lemma filter_app_bool (p : A -> bool) (l1 l2 : list A) :
  List.filter p (l1 ++ l2) = List.filter p l1 ++ List.filter p l2.
Proof. induction l1 as [|x l1 IH]; cbn; [done|]. destruct (p x); cbn; by rewrite IH. Qed.

(** [List.find] returns the first element passing the test. *)
Lemma find_app_l (p : A -> bool) (l1 l2 : list A) x :
  List.find p l1 = Some x -> List.find p (l1 ++ l2) = Some x.
Proof.
  induction l1 as [|y l1 IH]; cbn; [done|]. destruct (p y); [done|]. exact IH.
Qed.

Lemma find_app_r (p : A -> bool) (l1 l2 : list A) :
  List.find p l1 = None -> List.find p (l1 ++ l2) = List.find p l2.
Proof.
  induction l1 as [|y l1 IH]; cbn; [done|]. destruct (p y); [done|]. exact IH.
Qed.

Lemma find_none_forall (p : A -> bool) (l : list A) :
  List.find p l = None <-> (forall x, In x l -> p x = false).
Proof.
  induction l as [|y l IH]; cbn; [naive_solver|].
  destruct (p y) eqn:Hy; split.
  - done.
  - intros H. rewrite (H y) in Hy; [done| by left].
  - intros H x [<-|Hx]; [done|]. by apply IH.
  - intros H. apply IH. intros x Hx. apply H. by right.
Qed.
(** Two lists related pointwise by [f y = f x] have the same image. *)
Lemma Forall2_fmap_eq {B} (f : A -> B) (l1 l2 : list A) :
  Forall2 (fun x y => f y = f x) l1 l2 -> f <$> l2 = f <$> l1.
Proof. induction 1; cbn; congruence. Qed.

Lemma Forall2_trans_rel (R1 R2 R3 : A -> A -> Prop) (l1 l2 l3 : list A) :
  (forall x y z, R1 x y -> R2 y z -> R3 x z) ->
  Forall2 R1 l1 l2 -> Forall2 R2 l2 l3 -> Forall2 R3 l1 l3.
Proof.
  intros HR H12; revert l3. induction H12; intros l3 H23; inversion H23; subst; constructor; eauto.
Qed.
Lemma Forall2_transport (P Q : A -> Prop) (R : A -> A -> Prop) (l1 l2 : list A) :
  (forall x y, P x -> R x y -> Q y) -> Forall P l1 -> Forall2 R l1 l2 -> Forall Q l2.
Proof. intros HQ HP H12. induction H12; inversion HP; subst; constructor; eauto. Qed.

Lemma Forall_list_filter (P : A -> Prop) (p : A -> bool) (l : list A) :
  Forall P l -> Forall P (List.filter p l).
Proof.
  rewrite !List.Forall_forall. intros H x Hx. apply filter_In in Hx as [Hx _]. auto.
Qed.
End ListLemmas.

#[export] Hint Resolve filter_sublist : ems.

(** ** Shared tactics *)

(** Case on a boolean test of the code and keep the equation. *)
Ltac case_test t := let E := fresh "E" in destruct t eqn:E.

(** Unfold runs of [St] computations to their pairs. *)
Ltac st_simpl := repeat (autorewrite with ems_rw in *; cbn [fst snd] in *).
