(* ===== verification/JsString.v ===== *)
(** * JavaScript string primitives used by the program

    Executable models of the built-in string operations that
    [context/EmployeeContext.tsx] calls: [String.prototype.toLowerCase]
    (on ASCII letters), [String.prototype.includes],
    [String.prototype.padStart] and [Number.prototype.toString] on
    integers, with the lemmas that characterise them (substring
    membership, length, idempotence). *)

From S2P Require Import Prelude.
From Stdlib Require Import String Ascii DecimalString.
From stdpp Require Import list.

Open Scope string_scope.

Module JsString.

(** [toLowerCase] maps 'A'..'Z' to 'a'..'z' and leaves every other
    (ASCII) character unchanged. *)
Definition ascii_toLower (c : ascii) : ascii :=
  let n := nat_of_ascii c in
  if (65 <=? n)%nat && (n <=? 90)%nat then ascii_of_nat (n + 32) else c.

Fixpoint toLowerCase (s : string) : string :=
  match s with
  | EmptyString => EmptyString
  | String c s' => String (ascii_toLower c) (toLowerCase s')
  end.

(** [startsWith s p]: [p] is a prefix of [s]. *)
Fixpoint startsWith (s p : string) {struct p} : bool :=
  match p with
  | EmptyString => true
  | String c p' =>
      match s with
      | EmptyString => false
      | String d s' => Ascii.eqb c d && startsWith s' p'
      end
  end.

(** [s.includes(search)]: [search] occurs in [s] at some position
    [0 <= i <= length s]; the empty string occurs everywhere. *)
Fixpoint includes (s search : string) : bool :=
  startsWith s search ||
  match s with
  | EmptyString => false
  | String _ s' => includes s' search
  end.

(** [padStart]: the first [n] characters of [pad] repeated. *)
Fixpoint cycle_take (n : nat) (pad rest : string) : string :=
  match n with
  | O => EmptyString
  | S n' =>
      match rest with
      | String c r' => String c (cycle_take n' pad r')
      | EmptyString =>
          match pad with
          | EmptyString => EmptyString
          | String c p' => String c (cycle_take n' pad p')
          end
      end
  end.

(** [s.padStart(targetLength, padString)]: unchanged when [s] is already
    long enough or the pad is empty, otherwise prefixed by the pad,
    repeated and truncated to fill up to [targetLength]. *)
Definition padStart (s : string) (targetLength : nat) (padString : string) : string :=
  if (targetLength <=? String.length s)%nat || String.eqb padString "" then s
  else cycle_take (targetLength - String.length s) padString padString ++ s.

(** [Number.prototype.toString()] on an integral number: its decimal
    numeral, with a leading '-' when negative. *)
Definition Number_toString (z : Z) : string :=
  NilZero.string_of_int (Z.to_int z).

(** Decimal value of a string of digits (the inverse of
    [Number_toString] used to state round trips; not program code). *)
Definition digit_value (c : ascii) : option Z :=
  let n := nat_of_ascii c in
  if (48 <=? n)%nat && (n <=? 57)%nat then Some (Z.of_nat (n - 48)) else None.

Fixpoint parse_digits_from (acc : Z) (s : string) : option Z :=
  match s with
  | EmptyString => Some acc
  | String c s' =>
      match digit_value c with
      | Some d => parse_digits_from (acc * 10 + d) s'
      | None => None
      end
  end.

Definition parse_digits (s : string) : option Z :=
  match s with EmptyString => None | _ => parse_digits_from 0 s end.

(** ** Lemmas *)

Lemma string_append_nil_r s : s ++ "" = s.
Proof. induction s; cbn; congruence. Qed.

Lemma string_length_append s1 s2 :
  String.length (s1 ++ s2) = (String.length s1 + String.length s2)%nat.
Proof. induction s1; cbn; congruence. Qed.

Lemma toLowerCase_length s : String.length (toLowerCase s) = String.length s.
Proof. induction s; cbn; congruence. Qed.

Lemma toLowerCase_append s1 s2 :
  toLowerCase (s1 ++ s2) = toLowerCase s1 ++ toLowerCase s2.
Proof. induction s1; cbn; congruence. Qed.

Lemma ascii_toLower_idem c : ascii_toLower (ascii_toLower c) = ascii_toLower c.
Proof. destruct c as [[] [] [] [] [] [] [] []]; reflexivity. Qed.

Lemma toLowerCase_idem s : toLowerCase (toLowerCase s) = toLowerCase s.
Proof. induction s; cbn; [done|]. by rewrite ascii_toLower_idem, IHs. Qed.

Lemma startsWith_spec s p : startsWith s p = true <-> exists q, s = p ++ q.
Proof.
  revert s; induction p as [|c p IH]; intros s; cbn.
  - split; [intros _; by exists s| by intros].
  - destruct s as [|d s]; cbn.
    + split; [done|]. intros [q Hq]. discriminate.
    + rewrite andb_true_iff, Ascii.eqb_eq, IH. split.
      * intros [-> [q ->]]. eauto.
      * intros [q Hq]. injection Hq as -> ->. eauto.
Qed.

(** [includes] is substring membership. *)
Lemma includes_spec s t :
  includes s t = true <-> exists p q, s = p ++ t ++ q.
Proof.
  induction s as [|c s IH]; cbn; rewrite orb_true_iff, startsWith_spec.
  - split.
    + intros [[q Hq]|H]; [exists "", q; exact Hq| discriminate].
    + intros [p [q Hpq]]. destruct p; [left; eauto| discriminate].
  - rewrite IH. split.
    + intros [[q Hq]|[p [q Hpq]]].
      * exists "", q. exact Hq.
      * exists (String c p), q. cbn. by f_equal.
    + intros [p [q Hpq]]. destruct p as [|d p]; cbn in Hpq.
      * left. eauto.
      * injection Hpq as -> ->. right. eauto.
Qed.

Lemma includes_empty s : includes s "" = true.
Proof. destruct s; reflexivity. Qed.

Lemma includes_refl s : includes s s = true.
Proof. apply includes_spec. exists "", "". cbn. by rewrite string_append_nil_r. Qed.

Lemma string_append_assoc s t u : (s ++ t) ++ u = s ++ (t ++ u).
Proof. induction s; cbn; congruence. Qed.

Lemma includes_app_l s1 s2 t : includes s2 t = true -> includes (s1 ++ s2) t = true.
Proof.
  rewrite !includes_spec. intros (p & q & ->). exists (s1 ++ p), q.
  by rewrite string_append_assoc.
Qed.

Lemma includes_app_r s1 s2 t : includes s1 t = true -> includes (s1 ++ s2) t = true.
Proof.
  rewrite !includes_spec. intros (p & q & ->). exists p, (q ++ s2).
  by rewrite !string_append_assoc.
Qed.

Lemma includes_mid s t u : includes (s ++ t ++ u) t = true.
Proof. apply includes_spec. by exists s, u. Qed.

Lemma cycle_take_length_single n c :
  String.length (cycle_take n (String c "") "") = n.
Proof. induction n; cbn; congruence. Qed.

(** Padding a short string with a one-character pad reaches exactly the
    target length. *)
Lemma padStart_length s n c :
  (String.length s <= n)%nat ->
  String.length (padStart s n (String c "")) = n.
Proof.
  intros Hle. unfold padStart.
  destruct (Nat.leb_spec n (String.length s)); cbn.
  - lia.
  - rewrite string_length_append.
    destruct (n - String.length s)%nat eqn:Hn; cbn; [lia|].
    rewrite cycle_take_length_single. lia.
Qed.

(** [padStart] with a one-character pad never yields fewer than the
    target length. *)
Lemma padStart_length_ge s n c :
  (n <= String.length (padStart s n (String c "")))%nat.
Proof.
  destruct (Nat.le_gt_cases n (String.length s)) as [Hle|Hgt].
  - unfold padStart. destruct (Nat.leb_spec n (String.length s)); cbn; lia.
  - rewrite padStart_length; lia.
Qed.

(** A finite range check by evaluation: the workhorse for statements
    over the 10^4 possible id numbers.  The counter is a [Z] and the
    recursion is a tail call, so a check over [n] values costs [n] calls
    of [f] under [vm_compute]. *)
Fixpoint Z_forall_from (f : Z -> bool) (z : Z) (n : nat) : bool :=
  match n with
  | O => true
  | S m => if f z then Z_forall_from f (Z.succ z) m else false
  end.

Definition Z_forall_below (f : Z -> bool) (n : nat) : bool := Z_forall_from f 0 n.

Lemma Z_forall_from_spec f z n :
  Z_forall_from f z n = true -> forall x, (z <= x < z + Z.of_nat n)%Z -> f x = true.
Proof.
  revert z; induction n as [|m IH]; cbn; intros z H x Hx; [lia|].
  destruct (f z) eqn:Hf; [|done].
  destruct (Z.eq_dec x z) as [->|Hne]; [done|].
  apply (IH (Z.succ z)); [done| lia].
Qed.

Lemma Z_forall_below_spec f n :
  Z_forall_below f n = true -> forall z, (0 <= z < Z.of_nat n)%Z -> f z = true.
Proof. intros H z Hz. apply (Z_forall_from_spec f 0 n H). lia. Qed.
End JsString.

#[export] Hint Rewrite JsString.toLowerCase_length JsString.toLowerCase_idem : ems_rw.
