(* ===== verification/Dates.v ===== *)
(** * Calendar dates as the views render them

    A date of birth is stored as the string [YYYY-MM-DD] the date input
    produces.  [EmployeeRow] and the print document show it with
    [format(new Date(dob), 'MMM dd, yyyy')]: [new Date] parses a date-only
    ISO string as midnight UTC, and date-fns formats the instant in the
    browser's local time zone.  [EmployeeForm] bounds the input with
    [max = new Date().toISOString().split('T')[0]], the UTC calendar date.

    Day numbers are counted from 1970-01-01 (the proleptic Gregorian
    calendar of ECMAScript); [days_from_civil] and [civil_from_days] are
    the classical era-based conversions, with [Z.div] as floor division.
    The time zone is a fixed offset [tz] in minutes east of UTC (the
    negation of [getTimezoneOffset()]); daylight-saving changes are not
    modelled.  Besides the inverse-bijection lemmas, the file proves that
    the day after a date is [next_day] of it and that the [YYYY-MM-DD]
    strings of consecutive days compare in order under [String.compare],
    which is how the form compares a date against its [max]. *)

From S2P Require Import Prelude JsString.
From Stdlib Require Import String.

Open Scope string_scope.

Module Dates.
Local Open Scope Z_scope.

Definition MS_PER_DAY : Z := 86400000.

(** Days from 1970-01-01 to the civil date [y-m-d]. *)
Definition days_from_civil (y m d : Z) : Z :=
  let y' := if (m <=? 2)%Z then (y - 1)%Z else y in
  let era := (y' / 400)%Z in
  let yoe := (y' - era * 400)%Z in
  let doy := ((153 * ((m + 9) mod 12) + 2) / 5 + d - 1)%Z in
  let doe := (yoe * 365 + yoe / 4 - yoe / 100 + doy)%Z in
  (era * 146097 + doe - 719468)%Z.

(** The civil date of a day number. *)
Definition civil_from_days (z : Z) : Z * Z * Z :=
  let z' := (z + 719468)%Z in
  let era := (z' / 146097)%Z in
  let doe := (z' - era * 146097)%Z in
  let yoe := ((doe - doe / 1460 + doe / 36524 - doe / 146096) / 365)%Z in
  let y := (yoe + era * 400)%Z in
  let doy := (doe - (365 * yoe + yoe / 4 - yoe / 100))%Z in
  let mp := ((5 * doy + 2) / 153)%Z in
  let d := (doy - (153 * mp + 2) / 5 + 1)%Z in
  let m := if (mp <? 10)%Z then (mp + 3)%Z else (mp - 9)%Z in
  ((if (m <=? 2)%Z then (y + 1)%Z else y), m, d).

Definition is_leap (y : Z) : bool :=
  ((y mod 4 =? 0) && negb (y mod 100 =? 0)) || (y mod 400 =? 0).

Definition days_in_month (y m : Z) : Z :=
  if (m =? 2)%Z then (if is_leap y then 29 else 28)%Z
  else if (m =? 4) || (m =? 6) || (m =? 9) || (m =? 11) then 30%Z else 31%Z.

Definition valid_date (y m d : Z) : bool :=
  (1 <=? m)%Z && (m <=? 12)%Z && (1 <=? d)%Z && (d <=? days_in_month y m)%Z.

(** The date-only form [YYYY-MM-DD] of the ECMAScript date-time string
    format; a string of another shape or an impossible date is an
    [Invalid Date]. *)
Definition parse_iso_date (s : string) : option (Z * Z * Z) :=
  if (String.length s =? 10)%nat && String.eqb (substring 4 1 s) "-" &&
     String.eqb (substring 7 1 s) "-"
  then match JsString.parse_digits (substring 0 4 s), JsString.parse_digits (substring 5 2 s),
             JsString.parse_digits (substring 8 2 s) with
       | Some y, Some m, Some d => if valid_date y m d then Some (y, m, d) else None
       | _, _, _ => None
       end
  else None.

(** [new Date(s)] for a date string: its time value, midnight UTC. *)
Definition date_of_string (s : string) : option Z :=
  match parse_iso_date s with
  | Some (y, m, d) => Some (days_from_civil y m d * MS_PER_DAY)%Z
  | None => None
  end.

Definition MONTHS : list string :=
  ["Jan"; "Feb"; "Mar"; "Apr"; "May"; "Jun"; "Jul"; "Aug"; "Sep"; "Oct"; "Nov"; "Dec"].

Definition pad (n : nat) (z : Z) : string :=
  JsString.padStart (JsString.Number_toString z) n "0".

(** The pattern ['MMM dd, yyyy'] applied to a civil date. *)
Definition format_MMM_dd_yyyy (ymd : Z * Z * Z) : string :=
  let '(y, m, d) := ymd in
  nth (Z.to_nat (m - 1)) MONTHS "" ++ " " ++ pad 2 d ++ ", " ++ pad 4 y.

(** The local civil date of an instant at offset [tz]. *)
Definition local_date (tz ms : Z) : Z * Z * Z :=
  civil_from_days ((ms + tz * 60000) / MS_PER_DAY)%Z.

(** [format(new Date(dob), 'MMM dd, yyyy')]; [None] is the [RangeError]
    date-fns throws on an invalid date. *)
Definition format_dob (tz : Z) (dob : string) : option string :=
  match date_of_string dob with
  | Some ms => Some (format_MMM_dd_yyyy (local_date tz ms))
  | None => None
  end.

(** [new Date().toISOString().split('T')[0]] at instant [now] (years
    0..9999, where [toISOString] uses four digits). *)
Definition iso_date (ymd : Z * Z * Z) : string :=
  let '(y, m, d) := ymd in pad 4 y ++ "-" ++ pad 2 m ++ "-" ++ pad 2 d.

Definition dob_max (now : Z) : string := iso_date (civil_from_days (now / MS_PER_DAY)%Z).


(** ** The conversions in parts

    [days_from_civil] counts [era] 400-year blocks of 146097 days, then
    the day of the era [doe] of the March-based year [yoe] and day of year
    [doy]; [civil_from_days] inverts each step. *)

Definition doy_of (m d : Z) : Z := (153 * ((m + 9) mod 12) + 2) / 5 + d - 1.
Definition doe_of (yoe doy : Z) : Z := yoe * 365 + yoe / 4 - yoe / 100 + doy.
Definition yoe_of (doe : Z) : Z := (doe - doe / 1460 + doe / 36524 - doe / 146096) / 365.

(** The last day of the March-based year [yoe] (its February is in
    [yoe + 1]). *)
Definition last_doy (yoe : Z) : Z := if is_leap (yoe + 1) then 365 else 364.

(** Finite checks evaluated by [vm_compute]: the boundary days of each
    of the 400 years of an era, and the 372 month/day pairs. *)
Definition yoe_check (yoe : Z) : bool :=
  (yoe_of (doe_of yoe 0) =? yoe) && (yoe_of (doe_of yoe (last_doy yoe)) =? yoe).

Definition md_check (m0 : Z) : bool :=
  JsString.Z_forall_below (fun d0 =>
    let m := m0 + 1 in let d := d0 + 1 in
    if d <=? (if m =? 2 then 29 else days_in_month 1 m) then
      let doy := doy_of m d in
      let mp := (5 * doy + 2) / 153 in
      (0 <=? doy) && (doy <=? 365) && (negb (doy =? 365) || ((m =? 2) && (d =? 29))) &&
      ((if mp <? 10 then mp + 3 else mp - 9) =? m) && (doy - (153 * mp + 2) / 5 + 1 =? d)
    else true) 31.

Definition base_check (yoe : Z) : bool :=
  doe_of (yoe + 1) 0 =? doe_of yoe (last_doy yoe) + 1.

Definition doy_check (doy : Z) : bool :=
  let mp := (5 * doy + 2) / 153 in
  let d := doy - (153 * mp + 2) / 5 + 1 in
  let m := if mp <? 10 then mp + 3 else mp - 9 in
  (1 <=? m) && (m <=? 12) && (1 <=? d) && (d <=? (if m =? 2 then 29 else days_in_month 1 m)) &&
  (doy_of m d =? doy) && ((doy =? 365) || negb ((m =? 2) && (d =? 29))).

(** ** Theorems *)

Lemma yoe_of_mono a b : 0 <= a <= b -> yoe_of a <= yoe_of b.
Proof.
  intros Hab. unfold yoe_of. apply Z.div_le_mono; [lia|].
  assert (H4 : forall x, x / 146096 = x / 36524 / 4).
  { intros x. rewrite Z.div_div by lia. reflexivity. }
  rewrite !H4.
  pose proof (Z.div_mod a 1460 ltac:(lia)). pose proof (Z.mod_pos_bound a 1460 ltac:(lia)).
  pose proof (Z.div_mod b 1460 ltac:(lia)). pose proof (Z.mod_pos_bound b 1460 ltac:(lia)).
  pose proof (Z.div_mod a 36524 ltac:(lia)). pose proof (Z.mod_pos_bound a 36524 ltac:(lia)).
  pose proof (Z.div_mod b 36524 ltac:(lia)). pose proof (Z.mod_pos_bound b 36524 ltac:(lia)).
  pose proof (Z.div_mod (a / 36524) 4 ltac:(lia)). pose proof (Z.mod_pos_bound (a / 36524) 4 ltac:(lia)).
  pose proof (Z.div_mod (b / 36524) 4 ltac:(lia)). pose proof (Z.mod_pos_bound (b / 36524) 4 ltac:(lia)).
  lia.
Qed.


Lemma yoe_check_all : JsString.Z_forall_below yoe_check 400 = true.
Proof. vm_compute. reflexivity. Qed.

Lemma md_check_all : JsString.Z_forall_below md_check 12 = true.
Proof. vm_compute. reflexivity. Qed.

Lemma is_leap_shift a k : is_leap (a + 400 * k) = is_leap a.
Proof.
  unfold is_leap.
  replace (a + 400 * k) with (a + (100 * k) * 4) by ring. rewrite Z_mod_plus_full.
  replace (a + 100 * k * 4) with (a + (4 * k) * 100) by ring. rewrite Z_mod_plus_full.
  replace (a + 4 * k * 100) with (a + k * 400) by ring. rewrite Z_mod_plus_full.
  reflexivity.
Qed.

Lemma days_in_month_le y m : days_in_month y m <= (if m =? 2 then 29 else days_in_month 1 m).
Proof. unfold days_in_month. destruct (m =? 2); [destruct (is_leap y)|]; cbn; lia. Qed.

Lemma civil_from_days_era era doe :
  0 <= doe < 146097 ->
  civil_from_days (era * 146097 + doe - 719468) =
    let yoe := yoe_of doe in
    let doy := doe - (365 * yoe + yoe / 4 - yoe / 100) in
    let mp := (5 * doy + 2) / 153 in
    let d := doy - (153 * mp + 2) / 5 + 1 in
    let m := if mp <? 10 then mp + 3 else mp - 9 in
    ((if m <=? 2 then yoe + era * 400 + 1 else yoe + era * 400), m, d).
Proof.
  intros Hdoe. unfold civil_from_days. cbv zeta.
  replace (era * 146097 + doe - 719468 + 719468) with (doe + era * 146097) by ring.
  rewrite Z.div_add, (Z.div_small doe), Z.add_0_l by lia.
  replace (doe + era * 146097 - era * 146097) with doe by ring.
  reflexivity.
Qed.

Lemma yoe_of_doe yoe doy :
  0 <= yoe < 400 -> 0 <= doy <= last_doy yoe -> yoe_of (doe_of yoe doy) = yoe.
Proof.
  intros Hy Hd.
  pose proof (JsString.Z_forall_below_spec _ 400 yoe_check_all yoe ltac:(lia)) as Hc.
  unfold yoe_check in Hc. apply andb_true_iff in Hc as [H0 H1]. apply Z.eqb_eq in H0, H1.
  assert (Hb : 0 <= doe_of yoe 0).
  { unfold doe_of. pose proof (Z.div_le_mono 0 yoe 4). pose proof (Z.div_le_mono yoe (yoe) 100).
    pose proof (Z.div_mod yoe 4 ltac:(lia)). pose proof (Z.mod_pos_bound yoe 4 ltac:(lia)).
    pose proof (Z.div_mod yoe 100 ltac:(lia)). pose proof (Z.mod_pos_bound yoe 100 ltac:(lia)). lia. }
  apply Z.le_antisymm.
  - rewrite <- H1 at 2. apply yoe_of_mono. unfold doe_of in *. lia.
  - rewrite <- H0 at 1. apply yoe_of_mono. unfold doe_of in *. lia.
Qed.

Lemma md_facts m d :
  1 <= m <= 12 -> 1 <= d <= (if m =? 2 then 29 else days_in_month 1 m) ->
  let doy := doy_of m d in
  let mp := (5 * doy + 2) / 153 in
  0 <= doy <= 365 /\ (doy = 365 -> m = 2 /\ d = 29) /\
  (if mp <? 10 then mp + 3 else mp - 9) = m /\ doy - (153 * mp + 2) / 5 + 1 = d.
Proof.
  intros Hm Hd.
  pose proof (JsString.Z_forall_below_spec _ 12 md_check_all (m - 1) ltac:(lia)) as Hc.
  unfold md_check in Hc.
  assert (Hd31 : (if m =? 2 then 29 else days_in_month 1 m) <= 31)
    by (unfold days_in_month; destruct (m =? 2); [lia|]; cbn; destruct (_ || _); lia).
  pose proof (JsString.Z_forall_below_spec _ 31 Hc (d - 1) ltac:(lia)) as Hc'.
  cbv zeta in Hc'. replace (m - 1 + 1) with m in Hc' by ring. replace (d - 1 + 1) with d in Hc' by ring.
  rewrite (proj2 (Z.leb_le _ _) (proj2 Hd)) in Hc'.
  rewrite !andb_true_iff, orb_true_iff, negb_true_iff, !andb_true_iff, !Z.eqb_eq, !Z.leb_le in Hc'.
  rewrite Z.eqb_neq in Hc'. cbv zeta. intuition.
Qed.

Lemma civil_from_days_days y m d :
  valid_date y m d = true -> civil_from_days (days_from_civil y m d) = (y, m, d).
Proof.
  unfold valid_date. rewrite !andb_true_iff, !Z.leb_le. intros [[[Hm1 Hm2] Hd1] Hd2].
  pose proof (days_in_month_le y m) as Hdim.
  destruct (md_facts m d ltac:(lia) ltac:(lia)) as (Hdoy & H365 & Hm & Hd). cbv zeta in Hm, Hd.
  set (y' := if m <=? 2 then y - 1 else y).
  set (era := y' / 400). set (yoe := y' - era * 400).
  assert (Hyoe : 0 <= yoe < 400).
  { unfold yoe. pose proof (Z.div_mod y' 400 ltac:(lia)). pose proof (Z.mod_pos_bound y' 400 ltac:(lia)). lia. }
  assert (Hlast : doy_of m d <= last_doy yoe).
  { unfold last_doy. destruct (Z.eq_dec (doy_of m d) 365) as [E|]; [| destruct (is_leap _); lia].
    destruct (H365 E) as [-> ->]. rewrite E.
    replace (yoe + 1) with (y + 400 * (- era)) by (unfold yoe, y'; cbn; ring).
    rewrite is_leap_shift. unfold days_in_month in Hd2. cbn in Hd2.
    destruct (is_leap y); [done| lia]. }
  assert (Hdays : days_from_civil y m d = era * 146097 + doe_of yoe (doy_of m d) - 719468)
    by reflexivity.
  assert (Hdoe : 0 <= doe_of yoe (doy_of m d) < 146097).
  { unfold doe_of, last_doy in *.
    pose proof (Z.div_mod yoe 4 ltac:(lia)). pose proof (Z.mod_pos_bound yoe 4 ltac:(lia)).
    pose proof (Z.div_mod yoe 100 ltac:(lia)). pose proof (Z.mod_pos_bound yoe 100 ltac:(lia)).
    destruct (is_leap _); lia. }
  rewrite Hdays, civil_from_days_era by exact Hdoe. cbv zeta.
  rewrite yoe_of_doe by lia.
  replace (doe_of yoe (doy_of m d) - (365 * yoe + yoe / 4 - yoe / 100)) with (doy_of m d)
    by (unfold doe_of; ring).
  rewrite Hm, Hd. f_equal. f_equal.
  unfold yoe, y'. destruct (m <=? 2); ring.
Qed.

Lemma base_check_all : JsString.Z_forall_below base_check 399 = true.
Proof. vm_compute. reflexivity. Qed.

Lemma doy_check_all : JsString.Z_forall_below doy_check 366 = true.
Proof. vm_compute. reflexivity. Qed.

Lemma yoe_of_range doe : 0 <= doe < 146097 -> 0 <= yoe_of doe < 400.
Proof.
  intros H. split.
  - change 0 with (yoe_of 0). apply yoe_of_mono. lia.
  - enough (yoe_of doe <= 399) by lia.
    change 399 with (yoe_of 146096). apply yoe_of_mono. lia.
Qed.

Lemma doe_tiles doe :
  0 <= doe < 146097 ->
  let k := yoe_of doe in 0 <= doe - doe_of k 0 <= last_doy k.
Proof.
  intros H. cbv zeta. pose proof (yoe_of_range doe H) as Hk.
  remember (yoe_of doe) as k eqn:Ek.
  assert (Hbase : forall j, 0 <= j < 399 -> doe_of (j + 1) 0 = doe_of j (last_doy j) + 1).
  { intros j Hj. apply Z.eqb_eq, (JsString.Z_forall_below_spec _ 399 base_check_all). lia. }
  assert (Hl : forall j, 364 <= last_doy j <= 365) by (intros j; unfold last_doy; destruct (is_leap _); lia).
  assert (Hdoe : forall j doy, doe_of j doy = doe_of j 0 + doy) by (intros; unfold doe_of; ring).
  split.
  - destruct (Z_lt_le_dec doe (doe_of k 0)) as [Hlt|]; [exfalso|lia].
    destruct (Z.eq_dec k 0) as [E|Hne].
    + rewrite E in Hlt. change (doe_of 0 0) with 0 in Hlt. lia.
    + assert (Hk1 : yoe_of doe <= yoe_of (doe_of (k - 1) (last_doy (k - 1)))).
      { apply yoe_of_mono. split; [lia|].
        pose proof (Hbase (k - 1) ltac:(lia)) as Hb. replace (k - 1 + 1) with k in Hb by ring. lia. }
      rewrite yoe_of_doe, <- Ek in Hk1 by (pose proof (Hl (k - 1)); lia). lia.
  - destruct (Z_le_gt_dec (doe - doe_of k 0) (last_doy k)) as [|Hgt]; [done| exfalso].
    destruct (Z.eq_dec k 399) as [E|Hne].
    + rewrite E in Hgt. change (doe_of 399 0) with 145731 in Hgt.
      change (last_doy 399) with 365 in Hgt. lia.
    + assert (Hk1 : yoe_of (doe_of (k + 1) 0) <= yoe_of doe).
      { apply yoe_of_mono. pose proof (Hbase k ltac:(lia)). pose proof (Hdoe k (last_doy k)). split; [| lia].
        unfold doe_of. pose proof (Z.div_mod (k + 1) 4 ltac:(lia)).
        pose proof (Z.mod_pos_bound (k + 1) 4 ltac:(lia)).
        pose proof (Z.div_mod (k + 1) 100 ltac:(lia)).
        pose proof (Z.mod_pos_bound (k + 1) 100 ltac:(lia)). lia. }
      rewrite yoe_of_doe, <- Ek in Hk1 by (pose proof (Hl (k + 1)); lia). lia.
Qed.

Lemma days_from_civil_parts k era m d :
  0 <= k < 400 ->
  days_from_civil (if m <=? 2 then k + era * 400 + 1 else k + era * 400) m d =
    era * 146097 + doe_of k (doy_of m d) - 719468.
Proof.
  intros Hk. unfold days_from_civil. cbv zeta.
  destruct (m <=? 2); [replace (k + era * 400 + 1 - 1) with (k + era * 400) by ring|];
    rewrite Z.div_add, (Z.div_small k), Z.add_0_l by lia;
    replace (k + era * 400 - era * 400) with k by ring; reflexivity.
Qed.

Lemma days_in_month_not_feb y m : m <> 2 -> days_in_month y m = days_in_month 1 m.
Proof. intros Hm. unfold days_in_month. by rewrite (proj2 (Z.eqb_neq m 2) Hm). Qed.

Lemma days_from_civil_civil z :
  let '(y, m, d) := civil_from_days z in valid_date y m d = true /\ days_from_civil y m d = z.
Proof.
  set (era := (z + 719468) / 146097). set (doe := z + 719468 - era * 146097).
  assert (Hdoe : 0 <= doe < 146097).
  { unfold doe, era. pose proof (Z.div_mod (z + 719468) 146097 ltac:(lia)).
    pose proof (Z.mod_pos_bound (z + 719468) 146097 ltac:(lia)). lia. }
  assert (Hz : z = era * 146097 + doe - 719468) by (unfold doe; ring).
  rewrite (f_equal civil_from_days Hz), civil_from_days_era by exact Hdoe. cbv zeta.
  rewrite Hz. clearbody era doe. clear Hz.
  pose proof (doe_tiles doe Hdoe) as Ht. cbv zeta in Ht.
  pose proof (yoe_of_range doe Hdoe) as Hk.
  remember (yoe_of doe) as k eqn:Ek.
  replace (doe - (365 * k + k / 4 - k / 100)) with (doe - doe_of k 0) by (unfold doe_of; ring).
  remember (doe - doe_of k 0) as doy eqn:Edoy.
  assert (Hl : last_doy k <= 365) by (unfold last_doy; destruct (is_leap _); lia).
  pose proof (JsString.Z_forall_below_spec _ 366 doy_check_all doy ltac:(lia)) as Hc.
  unfold doy_check in Hc. cbv zeta in Hc.
  remember ((5 * doy + 2) / 153) as mp eqn:Emp.
  remember (if mp <? 10 then mp + 3 else mp - 9) as m eqn:Em.
  remember (doy - (153 * mp + 2) / 5 + 1) as d eqn:Ed.
  rewrite !andb_true_iff, orb_true_iff, negb_true_iff, !Z.leb_le, !Z.eqb_eq in Hc.
  destruct Hc as [[[[[Hm1 Hm2] Hd1] Hd2] Hdoy] Hfeb].
  rewrite days_from_civil_parts, Hdoy by lia. split.
  - unfold valid_date. rewrite !andb_true_iff, !Z.leb_le. split; [lia|].
    destruct (Z.eq_dec m 2) as [->|Hne].
    2: { rewrite days_in_month_not_feb by done.
         rewrite (proj2 (Z.eqb_neq m 2) Hne) in Hd2. lia. }
    replace (if 2 <=? 2 then k + era * 400 + 1 else k + era * 400) with ((k + 1) + 400 * era)
      by (cbn; ring).
    unfold days_in_month. cbn [Z.eqb Pos.eqb]. rewrite is_leap_shift.
    change (if 2 =? 2 then 29 else days_in_month 1 2) with 29 in Hd2.
    destruct (Z.eq_dec d 29) as [->|]; [| destruct (is_leap _); lia].
    destruct Hfeb as [H365|Hn]; [| cbn in Hn; discriminate].
    unfold last_doy in Ht. destruct (is_leap (k + 1)); lia.
  - unfold doe_of in *. lia.
Qed.

Lemma civil_from_days_inj a b : civil_from_days a = civil_from_days b -> a = b.
Proof.
  intros E. pose proof (days_from_civil_civil a) as Ha. pose proof (days_from_civil_civil b) as Hb.
  rewrite E in Ha. destruct (civil_from_days b) as [[y m] d]. destruct Ha as [_ <-], Hb as [_ <-].
  reflexivity.
Qed.

Lemma parse_iso_date_valid s y m d : parse_iso_date s = Some (y, m, d) -> valid_date y m d = true.
Proof.
  unfold parse_iso_date. destruct (_ && _ && _); [| done].
  destruct (JsString.parse_digits (substring 0 4 s)) as [y'|],
    (JsString.parse_digits (substring 5 2 s)) as [m'|],
    (JsString.parse_digits (substring 8 2 s)) as [d'|]; try done.
  destruct (valid_date y' m' d') eqn:Hv; [| done]. by intros [= <- <- <-].
Qed.

Lemma floor_shift_day D e :
  (- MS_PER_DAY <= e < MS_PER_DAY) ->
  (D * MS_PER_DAY + e) / MS_PER_DAY = if e <? 0 then D - 1 else D.
Proof.
  intros He. unfold MS_PER_DAY in *. destruct (Z.ltb_spec e 0).
  - symmetry. apply Z.div_unique with (r := e + 86400000); lia.
  - symmetry. apply Z.div_unique with (r := e); lia.
Qed.

(** [days_from_civil] and [civil_from_days] are inverse bijections
    between valid calendar dates and day numbers: every valid date comes
    back from its day number, and every day number is the number of the
    valid date it converts to. *)
Theorem civil_days_bijection :
  (forall y m d, valid_date y m d = true -> civil_from_days (days_from_civil y m d) = (y, m, d)) /\
  (forall z, let '(y, m, d) := civil_from_days z in
             valid_date y m d = true /\ days_from_civil y m d = z).
Proof. split; [exact civil_from_days_days| exact days_from_civil_civil]. Qed.

(** ** The next day *)

Definition next_day (ymd : Z * Z * Z) : Z * Z * Z :=
  let '(y, m, d) := ymd in
  if (d <? days_in_month y m)%Z then (y, m, d + 1)
  else if (m <? 12)%Z then (y, m + 1, 1) else (y + 1, 1, 1).

Lemma days_from_civil_shift y m d k :
  days_from_civil (y + 400 * k) m d = days_from_civil y m d + 146097 * k.
Proof.
  unfold days_from_civil. cbv zeta. destruct (m <=? 2).
  - replace (y + 400 * k - 1) with ((y - 1) + k * 400) by ring.
    rewrite Z.div_add by lia.
    replace (y - 1 + k * 400 - ((y - 1) / 400 + k) * 400) with (y - 1 - (y - 1) / 400 * 400) by ring.
    ring.
  - replace (y + 400 * k) with (y + k * 400) by ring. rewrite Z.div_add by lia.
    replace (y + k * 400 - (y / 400 + k) * 400) with (y - y / 400 * 400) by ring.
    ring.
Qed.

Lemma days_from_civil_diff y m d m' d' :
  (m <=? 2) = (m' <=? 2) ->
  days_from_civil y m' d' = days_from_civil y m d + (doy_of m' d' - doy_of m d).
Proof. unfold days_from_civil, doy_of. intros E. rewrite E. cbv zeta. destruct (m' <=? 2); ring. Qed.

Definition feb_check (y : Z) : bool :=
  days_from_civil y 3 1 =? days_from_civil y 2 (days_in_month y 2) + 1.

Lemma feb_check_all : JsString.Z_forall_below feb_check 400 = true.
Proof. vm_compute. reflexivity. Qed.

Lemma days_from_civil_march y :
  days_from_civil y 3 1 = days_from_civil y 2 (days_in_month y 2) + 1.
Proof.
  pose proof (Z.div_mod y 400 ltac:(lia)) as Hy. pose proof (Z.mod_pos_bound y 400 ltac:(lia)).
  set (r := y mod 400) in *. set (k := y / 400) in *.
  assert (E : y = r + 400 * k) by lia. rewrite E, !days_from_civil_shift.
  unfold days_in_month. cbn [Z.eqb Pos.eqb]. rewrite is_leap_shift.
  pose proof (JsString.Z_forall_below_spec _ _ feb_check_all r ltac:(lia)) as Hr.
  apply Z.eqb_eq in Hr. unfold days_in_month in Hr. cbn [Z.eqb Pos.eqb] in Hr. lia.
Qed.

(** One day after a valid date is its day number plus one. *)
Lemma days_from_civil_next y m d :
  valid_date y m d = true ->
  (let '(y', m', d') := next_day (y, m, d) in days_from_civil y' m' d') = days_from_civil y m d + 1 /\
  (let '(y', m', d') := next_day (y, m, d) in valid_date y' m' d') = true.
Proof.
  unfold valid_date. rewrite !andb_true_iff, !Z.leb_le. intros [[[Hm1 Hm2] Hd1] Hd2].
  unfold next_day. destruct (Z.ltb_spec d (days_in_month y m)).
  - split; [unfold days_from_civil; cbv zeta; ring|].
    rewrite !andb_true_iff, !Z.leb_le. lia.
  - assert (Hd : d = days_in_month y m) by lia. subst d.
    destruct (Z.ltb_spec m 12).
    + split.
      * assert (Hm : m = 1 \/ m = 2 \/ (3 <= m <= 11)) by lia.
        destruct Hm as [->| [->| Hm]]; [| apply days_from_civil_march|].
        { rewrite (days_from_civil_diff y 1 (days_in_month y 1) (1 + 1) 1) by reflexivity.
          rewrite days_in_month_not_feb by lia. f_equal. }
        rewrite (days_from_civil_diff y m (days_in_month y m) (m + 1) 1)
          by (rewrite !(proj2 (Z.leb_gt _ _)) by lia; reflexivity).
        rewrite days_in_month_not_feb by lia. f_equal.
        assert (Hm' : m = 3 \/ m = 4 \/ m = 5 \/ m = 6 \/ m = 7 \/ m = 8 \/ m = 9 \/ m = 10 \/ m = 11) by lia.
        destruct Hm' as [->|[->|[->|[->|[->|[->|[->|[->| ->]]]]]]]]; reflexivity.
      * assert (H2 : 1 <= days_in_month y (m + 1)).
        { unfold days_in_month. repeat case_match; lia. }
        rewrite !andb_true_iff, !Z.leb_le. lia.
    + assert (m = 12) as -> by lia. split.
      * unfold days_from_civil. cbv zeta.
        replace (if 1 <=? 2 then y + 1 - 1 else y + 1) with y by (cbn; ring).
        replace (if 12 <=? 2 then y - 1 else y) with y by reflexivity.
        replace (days_in_month y 12) with 31 by reflexivity.
        change ((153 * ((1 + 9) mod 12) + 2) / 5 + 1 - 1) with 306.
        change ((153 * ((12 + 9) mod 12) + 2) / 5 + 31 - 1) with 305. ring.
      *
      rewrite !andb_true_iff, !Z.leb_le. unfold days_in_month. cbn. lia.
Qed.

Lemma civil_from_days_succ z : civil_from_days (z + 1) = next_day (civil_from_days z).
Proof.
  pose proof (days_from_civil_civil z) as H.
  destruct (civil_from_days z) as [[y m] d] eqn:E. destruct H as [Hv Hz].
  destruct (days_from_civil_next y m d Hv) as [Hn Hv'].
  destruct (next_day (y, m, d)) as [[y' m'] d'].
  rewrite <- Hz, <- Hn. by apply civil_from_days_days.
Qed.

(** ** Order of ISO date strings

    [String.leb] compares the [YYYY-MM-DD] strings of the date input and
    of [dob_max] character by character. *)

Lemma ascii_compare_refl c : Ascii.compare c c = Eq.
Proof. unfold Ascii.compare. apply N.compare_refl. Qed.

Lemma string_compare_app_l u s t : String.compare (u ++ s) (u ++ t) = String.compare s t.
Proof. induction u as [|c u IH]; [done|]. cbn. by rewrite ascii_compare_refl. Qed.

Lemma string_compare_app_len u v s t :
  String.length u = String.length v -> String.compare u v <> Eq ->
  String.compare (u ++ s) (v ++ t) = String.compare u v.
Proof.
  revert v; induction u as [|c u IH]; intros [|c' v] Hl Hne; cbn in *; try done.
  destruct (Ascii.compare c c'); try done. apply IH; [congruence| done].
Qed.

(** [pad n k] and [pad n (k + 1)] have [n] characters and the second
    sorts after the first: checked for two digits and four digits. *)
Definition pad_succ_ok (n : nat) (k : Z) : bool :=
  (String.length (pad n k) =? n)%nat && (String.length (pad n (k + 1)) =? n)%nat &&
  (if String.compare (pad n (k + 1)) (pad n k) is Gt then true else false).

Lemma pad2_succ_all : JsString.Z_forall_below (pad_succ_ok 2) 99 = true.
Proof. vm_compute. reflexivity. Qed.

Lemma pad4_succ_all : JsString.Z_forall_below (pad_succ_ok 4) 9999 = true.
Proof. vm_compute. reflexivity. Qed.

Lemma pad_succ n bound k :
  JsString.Z_forall_below (pad_succ_ok n) bound = true -> 0 <= k < Z.of_nat bound ->
  String.length (pad n k) = String.length (pad n (k + 1)) /\
  String.compare (pad n (k + 1)) (pad n k) = Gt.
Proof.
  intros Hall Hk. pose proof (JsString.Z_forall_below_spec _ _ Hall k Hk) as H.
  unfold pad_succ_ok in H. rewrite !andb_true_iff, !Nat.eqb_eq in H.
  destruct H as [[H1 H2] H3]. split; [congruence|]. by destruct (String.compare _ _).
Qed.

(** The ISO string of the next day sorts after the day's, for the days
    of years 0 to 9998. *)
Lemma iso_date_next_gt z :
  0 <= fst (fst (civil_from_days z)) < 9999 ->
  String.compare (iso_date (civil_from_days (z + 1))) (iso_date (civil_from_days z)) = Gt.
Proof.
  rewrite civil_from_days_succ. pose proof (days_from_civil_civil z) as H.
  destruct (civil_from_days z) as [[y m] d]. destruct H as [Hv _]. cbn [fst]. intros Hy.
  unfold valid_date in Hv. rewrite !andb_true_iff, !Z.leb_le in Hv.
  assert (Hdim : days_in_month y m <= 31).
  { unfold days_in_month. repeat case_match; lia. }
  unfold next_day, iso_date. destruct (Z.ltb_spec d (days_in_month y m)).
  - rewrite !string_compare_app_l. apply (pad_succ 2 99); [exact pad2_succ_all| lia].
  - destruct (Z.ltb_spec m 12).
    + rewrite !string_compare_app_l.
      destruct (pad_succ 2 99 m pad2_succ_all ltac:(lia)) as [Hl Hc].
      rewrite string_compare_app_len; [exact Hc| done| by rewrite Hc].
    + assert (H9 : Z.of_nat 9999 = 9999) by reflexivity.
      destruct (pad_succ 4 9999 y pad4_succ_all ltac:(lia)) as [Hl Hc].
      rewrite string_compare_app_len; [exact Hc| done| by rewrite Hc].
Qed.

(** C37 (a defect): a stored date of birth is rendered through midnight
    UTC in local time: west of UTC ([-1440 < tz < 0], e.g. the Americas)
    the row and the print document show the day before the stored date;
    at or east of UTC they show the stored date. *)
Theorem format_dob_tz tz s y m d :
  parse_iso_date s = Some (y, m, d) ->
  ((-1440 < tz < 0)%Z ->
     format_dob tz s = Some (format_MMM_dd_yyyy (civil_from_days (days_from_civil y m d - 1))) /\
     civil_from_days (days_from_civil y m d - 1) <> (y, m, d)) /\
  ((0 <= tz < 1440)%Z -> format_dob tz s = Some (format_MMM_dd_yyyy (y, m, d))).
Proof.
  intros Hp. pose proof (parse_iso_date_valid s y m d Hp) as Hv.
  unfold format_dob, date_of_string, local_date. rewrite Hp. split.
  - intros Htz. rewrite floor_shift_day by (unfold MS_PER_DAY; lia).
    destruct (Z.ltb_spec (tz * 60000) 0); [| lia]. split; [done|].
    rewrite <- (civil_from_days_days y m d Hv). intros E.
    apply civil_from_days_inj in E. lia.
  - intros Htz. rewrite floor_shift_day by (unfold MS_PER_DAY; lia).
    destruct (Z.ltb_spec (tz * 60000) 0); [lia|]. by rewrite civil_from_days_days.
Qed.

(** East of UTC ([0 < tz < 1440]), from local midnight until UTC midnight
    the local calendar date is the day after the UTC one. *)
Lemma local_date_ahead tz now :
  (0 < tz < 1440)%Z -> (MS_PER_DAY - tz * 60000 <= now mod MS_PER_DAY)%Z ->
  local_date tz now = civil_from_days (now / MS_PER_DAY + 1).
Proof.
  intros Htz Hnow. unfold local_date. f_equal. unfold MS_PER_DAY in *.
  pose proof (Z.div_mod now 86400000 ltac:(lia)). pose proof (Z.mod_pos_bound now 86400000 ltac:(lia)).
  symmetry. apply Z.div_unique with (r := now mod 86400000 + tz * 60000 - 86400000); lia.
Qed.

End Dates.

Module DatesDemo.
Import Dates.

(** New York in winter ([tz = -300]) shows 2000-01-01 as the day before. *)
Example format_dob_new_york : format_dob (-300) "2000-01-01" = Some "Dec 31, 1999".
Proof. vm_compute. reflexivity. Qed.

Example format_dob_tz_witness :
  parse_iso_date "2000-01-01" = Some (2000, 1, 1)%Z /\
  (((-1440 < -300 < 0)%Z ->
     format_dob (-300) "2000-01-01" =
       Some (format_MMM_dd_yyyy (civil_from_days (days_from_civil 2000 1 1 - 1))) /\
     civil_from_days (days_from_civil 2000 1 1 - 1) <> (2000, 1, 1)%Z) /\
   ((0 <= -300 < 1440)%Z -> format_dob (-300) "2000-01-01" = Some (format_MMM_dd_yyyy (2000, 1, 1)%Z))).
Proof.
  assert (H : parse_iso_date "2000-01-01" = Some (2000, 1, 1)%Z) by (vm_compute; reflexivity).
  split; [exact H| exact (format_dob_tz (-300) _ _ _ _ H)].
Defined.

(** 00:10 on 2023-11-14 in India ([tz = 330]) is 18:40 UTC on 2023-11-13. *)
Example dob_max_india : dob_max 1699900800000 = "2023-11-13".
Proof. vm_compute. reflexivity. Qed.

End DatesDemo.
