(* ===== verification/Json.v ===== *)
(** * JSON values as the persistence adapter stores them

    The adapter ([utils/localStorage], not under src/) serialises values
    with [JSON.stringify] and reads them back with [JSON.parse]; the stores
    then test what they read with JavaScript truthiness.  This file holds
    the JSON value type, truthiness and object-field lookup. *)

From S2P Require Import Prelude.
From Stdlib Require Import String.

Open Scope string_scope.

Inductive Json : Type :=
  | JNull
  | JBool (b : bool)
  | JNum (z : Z)
  | JStr (s : string)
  | JArr (items : list Json)
  | JObj (fields : list (string * Json)).

(** JavaScript truthiness of a parsed value: [null], [false], [0] and
  [""] are falsy, every array and object is truthy. *)
Definition js_truthy (v : Json) : bool :=
  match v with
  | JNull => false
  | JBool b => b
  | JNum z => negb (Z.eqb z 0)
  | JStr s => negb (String.eqb s "")
  | JArr _ | JObj _ => true
  end.

(** [obj[key]]: the first field of that name. *)
Fixpoint json_field (k : string) (fs : list (string * Json)) : option Json :=
  match fs with
  | [] => None
  | (k', v) :: fs' => if String.eqb k k' then Some v else json_field k fs'
  end.

Definition json_get (k : string) (v : Json) : option Json :=
  match v with JObj fs => json_field k fs | _ => None end.

(** Typed views of a parsed value (a failed view is a value that does not
  deserialise to the expected type). *)
Definition json_as_string (v : Json) : option string :=
  match v with JStr s => Some s | _ => None end.
Definition json_as_bool (v : Json) : option bool :=
  match v with JBool b => Some b | _ => None end.
Definition json_as_num (v : Json) : option Z :=
  match v with JNum z => Some z | _ => None end.
Definition json_as_array (v : Json) : option (list Json) :=
  match v with JArr l => Some l | _ => None end.

Lemma json_field_head k v fs : json_field k ((k, v) :: fs) = Some v.
Proof. cbn. by rewrite String.eqb_refl. Qed.

Lemma json_field_skip k k' v fs :
  k <> k' -> json_field k ((k', v) :: fs) = json_field k fs.
Proof. intros Hne. cbn. destruct (String.eqb_spec k k'); congruence. Qed.

Lemma js_truthy_obj fs : js_truthy (JObj fs) = true.
Proof. reflexivity. Qed.

#[export] Hint Rewrite json_field_head js_truthy_obj : ems_rw.
