(* ===== verification/Storage.v ===== *)
(** * The persistence adapter (utils/localStorage)

    The adapter is not under src/; its contract is spec 4.3: [get] returns
    the stored value deserialised or the default when it is absent or does
    not deserialise, [set] overwrites, [remove] deletes, and the three keys
    of [STORAGE_KEYS] are independent entries.

    The contract is the typeclass [LocalStorage] (the operations on an
    abstract store [S]) with [LocalStorageLaws]; the stores of the program
    are proved against these laws only.  [gmap_LocalStorage] implements the
    interface with stdpp's [gmap] and discharges the laws.  Stores that
    agree on every key are observationally equivalent ([ls_equiv]), and
    [getItem] respects that equivalence. *)

From S2P Require Import Prelude Json.
From stdpp Require Import countable gmap.

(** [STORAGE_KEYS]: the three independent entries. *)
Inductive StorageKey : Type := AUTH | USER | EMPLOYEES.

#[export] Instance StorageKey_eq_dec : EqDecision StorageKey.
Proof. solve_decision. Defined.

Definition StorageKey_to_nat (k : StorageKey) : nat :=
  match k with AUTH => 0 | USER => 1 | EMPLOYEES => 2 end.
Definition StorageKey_of_nat (n : nat) : StorageKey :=
  match n with 0 => AUTH | 1 => USER | _ => EMPLOYEES end.

#[export] Instance StorageKey_countable : Countable StorageKey.
Proof.
  apply (inj_countable' StorageKey_to_nat StorageKey_of_nat). by intros [].
Defined.

(** The adapter's interface. *)
Class LocalStorage (S : Type) := {
  ls_get : StorageKey -> S -> option Json;
  ls_set : StorageKey -> Json -> S -> S;
  ls_remove : StorageKey -> S -> S;
  }.

Class LocalStorageLaws (S : Type) `{!LocalStorage S} := {
  ls_get_set_eq k v s : ls_get k (ls_set k v s) = Some v;
  ls_get_set_ne k k' v s : k <> k' -> ls_get k' (ls_set k v s) = ls_get k' s;
  ls_get_remove_eq k s : ls_get k (ls_remove k s) = None;
  ls_get_remove_ne k k' s : k <> k' -> ls_get k' (ls_remove k s) = ls_get k' s;
  }.

Section Adapter.
Context {S : Type} `{!LocalStorage S}.

(** [getItem<T>(key, defaultValue)]: the stored value deserialised by
    [decode], or the default when absent or undeserialisable. *)
Definition getItem {T} (decode : Json -> option T) (key : StorageKey)
    (defaultValue : T) (s : S) : T :=
  match ls_get key s with
  | Some v => match decode v with Some x => x | None => defaultValue end
  | None => defaultValue
  end.

(** [setItem<T>(key, value)]: serialise and overwrite. *)
Definition setItem {T} (encode : T -> Json) (key : StorageKey) (value : T) (s : S) : S :=
  ls_set key (encode value) s.

(** [removeItem(key)]. *)
Definition removeItem (key : StorageKey) (s : S) : S := ls_remove key s.

(** Observational equivalence of stores. *)
Definition ls_equiv (s1 s2 : S) : Prop := forall k, ls_get k s1 = ls_get k s2.

#[global] Instance ls_equiv_equivalence : Equivalence ls_equiv.
Proof.
  split.
  - intros s k. done.
  - intros s1 s2 H k. by rewrite H.
  - intros s1 s2 s3 H1 H2 k. by rewrite H1, H2.
Qed.

#[global] Instance getItem_proper {T} (dec : Json -> option T) k d :
  Proper (ls_equiv ==> eq) (getItem dec k d).
Proof. intros s1 s2 Hs. unfold getItem. by rewrite (Hs k). Qed.

Context `{!LocalStorageLaws S}.

#[global] Instance setItem_proper {T} (enc : T -> Json) k v :
  Proper (ls_equiv ==> ls_equiv) (setItem enc k v).
Proof.
  intros s1 s2 Hs k'. unfold setItem.
  destruct (decide (k = k')) as [->|Hne].
  - by rewrite !ls_get_set_eq.
  - by rewrite !ls_get_set_ne.
Qed.

#[global] Instance removeItem_proper k : Proper (ls_equiv ==> ls_equiv) (removeItem k).
Proof.
  intros s1 s2 Hs k'. unfold removeItem.
  destruct (decide (k = k')) as [->|Hne].
  - by rewrite !ls_get_remove_eq.
  - by rewrite !ls_get_remove_ne.
Qed.

(** Reading back what was written gives the value, when the codec
    round-trips. *)
Lemma getItem_setItem {T} (enc : T -> Json) (dec : Json -> option T) k v d s :
  dec (enc v) = Some v -> getItem dec k d (setItem enc k v s) = v.
Proof. intros Hrt. unfold getItem, setItem. by rewrite ls_get_set_eq, Hrt. Qed.

Lemma getItem_setItem_same {T U} (enc : T -> Json) (dec : Json -> option U) k v d s :
  getItem dec k d (setItem enc k v s) = default d (dec (enc v)).
Proof. unfold getItem, setItem. rewrite ls_get_set_eq. by destruct (dec (enc v)). Qed.

Lemma getItem_setItem_ne {T U} (enc : T -> Json) (dec : Json -> option U) k k' v d s :
  k <> k' -> getItem dec k' d (setItem enc k v s) = getItem dec k' d s.
Proof. intros Hne. unfold getItem, setItem. by rewrite ls_get_set_ne. Qed.

Lemma getItem_removeItem {T} (dec : Json -> option T) k d s :
  getItem dec k d (removeItem k s) = d.
Proof. unfold getItem, removeItem. by rewrite ls_get_remove_eq. Qed.

Lemma getItem_removeItem_ne {T} (dec : Json -> option T) k k' d s :
  k <> k' -> getItem dec k' d (removeItem k s) = getItem dec k' d s.
Proof. intros Hne. unfold getItem, removeItem. by rewrite ls_get_remove_ne. Qed.
End Adapter.

(** ** The [gmap] implementation of the interface *)

#[export] Instance gmap_LocalStorage : LocalStorage (gmap StorageKey Json) := {
  ls_get k s := s !! k;
  ls_set k v s := <[k := v]> s;
  ls_remove k s := delete k s;
  }.

#[export] Instance gmap_LocalStorageLaws : LocalStorageLaws (gmap StorageKey Json).
Proof.
  split; cbn; intros.
  - apply lookup_insert_eq.
  - by apply lookup_insert_ne.
  - apply lookup_delete_eq.
  - by apply lookup_delete_ne.
Qed.

(** The empty browser storage of a first visit. *)
Definition empty_storage : gmap StorageKey Json := ∅.

#[export] Hint Rewrite @ls_get_set_eq @ls_get_remove_eq : ems_rw.
