(* ===== verification/World.v ===== *)
(** * The world the handlers run in

    Every effect of the stores goes through this world: the clock read by
    [new Date()], the stream of [Math.random()] draws and the browser
    storage behind the [LocalStorage] interface.

    - The clock is [w_now] with a stream [w_drift] of non-negative
      increments: [date_now] returns [w_now] and then moves the clock by
      the next drift (0 when the stream is exhausted), so successive reads
      are non-decreasing and may or may not differ.
    - [Math.random()] is [k / 2^53] for the next [k] of [w_rand]
      (0 when exhausted); a well-formed stream has [0 <= k < 2^53].

    [clock_mono m] says that [m] keeps the world well formed and never moves
    the clock backwards; the lemmas below prove it for the primitives and
    for [mret], [≫=] and [mapM], and they are in the [ems] hint database. *)

From S2P Require Import Prelude Json Storage.

Record World (S : Type) : Type := mkWorld {
  w_now : Z;
  w_drift : list Z;
  w_rand : list Z;
  w_store : S;
  }.
Arguments mkWorld {S} _ _ _ _.
Arguments w_now {S} _.
Arguments w_drift {S} _.
Arguments w_rand {S} _.
Arguments w_store {S} _.

(** The width of a [Math.random()] mantissa. *)
Definition RANDOM_BITS : Z := 53.

Section World.
Context {S : Type} `{!LocalStorage S}.
Abbreviation W := (World S).

(** [new Date()]. *)
Definition date_now : St W Z := fun w =>
  (w_now w, mkWorld (w_now w + hd 0%Z (w_drift w)) (tl (w_drift w)) (w_rand w) (w_store w)).

(** [Math.random()], as its 53-bit numerator. *)
Definition math_random : St W Z := fun w =>
  (hd 0%Z (w_rand w), mkWorld (w_now w) (w_drift w) (tl (w_rand w)) (w_store w)).

Definition with_store (f : S -> S) (w : W) : W :=
  mkWorld (w_now w) (w_drift w) (w_rand w) (f (w_store w)).

Definition get_item {T} (decode : Json -> option T) (key : StorageKey) (d : T) : St W T :=
  fun w => (getItem decode key d (w_store w), w).

Definition set_item {T} (encode : T -> Json) (key : StorageKey) (v : T) : St W unit :=
  fun w => (tt, with_store (setItem encode key v) w).

Definition remove_item (key : StorageKey) : St W unit :=
  fun w => (tt, with_store (removeItem key) w).

(** Well-formed worlds: drifts are non-negative and random numerators
    are 53-bit. *)
Definition world_wf (w : W) : Prop :=
  Forall (fun d => 0 <= d)%Z (w_drift w) /\
  Forall (fun k => 0 <= k < 2 ^ RANDOM_BITS)%Z (w_rand w).

Definition clock_mono {A} (m : St W A) : Prop :=
  forall w, world_wf w ->
    world_wf (snd (m @ w)) /\ (w_now w <= w_now (snd (m @ w)))%Z.

Lemma Forall_tl {X} (P : X -> Prop) (l : list X) : Forall P l -> Forall P (tl l).
Proof. destruct 1; [constructor| done]. Qed.

Lemma Forall_hd_default {X} (P : X -> Prop) (x : X) (l : list X) :
  P x -> Forall P l -> P (hd x l).
Proof. intros Hx Hl. destruct Hl; done. Qed.

Lemma date_now_mono : clock_mono date_now.
Proof.
  intros w [Hd Hr]. cbn. split; [split; [by apply Forall_tl| done]|].
  pose proof (Forall_hd_default _ 0%Z _ (Z.le_refl 0) Hd). lia.
Qed.

(** The instant [date_now] returns is the clock before the call, and the
    clock after it is not earlier. *)
Lemma date_now_run w :
  date_now @ w = (w_now w, snd (date_now @ w)).
Proof. reflexivity. Qed.

Lemma math_random_mono : clock_mono math_random.
Proof. intros w [Hd Hr]. cbn. split; [split; [done| by apply Forall_tl]| lia]. Qed.

Lemma math_random_range w :
  world_wf w -> (0 <= fst (math_random @ w) < 2 ^ RANDOM_BITS)%Z.
Proof.
  intros [_ Hr]. cbn. apply (Forall_hd_default (fun k => 0 <= k < 2 ^ RANDOM_BITS)%Z); [|done].
  unfold RANDOM_BITS. lia.
Qed.

Lemma get_item_mono {T} dec k (d : T) : clock_mono (get_item dec k d).
Proof. intros w Hw. cbn. split; [done| lia]. Qed.

Lemma set_item_mono {T} enc k (v : T) : clock_mono (set_item enc k v).
Proof. intros w Hw. cbn. split; [done| lia]. Qed.

Lemma remove_item_mono k : clock_mono (remove_item k).
Proof. intros w Hw. cbn. split; [done| lia]. Qed.

Lemma ret_mono {A} (x : A) : clock_mono (mret x).
Proof. intros w Hw. cbn. split; [done| lia]. Qed.

Lemma bind_mono {A B} (m : St W A) (f : A -> St W B) :
  clock_mono m -> (forall a, clock_mono (f a)) -> clock_mono (m ≫= f).
Proof.
  intros Hm Hf w Hw. rewrite st_bind_run.
  destruct (Hm w Hw) as [Hw1 Hle1].
  destruct (Hf (fst (m @ w)) _ Hw1) as [Hw2 Hle2]. split; [done| lia].
Qed.

Lemma mapM_mono {A B} (f : A -> St W B) (l : list A) :
  (forall x, clock_mono (f x)) -> clock_mono (mapM f l).
Proof.
  intros Hf w Hw. split.
  - apply st_mapM_world_pres; [|done]. intros x w' Hw'. by apply Hf.
  - apply (st_mapM_world_rel (fun w1 w2 => w_now w1 <= w_now w2)%Z world_wf); [lia| lia| |done].
    intros x w' Hw'. by apply Hf.
Qed.

(** Storage operations leave the clock and the random stream alone. *)
Lemma set_item_store {T} enc k (v : T) w :
  w_store (snd (set_item enc k v @ w)) = setItem enc k v (w_store w).
Proof. reflexivity. Qed.

Lemma date_now_store w : w_store (snd (date_now @ w)) = w_store w.
Proof. reflexivity. Qed.

Lemma math_random_store w : w_store (snd (math_random @ w)) = w_store w.
Proof. reflexivity. Qed.
End World.

#[export] Hint Resolve date_now_mono math_random_mono get_item_mono set_item_mono
  remove_item_mono ret_mono : ems.
#[export] Hint Extern 2 (clock_mono (_ ≫= _)) => apply bind_mono; [|intro] : ems.
#[export] Hint Extern 2 (clock_mono (mapM _ _)) => apply mapM_mono; intro : ems.
#[export] Hint Extern 3 (clock_mono (if ?b then _ else _)) => destruct b : ems.

(** Solve [clock_mono] goals for handlers built from the primitives. *)
Ltac solve_clock_mono :=
  repeat match goal with
  | |- clock_mono (mret _) => apply ret_mono
  | |- clock_mono (_ ≫= _) => apply bind_mono; [|intros ?]
  | |- clock_mono (mapM _ _) => apply mapM_mono; intros ?
  | |- clock_mono (if ?b then _ else _) => destruct b
  | |- clock_mono _ => solve [eauto with ems]
  end.

(** Non-negative drifts, one read after another. *)
Lemma drift_hd_tl (d : list Z) :
  Forall (fun x => 0 <= x)%Z d -> (0 <= hd 0%Z d)%Z /\ Forall (fun x => 0 <= x)%Z (tl d).
Proof. destruct 1; cbn; [split; [lia| constructor]| done]. Qed.

Ltac drift_facts H := do 10 (apply drift_hd_tl in H as [? H]).

(** ** Frames: which stored keys a computation leaves alone

    The session store writes only AUTH and USER, the employee store only
    EMPLOYEES; [keeps_key k m] says that [m] leaves the value stored under
    [k] as it was, so that the invariant of one store survives the
    handlers of the other. *)

Section Frames.
Context {S : Type} `{!LocalStorage S} `{!LocalStorageLaws S}.
Abbreviation W := (World S).

Definition keeps_key {A} (k : StorageKey) (m : St W A) : Prop :=
  forall w, ls_get k (w_store (snd (m @ w))) = ls_get k (w_store w).

Lemma date_now_keeps k : keeps_key k date_now.
Proof. done. Qed.

Lemma math_random_keeps k : keeps_key k math_random.
Proof. done. Qed.

Lemma get_item_keeps {T} k dec k' (d : T) : keeps_key k (get_item dec k' d).
Proof. done. Qed.

Lemma ret_keeps {A} k (x : A) : keeps_key k (mret x).
Proof. done. Qed.

Lemma set_item_keeps {T} k enc k' (v : T) : k' <> k -> keeps_key k (set_item enc k' v).
Proof. intros Hne w. cbn. by apply ls_get_set_ne. Qed.

Lemma remove_item_keeps k k' : k' <> k -> keeps_key k (remove_item k').
Proof. intros Hne w. cbn. by apply ls_get_remove_ne. Qed.

Lemma bind_keeps {A B} k (m : St W A) (f : A -> St W B) :
  keeps_key k m -> (forall a, keeps_key k (f a)) -> keeps_key k (m ≫= f).
Proof. intros Hm Hf w. rewrite st_bind_run, Hf. apply Hm. Qed.

Lemma mapM_keeps {A B} k (f : A -> St W B) (l : list A) :
  (forall x, keeps_key k (f x)) -> keeps_key k (mapM f l).
Proof.
  intros Hf w. apply (st_mapM_world_rel (fun w1 w2 => ls_get k (w_store w2) = ls_get k (w_store w1))
    (fun _ => True)); [done| congruence| |done].
  intros x w' _. split; [done| apply Hf].
Qed.
End Frames.

#[export] Hint Resolve date_now_keeps math_random_keeps get_item_keeps ret_keeps : ems.

(** Solve [keeps_key] goals for handlers built from the primitives; the
    keys written must differ from the key kept. *)
Ltac solve_keeps :=
  repeat match goal with
  | |- keeps_key _ (mret _) => apply ret_keeps
  | |- keeps_key _ (_ ≫= _) => apply bind_keeps; [|intros ?]
  | |- keeps_key _ (mapM _ _) => apply mapM_keeps; intros ?
  | |- keeps_key _ (if ?b then _ else _) => destruct b
  | |- keeps_key _ (set_item _ _ _) => apply set_item_keeps; solve [discriminate| by apply not_eq_sym]
  | |- keeps_key _ (remove_item _) => apply remove_item_keeps; solve [discriminate| by apply not_eq_sym]
  | |- keeps_key _ _ => solve [eauto with ems]
  end.
