(* ===== verification/EmployeeTypes.v ===== *)
(** * The data model of types/employee.ts

    [Gender] is the string-literal union ['Male' | 'Female' | 'Other'];
    [Employee.t], [FormData.t] and [Filters.t] are the three interfaces,
    field for field ([createdAt]/[updatedAt] as epoch milliseconds, see
    the root header).  [PartialFilters.t] is [Partial<EmployeeFilters>]:
    a field is [None] when the key is absent.

    The JSON codec is what [JSON.stringify]/[JSON.parse] do to a record
    (object keys by name); [employees_of_json] rejects a value that is not an
    array of records, which the adapter then reads as its default. *)

From S2P Require Import Prelude Json.
From Stdlib Require Import String.
From stdpp Require Import strings.

Open Scope string_scope.

Inductive Gender : Type := Male | Female | Other.

#[export] Instance Gender_eq_dec : EqDecision Gender.
Proof. solve_decision. Defined.

(** The string a [Gender] is at run time. *)
Definition gender_toString (g : Gender) : string :=
  match g with Male => "Male" | Female => "Female" | Other => "Other" end.

Definition gender_of_string (s : string) : option Gender :=
  if String.eqb s "Male" then Some Male
  else if String.eqb s "Female" then Some Female
  else if String.eqb s "Other" then Some Other
  else None.

Module Employee.
Record t : Type := mk {
  id : string;
  name : string;
  gender : Gender;
  dob : string;
  state : string;
  image : string;
  active : bool;
  createdAt : Z;
  updatedAt : Z;
  }.
End Employee.

Module FormData.
Record t : Type := mk {
  name : string;
  gender : Gender;
  dob : string;
  state : string;
  image : string;
  active : bool;
  }.
End FormData.

Module Filters.
Record t : Type := mk {
  search : string;
  gender : string;
  status : string;
  }.
End Filters.

Module PartialFilters.
Record t : Type := mk {
  search : option string;
  gender : option string;
  status : option string;
  }.
End PartialFilters.

#[export] Instance Employee_eq_dec : EqDecision Employee.t.
Proof. solve_decision. Defined.

#[export] Instance Filters_eq_dec : EqDecision Filters.t.
Proof. solve_decision. Defined.

(** ** JSON codec *)

Definition employee_to_json (e : Employee.t) : Json :=
  JObj [("id", JStr (Employee.id e));
      ("name", JStr (Employee.name e));
      ("gender", JStr (gender_toString (Employee.gender e)));
      ("dob", JStr (Employee.dob e));
      ("state", JStr (Employee.state e));
      ("image", JStr (Employee.image e));
      ("active", JBool (Employee.active e));
      ("createdAt", JNum (Employee.createdAt e));
      ("updatedAt", JNum (Employee.updatedAt e))].

Definition str_field (k : string) (v : Json) : option string :=
  json_get k v ≫= json_as_string.

Definition employee_of_json (v : Json) : option Employee.t :=
  i ← str_field "id" v;
  n ← str_field "name" v;
  gs ← str_field "gender" v;
  g ← gender_of_string gs;
  d ← str_field "dob" v;
  s ← str_field "state" v;
  im ← str_field "image" v;
  a ← json_get "active" v ≫= json_as_bool;
  c ← json_get "createdAt" v ≫= json_as_num;
  u ← json_get "updatedAt" v ≫= json_as_num;
  mret (Employee.mk i n g d s im a c u).

Definition employees_to_json (l : list Employee.t) : Json :=
  JArr (employee_to_json <$> l).

Definition employees_of_json (v : Json) : option (list Employee.t) :=
  json_as_array v ≫= mapM employee_of_json.

Lemma gender_roundtrip g : gender_of_string (gender_toString g) = Some g.
Proof. by destruct g. Qed.

Lemma employee_roundtrip e : employee_of_json (employee_to_json e) = Some e.
Proof. destruct e as [i n g d s im a c u]. destruct g; reflexivity. Qed.

Lemma employees_roundtrip (l : list Employee.t) :
  employees_of_json (employees_to_json l) = Some l.
Proof. apply (mapM_fmap_Some _ _ _ employee_roundtrip). Qed.

#[export] Hint Rewrite employees_roundtrip gender_roundtrip : ems_rw.
