(* ===== verification/EmployeeStore.v ===== *)
(** * The employee store: context/EmployeeContext.tsx

    [EState] is the provider's React state ([employees], [filters]); every
    handler is a computation in [St (World S)] that reads the clock and the
    random stream where the code calls [new Date()] / [Math.random()] and
    writes the whole collection through the storage adapter, exactly in the
    order the code does.  [filteredEmployees] and [stats] are the values
    recomputed on every render.

    The store is written against the [LocalStorage] interface; the theorems
    that need the adapter's contract assume [LocalStorageLaws].  [Event] and
    [handle] are the user events the view layer can raise; [reachable] is
    the set of (state, world) pairs that a session can reach from the
    module load, and the invariants are proved by induction on it. *)

From S2P Require Import Prelude JsString Json Storage World EmployeeTypes.
From Stdlib Require Import String Ascii.
From stdpp Require Import strings sets gmap.

Open Scope string_scope.

Module EmployeeContext.
Section Store.
Context {S : Type} `{!LocalStorage S}.
Abbreviation W := (World S).

(** ** generateId *)

(** [Math.floor(Math.random() * 10000)] for [Math.random() = k / 2^53]. *)
Definition random_index (k : Z) : Z := (k * 10000 / 2 ^ RANDOM_BITS)%Z.

(** [`EMP${num.toString().padStart(4, '0')}`]. *)
Definition id_of_index (n : Z) : string :=
  "EMP" ++ JsString.padStart (JsString.Number_toString n) 4 "0".

Definition generateId : St W string :=
  k ← math_random; mret (id_of_index (random_index k)).

(** ** SAMPLE_EMPLOYEES: evaluated once, when the module loads; each
    record reads the clock twice. *)
Definition sample_employee (i n : string) (g : Gender) (d s : string) (a : bool)
    : St W Employee.t :=
  c ← date_now; u ← date_now; mret (Employee.mk i n g d s "" a c u).

Definition SAMPLE_EMPLOYEES : St W (list Employee.t) :=
  e1 ← sample_employee "EMP001" "Rahul Sharma" Male "1995-04-12" "Maharashtra" true;
  e2 ← sample_employee "EMP002" "Priya Patel" Female "1992-08-25" "Gujarat" true;
  e3 ← sample_employee "EMP003" "Amit Kumar" Male "1988-12-03" "Delhi" false;
  e4 ← sample_employee "EMP004" "Sneha Reddy" Female "1997-06-18" "Telangana" true;
  mret [e1; e2; e3; e4].

(** ** Provider state *)

Record EState : Type := mkEState {
  employees : list Employee.t;
  filters : Filters.t;
  }.

Definition initial_filters : Filters.t := Filters.mk "" "" "".
Definition initial_state : EState := mkEState [] initial_filters.

Definition set_employees (l : list Employee.t) (st : EState) : EState :=
  mkEState l (filters st).

(** The mount effect: reseed when the stored collection is empty (or
    absent, or unreadable), otherwise load it. *)
Definition mount (sample : list Employee.t) (st : EState) : St W EState :=
  savedEmployees ← get_item employees_of_json EMPLOYEES [];
  if (length savedEmployees =? 0)%nat then
    set_item employees_to_json EMPLOYEES sample;;
    mret (set_employees sample st)
  else mret (set_employees savedEmployees st).

(** [saveEmployees]: set the state and write the whole collection. *)
Definition saveEmployees (newEmployees : list Employee.t) (st : EState) : St W EState :=
  set_item employees_to_json EMPLOYEES newEmployees;;
  mret (set_employees newEmployees st).

(** ** Handlers *)

(** [{...data, id, createdAt, updatedAt}]. *)
Definition new_employee (data : FormData.t) (i : string) (c u : Z) : Employee.t :=
  Employee.mk i (FormData.name data) (FormData.gender data) (FormData.dob data)
    (FormData.state data) (FormData.image data) (FormData.active data) c u.

(** The id is drawn first, then [createdAt], then [updatedAt]: two
    separate clock reads. *)
Definition addEmployee (data : FormData.t) (st : EState) : St W EState :=
  i ← generateId;
  c ← date_now;
  u ← date_now;
  saveEmployees (employees st ++ [new_employee data i c u])%list st.

(** [emp.id === id]. *)
Definition id_is (i : string) (emp : Employee.t) : bool := String.eqb (Employee.id emp) i.

(** [{...emp, ...data, updatedAt}]. *)
Definition apply_form (emp : Employee.t) (data : FormData.t) (u : Z) : Employee.t :=
  Employee.mk (Employee.id emp) (FormData.name data) (FormData.gender data)
    (FormData.dob data) (FormData.state data) (FormData.image data)
    (FormData.active data) (Employee.createdAt emp) u.

(** The map callback reads the clock only for a matching record. *)
Definition update_one (i : string) (data : FormData.t) (emp : Employee.t) : St W Employee.t :=
  if id_is i emp then u ← date_now; mret (apply_form emp data u) else mret emp.

Definition updateEmployee (i : string) (data : FormData.t) (st : EState) : St W EState :=
  updated ← mapM (update_one i data) (employees st);
  saveEmployees updated st.

Definition deleteEmployee (i : string) (st : EState) : St W EState :=
  saveEmployees (List.filter (fun emp => negb (id_is i emp)) (employees st)) st.

(** [{...emp, active: !emp.active, updatedAt}]. *)
Definition toggle_fields (emp : Employee.t) (u : Z) : Employee.t :=
  Employee.mk (Employee.id emp) (Employee.name emp) (Employee.gender emp)
    (Employee.dob emp) (Employee.state emp) (Employee.image emp)
    (negb (Employee.active emp)) (Employee.createdAt emp) u.

Definition toggle_one (i : string) (emp : Employee.t) : St W Employee.t :=
  if id_is i emp then u ← date_now; mret (toggle_fields emp u) else mret emp.

Definition toggleEmployeeStatus (i : string) (st : EState) : St W EState :=
  updated ← mapM (toggle_one i) (employees st);
  saveEmployees updated st.

(** [{...prev, ...newFilters}]: a given key overrides. *)
Definition merge_filters (prev : Filters.t) (p : PartialFilters.t) : Filters.t :=
  Filters.mk (default (Filters.search prev) (PartialFilters.search p))
    (default (Filters.gender prev) (PartialFilters.gender p))
    (default (Filters.status prev) (PartialFilters.status p)).

Definition setFilters (p : PartialFilters.t) (st : EState) : EState :=
  mkEState (employees st) (merge_filters (filters st) p).

Definition getEmployeeById (i : string) (st : EState) : option Employee.t :=
  List.find (id_is i) (employees st).

(** ** Derived values *)

Definition matchesSearch (f : Filters.t) (emp : Employee.t) : bool :=
  JsString.includes (JsString.toLowerCase (Employee.name emp))
    (JsString.toLowerCase (Filters.search f)).

(** [!filters.gender || emp.gender === filters.gender]. *)
Definition matchesGender (f : Filters.t) (emp : Employee.t) : bool :=
  String.eqb (Filters.gender f) "" ||
  String.eqb (gender_toString (Employee.gender emp)) (Filters.gender f).

(** [!filters.status || (filters.status === 'active' ? emp.active : !emp.active)]. *)
Definition matchesStatus (f : Filters.t) (emp : Employee.t) : bool :=
  String.eqb (Filters.status f) "" ||
  (if String.eqb (Filters.status f) "active" then Employee.active emp
   else negb (Employee.active emp)).

Definition matchesFilters (f : Filters.t) (emp : Employee.t) : bool :=
  matchesSearch f emp && matchesGender f emp && matchesStatus f emp.

Definition filteredEmployees (st : EState) : list Employee.t :=
  List.filter (matchesFilters (filters st)) (employees st).

Record Stats : Type := mkStats { total : nat; active : nat; inactive : nat }.

Definition stats (st : EState) : Stats :=
  mkStats (length (employees st))
    (length (List.filter Employee.active (employees st)))
    (length (List.filter (fun emp => negb (Employee.active emp)) (employees st))).

(** ** Events and reachable states *)

Inductive Event : Type :=
  | EvAdd (data : FormData.t)
  | EvUpdate (i : string) (data : FormData.t)
  | EvDelete (i : string)
  | EvToggle (i : string)
  | EvSetFilters (p : PartialFilters.t).

Definition handle (ev : Event) (st : EState) : St W EState :=
  match ev with
  | EvAdd data => addEmployee data st
  | EvUpdate i data => updateEmployee i data st
  | EvDelete i => deleteEmployee i st
  | EvToggle i => toggleEmployeeStatus i st
  | EvSetFilters p => mret (setFilters p st)
  end.

(** Module load ([SAMPLE_EMPLOYEES]) followed by the provider's mount. *)
Definition app_start : St W EState :=
  sample ← SAMPLE_EMPLOYEES; mount sample initial_state.

(** Timestamps of a record at clock [now]. *)
Definition ts_ok (now : Z) (e : Employee.t) : Prop :=
  (Employee.createdAt e <= Employee.updatedAt e <= now)%Z.

(** What the browser holds when the page loads: a collection written by
    an earlier session, whose timestamps are not in the future. *)
Definition stored_ok (w : W) : Prop :=
  Forall (ts_ok (w_now w)) (getItem employees_of_json EMPLOYEES [] (w_store w)).

Inductive reachable : EState -> W -> Prop :=
  | reachable_start w :
    world_wf w -> stored_ok w ->
    reachable (fst (app_start @ w)) (snd (app_start @ w))
  | reachable_step st w ev :
    reachable st w ->
    reachable (fst (handle ev st @ w)) (snd (handle ev st @ w)).

Definition ids (st : EState) : list string := Employee.id <$> employees st.
End Store.

(** ** Specifications used by the theorems (not program code) *)

(** The filter predicate of spec 4.1, stated in logic. *)
Definition passes (f : Filters.t) (e : Employee.t) : Prop :=
  (exists p q, JsString.toLowerCase (Employee.name e) =
             p ++ JsString.toLowerCase (Filters.search f) ++ q) /\
  (Filters.gender f = "" \/ Filters.gender f = gender_toString (Employee.gender e)) /\
  (Filters.status f = "" \/ (Filters.status f = "active" <-> Employee.active e = true)).

(** The [EMPdddd] format of generated ids, read back as a number. *)
Definition parse_emp_id (s : string) : option Z :=
  if String.prefix "EMP" s && (String.length s =? 7)%nat
  then JsString.parse_digits (substring 3 4 s) else None.

Section Theorems.
Context {S : Type} `{!LocalStorage S}.
Abbreviation W := (World S).

(** *** Filtering and stats *)

Lemma matchesSearch_spec f e :
  matchesSearch f e = true <->
  exists p q, JsString.toLowerCase (Employee.name e) =
              p ++ JsString.toLowerCase (Filters.search f) ++ q.
Proof. apply JsString.includes_spec. Qed.

Lemma matchesGender_spec f e :
  matchesGender f e = true <->
  Filters.gender f = "" \/ Filters.gender f = gender_toString (Employee.gender e).
Proof.
  unfold matchesGender. rewrite orb_true_iff, !String.eqb_eq. naive_solver.
Qed.

Lemma matchesStatus_spec f e :
  matchesStatus f e = true <->
  Filters.status f = "" \/ (Filters.status f = "active" <-> Employee.active e = true).
Proof.
  unfold matchesStatus. rewrite orb_true_iff, String.eqb_eq.
  destruct (String.eqb_spec (Filters.status f) "active") as [Ha|Ha];
    destruct (Employee.active e); cbn; naive_solver.
Qed.

Lemma matchesFilters_passes f e : matchesFilters f e = true <-> passes f e.
Proof.
  unfold matchesFilters, passes.
  rewrite !andb_true_iff, matchesSearch_spec, matchesGender_spec, matchesStatus_spec.
  tauto.
Qed.

(** C1: the filter the code applies is exactly the conjunction of the
    search, gender and status predicates of spec 4.1. *)
Theorem matchesFilters_spec f e : matchesFilters f e = true <-> passes f e.
Proof. apply matchesFilters_passes. Qed.

(** C2: the filtered view keeps the collection's order (it is a sublist)
    and holds exactly the records that pass the current filters. *)
Theorem filteredEmployees_spec (st : EState) :
  sublist (filteredEmployees st) (employees st) /\
  forall e, In e (filteredEmployees st) <-> In e (employees st) /\ passes (filters st) e.
Proof.
  split; [apply filter_sublist|]. intros e.
  unfold filteredEmployees. by rewrite filter_In, matchesFilters_passes.
Qed.

(** C3: the stats partition the whole, unfiltered collection. *)
Theorem stats_partition (st : EState) :
  total (stats st) = active (stats st) + inactive (stats st) /\
  total (stats st) = length (employees st).
Proof. cbn. split; [| done]. symmetry. apply filter_length_partition. Qed.

Lemma passes_initial_filters e : passes initial_filters e.
Proof.
  split; [|split; by left]. exists "", (JsString.toLowerCase (Employee.name e)). done.
Qed.

(** With the initial (cleared) filters every record is shown. *)
Lemma filteredEmployees_initial st :
  filters st = initial_filters -> filteredEmployees st = employees st.
Proof.
  intros Hf. unfold filteredEmployees. rewrite Hf. apply filter_all_true.
  intros e _. apply matchesFilters_passes, passes_initial_filters.
Qed.

(** *** Generated ids *)

Lemma random_index_range k :
  (0 <= k < 2 ^ RANDOM_BITS)%Z -> (0 <= random_index k <= 9999)%Z.
Proof.
  intros Hk. unfold random_index. split.
  - apply Z.div_pos; [lia| apply Z.pow_pos_nonneg; unfold RANDOM_BITS; lia].
  - assert (0 < 2 ^ RANDOM_BITS)%Z by (apply Z.pow_pos_nonneg; unfold RANDOM_BITS; lia).
    apply Z.lt_succ_r, Z.div_lt_upper_bound; lia.
Qed.

(** C4: [Math.floor(Math.random() * 10000)] lies in [0, 9999] for every
    53-bit draw. *)
Theorem random_index_bounds k :
  (0 <= k < 2 ^ RANDOM_BITS)%Z -> (0 <= random_index k <= 9999)%Z.
Proof. apply random_index_range. Qed.

Definition id_roundtrip_check (n : Z) : bool :=
  match parse_emp_id (id_of_index n) with
  | Some m => Z.eqb m n
  | None => false
  end.

Lemma id_roundtrip_check_all : JsString.Z_forall_below id_roundtrip_check 10000 = true.
Proof. vm_compute. reflexivity. Qed.

Lemma id_of_index_parse n :
  (0 <= n <= 9999)%Z -> parse_emp_id (id_of_index n) = Some n.
Proof.
  intros Hn.
  assert (Hc : id_roundtrip_check n = true).
  { apply (JsString.Z_forall_below_spec _ _ id_roundtrip_check_all).
    change (Z.of_nat 10000) with 10000%Z. lia. }
  unfold id_roundtrip_check in Hc.
  destruct (parse_emp_id (id_of_index n)) as [m|]; [|done].
  apply Z.eqb_eq in Hc. by subst.
Qed.

(** C5: an id built from an index in range has the [EMPdddd] format and
    reads back as that index. *)
Theorem id_of_index_roundtrip n :
  (0 <= n <= 9999)%Z -> parse_emp_id (id_of_index n) = Some n.
Proof. apply id_of_index_parse. Qed.

(** *** Handlers: run lemmas *)

Lemma saveEmployees_run l st (w : W) :
  saveEmployees l st @ w =
    (set_employees l st, with_store (setItem employees_to_json EMPLOYEES l) w).
Proof. reflexivity. Qed.

(** What [addEmployee] computes: the id from the next draw, [createdAt]
    from the current clock and [updatedAt] from the clock one drift later. *)
Lemma addEmployee_run data st (w : W) :
  let e := new_employee data (id_of_index (random_index (hd 0%Z (w_rand w))))
             (w_now w) (w_now w + hd 0%Z (w_drift w)) in
  addEmployee data st @ w =
    (set_employees (employees st ++ [e])%list st,
     mkWorld (w_now w + hd 0%Z (w_drift w) + hd 0%Z (tl (w_drift w)))
       (tl (tl (w_drift w))) (tl (w_rand w))
       (setItem employees_to_json EMPLOYEES (employees st ++ [e])%list (w_store w))).
Proof. reflexivity. Qed.

(** The [map] callbacks of [updateEmployee] and [toggleEmployeeStatus]
    share one shape: stamp a matching record with a fresh instant. *)
Definition stamp_if (p : Employee.t -> bool) (g : Employee.t -> Z -> Employee.t)
    (emp : Employee.t) : St W Employee.t :=
  if p emp then u ← date_now; mret (g emp u) else mret emp.

Lemma update_one_stamp i data :
  update_one i data = stamp_if (id_is i) (fun emp u => apply_form emp data u).
Proof. reflexivity. Qed.

Lemma toggle_one_stamp i : toggle_one i = stamp_if (id_is i) toggle_fields.
Proof. reflexivity. Qed.

Lemma stamp_if_mono p g emp : clock_mono (stamp_if p g emp).
Proof. unfold stamp_if. destruct (p emp); eauto with ems. Qed.

(** [old] becomes [new]: stamped at an instant in [t0, t1] when it
    matches, unchanged otherwise. *)
Definition stamped (p : Employee.t -> bool) (g : Employee.t -> Z -> Employee.t)
    (t0 t1 : Z) (old new : Employee.t) : Prop :=
  if p old then exists u, new = g old u /\ (t0 <= u <= t1)%Z else new = old.

Lemma stamped_weaken p g t0 t1 t0' t1' old new :
  (t0' <= t0)%Z -> (t1 <= t1')%Z -> stamped p g t0 t1 old new -> stamped p g t0' t1' old new.
Proof.
  unfold stamped. destruct (p old); [|done]. intros ?? [u [-> ?]]. exists u. split; [done| lia].
Qed.

Lemma mapM_stamp_spec p g l (w : W) :
  world_wf w ->
  Forall2 (stamped p g (w_now w) (w_now (snd (mapM (stamp_if p g) l @ w))))
    l (fst (mapM (stamp_if p g) l @ w)).
Proof.
  revert w; induction l as [|x l IH]; intros w Hw; [constructor|].
  rewrite st_mapM_cons.
  destruct (stamp_if_mono p g x w Hw) as [Hw1 Hle1].
  assert (Hx : stamped p g (w_now w) (w_now (snd (stamp_if p g x @ w)))
                 x (fst (stamp_if p g x @ w))).
  { unfold stamped, stamp_if in *. destruct (p x); [|done].
    exists (w_now w). cbn in *. split; [done| lia]. }
  destruct (stamp_if p g x @ w) as [y w1]. cbn in Hw1, Hle1, Hx.
  pose proof (IH w1 Hw1) as Hl.
  destruct (mapM_mono (stamp_if p g) l (stamp_if_mono p g) w1 Hw1) as [_ Hle2].
  destruct (mapM (stamp_if p g) l @ w1) as [ys w2]. cbn in *.
  constructor.
  - eapply stamped_weaken; [| |exact Hx]; lia.
  - eapply Forall2_impl; [exact Hl|]. intros. eapply stamped_weaken; [| |done]; lia.
Qed.

(** The record's fields as the form edits them. *)
Definition form_of (e : Employee.t) : FormData.t :=
  FormData.mk (Employee.name e) (Employee.gender e) (Employee.dob e)
    (Employee.state e) (Employee.image e) (Employee.active e).

(** A record with every field but [updatedAt]. *)
Definition untimed (e : Employee.t) : Employee.t :=
  Employee.mk (Employee.id e) (Employee.name e) (Employee.gender e) (Employee.dob e)
    (Employee.state e) (Employee.image e) (Employee.active e) (Employee.createdAt e) 0.

Lemma updateEmployee_run i data st (w : W) :
  fst (updateEmployee i data st @ w) =
    set_employees (fst (mapM (update_one i data) (employees st) @ w)) st /\
  w_now (snd (updateEmployee i data st @ w)) =
    w_now (snd (mapM (update_one i data) (employees st) @ w)).
Proof. unfold updateEmployee. st_simpl. by rewrite saveEmployees_run. Qed.

Lemma toggleEmployeeStatus_run i st (w : W) :
  fst (toggleEmployeeStatus i st @ w) =
    set_employees (fst (mapM (toggle_one i) (employees st) @ w)) st /\
  w_now (snd (toggleEmployeeStatus i st @ w)) =
    w_now (snd (mapM (toggle_one i) (employees st) @ w)).
Proof. unfold toggleEmployeeStatus. st_simpl. by rewrite saveEmployees_run. Qed.

Lemma updateEmployee_stamps i data st (w : W) :
  world_wf w ->
  Forall2 (fun old new =>
    if id_is i old then
      Employee.id new = Employee.id old /\
      Employee.createdAt new = Employee.createdAt old /\
      form_of new = data /\
      (w_now w <= Employee.updatedAt new <= w_now (snd (updateEmployee i data st @ w)))%Z
    else new = old)
    (employees st) (employees (fst (updateEmployee i data st @ w))).
Proof.
  intros Hw. destruct (updateEmployee_run i data st w) as [-> ->]. cbn.
  rewrite update_one_stamp.
  eapply Forall2_impl; [exact (mapM_stamp_spec _ _ (employees st) w Hw)|].
  intros old new. unfold stamped. destruct (id_is i old); [|done].
  intros [u [-> Hu]]. cbn. by destruct data.
Qed.

(** C6: [updateEmployee] replaces the form fields of every record with the
    given id, keeps its id and [createdAt], and stamps [updatedAt] with an
    instant not earlier than the call; other records are unchanged. *)
Theorem updateEmployee_spec i data st (w : W) :
  world_wf w ->
  Forall2 (fun old new =>
    if id_is i old then
      Employee.id new = Employee.id old /\
      Employee.createdAt new = Employee.createdAt old /\
      form_of new = data /\
      (w_now w <= Employee.updatedAt new <= w_now (snd (updateEmployee i data st @ w)))%Z
    else new = old)
    (employees st) (employees (fst (updateEmployee i data st @ w))).
Proof. apply updateEmployee_stamps. Qed.

Lemma toggle_fields_twice e u1 u2 :
  untimed (toggle_fields (toggle_fields e u1) u2) = untimed e.
Proof. destruct e as [? ? ? ? ? ? [] ? ?]; reflexivity. Qed.

(** Without any assumption on the world, a stamped record is the
    callback's result at some instant. *)
Lemma mapM_stamp_shape (p : Employee.t -> bool) (g : Employee.t -> Z -> Employee.t)
    (l : list Employee.t) (w : W) :
  Forall2 (fun old new => exists u : Z, new = if p old then g old u else old)
    l (fst (mapM (stamp_if p g) l @ w)).
Proof.
  revert w; induction l as [|x l IH]; intros w; [constructor|].
  rewrite st_mapM_cons.
  assert (Hx : exists u, fst (stamp_if p g x @ w) = if p x then g x u else x).
  { unfold stamp_if. destruct (p x); [by exists (w_now w)| by exists 0%Z]. }
  destruct (stamp_if p g x @ w) as [y w1]. specialize (IH w1).
  destruct (mapM (stamp_if p g) l @ w1) as [ys w2]. cbn in *. by constructor.
Qed.

(** The records of a toggled collection with another id are unchanged;
    those with the toggled id have their status flipped. *)
Lemma toggle_filter_other i j l (w : W) :
  i <> j -> List.filter (id_is j) (fst (mapM (toggle_one i) l @ w)) = List.filter (id_is j) l.
Proof.
  intros Hij. rewrite toggle_one_stamp.
  induction (mapM_stamp_shape (id_is i) toggle_fields l w) as [|x y l1 l2 [u ->] _ IH];
    [done|]. cbn. rewrite IH.
  destruct (id_is i x) eqn:Hx; [| done].
  assert (Hj : id_is j x = false).
  { unfold id_is in *. apply String.eqb_eq in Hx. rewrite Hx. by apply String.eqb_neq. }
  by destruct x; cbn in *; rewrite Hj.
Qed.

Lemma toggle_filter_same i l (w : W) :
  Employee.active <$> List.filter (id_is i) (fst (mapM (toggle_one i) l @ w)) =
  negb ∘ Employee.active <$> List.filter (id_is i) l.
Proof.
  rewrite toggle_one_stamp.
  induction (mapM_stamp_shape (id_is i) toggle_fields l w) as [|x y l1 l2 [u ->] _ IH];
    [done|]. cbn.
  destruct (id_is i x) eqn:Hx; [| by rewrite Hx].
  by destruct x; cbn in *; rewrite Hx; cbn; rewrite IH.
Qed.


Lemma stamp_if_nomatch p g emp (w : W) : p emp = false -> stamp_if p g emp @ w = (emp, w).
Proof. unfold stamp_if. by intros ->. Qed.

Lemma getEmployeeById_None i st :
  getEmployeeById i st = None <-> forall e, In e (employees st) -> id_is i e = false.
Proof. apply find_none_forall. Qed.

(** C8: [updateEmployee], [deleteEmployee] and [toggleEmployeeStatus] on an
    id that no record has leave the collection unchanged, and neither
    update nor toggle reads the clock. *)
Theorem missing_id_noop i data st (w : W) :
  getEmployeeById i st = None ->
  employees (fst (updateEmployee i data st @ w)) = employees st /\
  w_now (snd (updateEmployee i data st @ w)) = w_now w /\
  employees (fst (deleteEmployee i st @ w)) = employees st /\
  employees (fst (toggleEmployeeStatus i st @ w)) = employees st /\
  w_now (snd (toggleEmployeeStatus i st @ w)) = w_now w.
Proof.
  rewrite getEmployeeById_None. intros Hnone.
  destruct (updateEmployee_run i data st w) as [-> ->].
  destruct (toggleEmployeeStatus_run i st w) as [-> ->].
  rewrite update_one_stamp, toggle_one_stamp, !st_mapM_id;
    try (intros x Hx; apply stamp_if_nomatch, Hnone, Hx).
  repeat split. cbn. apply filter_all_true. intros x Hx. by rewrite Hnone.
Qed.

Lemma filter_unique_id_length i (l : list Employee.t) :
  NoDup (Employee.id <$> l) -> In i (Employee.id <$> l) ->
  length (List.filter (fun emp => negb (id_is i emp)) l) = length l - 1.
Proof.
  induction l as [|x l IH]; cbn; [done|]. intros Hnd Hin.
  apply NoDup_cons in Hnd as [Hx Hnd]. unfold id_is at 1.
  destruct (String.eqb_spec (Employee.id x) i) as [<-|Hne]; cbn.
  - rewrite filter_all_true; [lia|]. intros y Hy. unfold id_is.
    destruct (String.eqb_spec (Employee.id y) (Employee.id x)) as [E|]; [|done].
    exfalso. apply Hx. rewrite <- E. apply list_elem_of_In, in_map, Hy.
  - destruct Hin as [|Hin]; [congruence|]. rewrite IH; [|done|done].
    destruct l; cbn in *; [done| lia].
Qed.

Lemma deleteEmployee_employees i st (w : W) :
  employees (fst (deleteEmployee i st @ w)) =
    List.filter (fun emp => negb (id_is i emp)) (employees st).
Proof. reflexivity. Qed.

Lemma filter_id_deleted i (l : list Employee.t) :
  List.filter (id_is i) (List.filter (fun emp => negb (id_is i emp)) l) = [].
Proof. induction l as [|x l IH]; [done|]. cbn. by destruct (id_is i x) eqn:E; cbn; rewrite ?E. Qed.

(** After a delete, an update of the same id finds no record: the
    collection stays as the delete left it. *)
Lemma updateEmployee_after_delete i data st (w w' : W) :
  employees (fst (updateEmployee i data (fst (deleteEmployee i st @ w)) @ w')) =
    employees (fst (deleteEmployee i st @ w)).
Proof.
  destruct (updateEmployee_run i data (fst (deleteEmployee i st @ w)) w') as [-> _].
  cbn [employees set_employees]. rewrite update_one_stamp, st_mapM_id; [done|].
  intros x Hx. apply stamp_if_nomatch. rewrite deleteEmployee_employees in Hx.
  apply filter_In in Hx as [_ Hx]. by apply negb_true_iff.
Qed.

(** C9: [deleteEmployee] keeps exactly the records with another id, in
    their order; afterwards no record has the id; when ids are unique and
    the id is present, exactly one record is removed. *)
Theorem deleteEmployee_spec i st (w : W) :
  let st' := fst (deleteEmployee i st @ w) in
  employees st' = List.filter (fun emp => negb (id_is i emp)) (employees st) /\
  sublist (employees st') (employees st) /\
  getEmployeeById i st' = None /\
  (NoDup (ids st) -> In i (ids st) -> length (employees st') = length (employees st) - 1).
Proof.
  cbn. split; [done|]. split; [apply filter_sublist|]. split.
  - apply getEmployeeById_None. cbn. intros e He.
    apply filter_In in He as [_ He]. by apply negb_true_iff.
  - apply filter_unique_id_length.
Qed.

(** C10: after [addEmployee], looking up the generated id finds the new
    record built from the form data with [createdAt] the clock at the call
    and [updatedAt] one clock read later, unless a record with that id
    already existed, which then shadows the new one. *)
Theorem addEmployee_getById data st (w : W) :
  let i := id_of_index (random_index (hd 0%Z (w_rand w))) in
  getEmployeeById i (fst (addEmployee data st @ w)) =
    match getEmployeeById i st with
    | Some old => Some old
    | None => Some (new_employee data i (w_now w) (w_now w + hd 0%Z (w_drift w)))
    end.
Proof.
  cbn zeta. rewrite addEmployee_run. unfold getEmployeeById. cbn [fst employees set_employees].
  destruct (List.find _ (employees st)) eqn:Hf.
  - by apply find_app_l.
  - rewrite find_app_r by done. cbn. unfold id_is. by rewrite String.eqb_refl.
Qed.

(** *** Invariants of the reachable states *)

Lemma ts_ok_later t1 t2 e : (t1 <= t2)%Z -> ts_ok t1 e -> ts_ok t2 e.
Proof. unfold ts_ok. lia. Qed.

Lemma Forall_ts_ok_later t1 t2 l :
  (t1 <= t2)%Z -> Forall (ts_ok t1) l -> Forall (ts_ok t2) l.
Proof. intros Ht Hl. eapply Forall_impl; [exact Hl|]. intros e. by apply ts_ok_later. Qed.

Lemma saveEmployees_mono l st : clock_mono (saveEmployees l st).
Proof. unfold saveEmployees. solve_clock_mono. Qed.

#[local] Hint Resolve saveEmployees_mono : ems.

Lemma handle_mono ev st : clock_mono (handle ev st).
Proof.
  destruct ev; cbn [handle];
    unfold addEmployee, generateId, updateEmployee, update_one,
      deleteEmployee, toggleEmployeeStatus, toggle_one; solve_clock_mono.
Qed.

Lemma sample_employee_mono i n g d s a : clock_mono (sample_employee (S:=S) i n g d s a).
Proof. unfold sample_employee. solve_clock_mono. Qed.

Lemma SAMPLE_EMPLOYEES_store (w : W) :
  w_store (snd (SAMPLE_EMPLOYEES @ w)) = w_store w.
Proof. reflexivity. Qed.

(** The seed records are stamped in the clock's past. *)
Lemma SAMPLE_EMPLOYEES_ts (w : W) :
  world_wf w ->
  world_wf (snd (SAMPLE_EMPLOYEES @ w)) /\
  (w_now w <= w_now (snd (SAMPLE_EMPLOYEES @ w)))%Z /\
  Forall (ts_ok (w_now (snd (SAMPLE_EMPLOYEES @ w)))) (fst (SAMPLE_EMPLOYEES @ w)).
Proof.
  intros Hw.
  assert (Hm : clock_mono SAMPLE_EMPLOYEES)
    by (unfold SAMPLE_EMPLOYEES; solve_clock_mono; apply sample_employee_mono).
  destruct (Hm w Hw) as [Hw1 Hle]. split; [done| split; [done|]].
  destruct Hw as [Hd _].
  cbv [st_run SAMPLE_EMPLOYEES sample_employee mbind St_bind mret St_ret date_now].
  cbn. drift_facts Hd. repeat constructor; unfold ts_ok; cbn; lia.
Qed.

Definition write_through (st : EState) (w : W) : Prop :=
  ls_get EMPLOYEES (w_store w) ≫= employees_of_json = Some (employees st).

Definition emp_inv (st : EState) (w : W) : Prop :=
  world_wf w /\ write_through st w /\ Forall (ts_ok (w_now w)) (employees st).

Context `{!LocalStorageLaws S}.

Lemma write_through_save l st (w : W) :
  write_through (fst (saveEmployees l st @ w)) (snd (saveEmployees l st @ w)).
Proof.
  unfold write_through. rewrite saveEmployees_run. cbn.
  unfold setItem. rewrite ls_get_set_eq. apply employees_roundtrip.
Qed.

Lemma write_through_bind_save (m : St W (list Employee.t)) st (w : W) :
  write_through (fst ((l ← m; saveEmployees l st) @ w))
    (snd ((l ← m; saveEmployees l st) @ w)).
Proof. rewrite st_bind_run. apply write_through_save. Qed.

(** Records stamped by a [map] callback keep the timestamp order, when
    the callback keeps [createdAt] and sets [updatedAt]. *)
Lemma mapM_stamp_ts p g l (w : W) :
  (forall e u, Employee.createdAt (g e u) = Employee.createdAt e /\
               Employee.updatedAt (g e u) = u) ->
  world_wf w -> Forall (ts_ok (w_now w)) l ->
  Forall (ts_ok (w_now (snd (mapM (stamp_if p g) l @ w)))) (fst (mapM (stamp_if p g) l @ w)).
Proof.
  intros Hg Hw Hl.
  destruct (mapM_mono _ l (stamp_if_mono p g) w Hw) as [_ Hle].
  eapply Forall2_transport; [| exact Hl| exact (mapM_stamp_spec p g l w Hw)].
  intros old new Hold. unfold stamped. destruct (p old).
  - intros [u [-> Hu]]. destruct (Hg old u) as [Hc Hu']. unfold ts_ok in *. lia.
  - intros ->. by eapply ts_ok_later.
Qed.

Lemma getItem_nonempty (s : S) :
  length (getItem employees_of_json EMPLOYEES [] s) <> 0 ->
  ls_get EMPLOYEES s ≫= employees_of_json = Some (getItem employees_of_json EMPLOYEES [] s).
Proof.
  unfold getItem. destruct (ls_get EMPLOYEES s) as [v|]; cbn; [|done].
  destruct (employees_of_json v); cbn; done.
Qed.

Lemma mount_run sample st (w : W) :
  let saved := getItem employees_of_json EMPLOYEES [] (w_store w) in
  mount sample st @ w =
    if (length saved =? 0)%nat
    then (set_employees sample st, with_store (setItem employees_to_json EMPLOYEES sample) w)
    else (set_employees saved st, w).
Proof. cbn zeta. unfold mount. st_simpl. cbn. by destruct (_ =? 0)%nat. Qed.

Lemma emp_inv_start (w : W) :
  world_wf w -> stored_ok w -> emp_inv (fst (app_start @ w)) (snd (app_start @ w)).
Proof.
  intros Hw Hst. unfold app_start. rewrite st_bind_run.
  destruct (SAMPLE_EMPLOYEES_ts w Hw) as (Hw1 & Hle & Hts).
  unfold stored_ok in Hst. rewrite <- (SAMPLE_EMPLOYEES_store w) in Hst.
  destruct (SAMPLE_EMPLOYEES @ w) as [sample w1]. cbn in *.
  rewrite mount_run. destruct (Nat.eqb_spec (length (getItem employees_of_json EMPLOYEES [] (w_store w1))) 0) as [E|E].
  - split; [done| split; [|done]].
    unfold write_through. cbn. unfold setItem. rewrite ls_get_set_eq. apply employees_roundtrip.
  - split; [done| split]; [by apply getItem_nonempty|].
    cbn. by eapply Forall_ts_ok_later.
Qed.

(** Every handler keeps the records stamped in the clock's past. *)
Lemma handle_ts ev st (w : W) :
  world_wf w -> Forall (ts_ok (w_now w)) (employees st) ->
  Forall (ts_ok (w_now (snd (handle ev st @ w)))) (employees (fst (handle ev st @ w))).
Proof.
  intros Hw Hts. destruct ev as [data|i data|i|i|p]; cbn [handle].
  - rewrite addEmployee_run. cbn. destruct Hw as [Hd _]. drift_facts Hd.
    apply Forall_app; split; [eapply Forall_ts_ok_later; [| exact Hts]; lia|].
    repeat constructor; unfold ts_ok; cbn; lia.
  - destruct (updateEmployee_run i data st w) as [-> Hnow]. rewrite Hnow. cbn.
    rewrite update_one_stamp. apply mapM_stamp_ts; [|done|done]. intros e u; by destruct e.
  - cbn. by apply Forall_list_filter.
  - destruct (toggleEmployeeStatus_run i st w) as [-> Hnow]. rewrite Hnow. cbn.
    rewrite toggle_one_stamp. apply mapM_stamp_ts; [|done|done]. intros e u; by destruct e.
  - done.
Qed.

Lemma emp_inv_step ev st (w : W) :
  emp_inv st w -> emp_inv (fst (handle ev st @ w)) (snd (handle ev st @ w)).
Proof.
  intros (Hw & Hwt & Hts).
  destruct (handle_mono ev st w Hw) as [Hw' _]. split; [done| split; [| by apply handle_ts]].
  destruct ev as [data|i data|i|i|p]; cbn [handle].
  - unfold addEmployee. rewrite !st_bind_run. apply write_through_save.
  - apply write_through_bind_save.
  - apply write_through_save.
  - apply write_through_bind_save.
  - done.
Qed.

Lemma reachable_emp_inv st (w : W) : reachable st w -> emp_inv st w.
Proof.
  induction 1 as [w Hw Hst|st w ev _ IH]; [by apply emp_inv_start| by apply emp_inv_step].
Qed.

(** C11: write-through: in every reachable state the stored snapshot
    decodes to exactly the in-memory collection. *)
Theorem reachable_write_through st (w : W) :
  reachable st w ->
  ls_get EMPLOYEES (w_store w) ≫= employees_of_json = Some (employees st).
Proof. intros H. apply (reachable_emp_inv st w H). Qed.

(** In every reachable state each record has
    [createdAt <= updatedAt <= now]. *)
Theorem reachable_timestamps st (w : W) :
  reachable st w -> Forall (ts_ok (w_now w)) (employees st).
Proof. intros H. apply (reachable_emp_inv st w H). Qed.

Lemma getItem_write_through st (w : W) :
  write_through st w -> getItem employees_of_json EMPLOYEES [] (w_store w) = employees st.
Proof.
  unfold write_through, getItem. destruct (ls_get EMPLOYEES (w_store w)) as [v|]; [|done].
  cbn. by intros ->.
Qed.

(** C12: reloading the page restores the collection from storage; an
    emptied collection is reseeded with the sample records instead. *)
Theorem remount_restores st (w : W) sample :
  reachable st w ->
  employees (fst (mount sample initial_state @ w)) =
    match employees st with [] => sample | _ => employees st end.
Proof.
  intros H. rewrite mount_run, (getItem_write_through st w) by apply (reachable_emp_inv st w H).
  by destruct (employees st).
Qed.

(** C13: on a reachable state, [updateEmployee] never moves a record's
    [updatedAt] backwards. *)
Theorem updateEmployee_updatedAt_mono i data st (w : W) :
  reachable st w ->
  Forall2 (fun old new => (Employee.updatedAt old <= Employee.updatedAt new)%Z)
    (employees st) (employees (fst (updateEmployee i data st @ w))).
Proof.
  intros H. destruct (reachable_emp_inv st w H) as (Hw & _ & Hts).
  pose proof (updateEmployee_stamps i data st w Hw) as Hspec.
  clear H. induction Hspec as [|old new l1 l2 Hon _ IH]; constructor.
  - inversion Hts as [|? ? [_ Hold] _]; subst.
    destruct (id_is i old); [lia| by subst].
  - apply IH. by inversion Hts.
Qed.

(** *** Findings *)

Lemma id_of_index_length n : (7 <= String.length (id_of_index n))%nat.
Proof.
  unfold id_of_index. rewrite JsString.string_length_append.
  pose proof (JsString.padStart_length_ge (JsString.Number_toString n) 4 "0"%char).
  change (String.length "EMP") with 3%nat. lia.
Qed.

Lemma SAMPLE_EMPLOYEES_ids (w : W) :
  Employee.id <$> fst (SAMPLE_EMPLOYEES @ w) = ["EMP001"; "EMP002"; "EMP003"; "EMP004"].
Proof. reflexivity. Qed.

Lemma sample_ids_fresh (w : W) k :
  Forall (fun i => parse_emp_id i = None /\ i <> id_of_index (random_index k))
    (Employee.id <$> fst (SAMPLE_EMPLOYEES @ w)).
Proof.
  rewrite SAMPLE_EMPLOYEES_ids. pose proof (id_of_index_length (random_index k)).
  repeat constructor; try reflexivity; intros E; rewrite <- E in *; cbn in *; lia.
Qed.

(** C27: the seed ids do not have the [EMPdddd] format of generated ids
    (they have three digits), so no generated id can equal a seed id. *)
Theorem sample_ids_not_generated (w : W) k :
  Forall (fun i => parse_emp_id i = None /\ i <> id_of_index (random_index k))
    (Employee.id <$> fst (SAMPLE_EMPLOYEES @ w)).
Proof. apply sample_ids_fresh. Qed.

(** C28: the store does not keep ids unique: when the draw repeats an
    id already present, adding a record creates a duplicate id. *)
Theorem addEmployee_collision data st (w : W) :
  id_of_index (random_index (hd 0%Z (w_rand w))) ∈ ids st ->
  ~ NoDup (ids (fst (addEmployee data st @ w))).
Proof.
  intros Hin. rewrite addEmployee_run. unfold ids. cbn [fst employees set_employees].
  rewrite fmap_app, NoDup_app. intros (_ & Hdis & _). apply (Hdis _ Hin). cbn. set_solver.
Qed.

(** C29: a new record's [createdAt] is the clock at the call and equals
    its [updatedAt] only when no time passes between the two clock reads. *)
Theorem addEmployee_timestamps data st (w : W) :
  exists e, employees (fst (addEmployee data st @ w)) = (employees st ++ [e])%list /\
    Employee.createdAt e = w_now w /\
    (Employee.createdAt e = Employee.updatedAt e <-> hd 0%Z (w_drift w) = 0%Z).
Proof. rewrite addEmployee_run. eexists. split; [reflexivity|]. cbn. split; [done| lia]. Qed.

Lemma id_is_new_employee data i c u : id_is i (new_employee data i c u) = true.
Proof. apply String.eqb_refl. Qed.

(** C14: spec 8's end-to-end scenario: on a first visit (nothing stored)
    the store is seeded with the four samples; adding a record makes five;
    deleting the new id leaves the four samples in their order. *)
Theorem scenario_seed_add_delete data (w : W) :
  ls_get EMPLOYEES (w_store w) = None ->
  let st0 := fst (app_start @ w) in
  let w0 := snd (app_start @ w) in
  let st1 := fst (addEmployee data st0 @ w0) in
  let w1 := snd (addEmployee data st0 @ w0) in
  let i := id_of_index (random_index (hd 0%Z (w_rand w0))) in
  total (stats st0) = 4 /\ total (stats st1) = 5 /\
  employees (fst (deleteEmployee i st1 @ w1)) = employees st0.
Proof.
  intros Hnone. cbn zeta. unfold app_start. rewrite !st_bind_run.
  pose proof (SAMPLE_EMPLOYEES_ids w) as Hsid.
  pose proof (SAMPLE_EMPLOYEES_store w) as Hstore.
  destruct (SAMPLE_EMPLOYEES @ w) as [sample w1]. cbn [fst snd] in *.
  assert (Hs : getItem employees_of_json EMPLOYEES [] (w_store w1) = []).
  { rewrite Hstore. unfold getItem. by rewrite Hnone. }
  rewrite mount_run, Hs. cbn [Nat.eqb length fst snd employees set_employees initial_state].
  set (w2 := with_store _ w1).
  pose proof (sample_ids_fresh w (hd 0%Z (w_rand w2))) as Hids.
  rewrite SAMPLE_EMPLOYEES_ids, <- Hsid in Hids.
  rewrite addEmployee_run. cbn [fst snd employees set_employees].
  assert (Hlen : length sample = 4) by (rewrite <- (length_fmap Employee.id), Hsid; done).
  split; [done|]. split; [cbn; rewrite length_app; cbn; lia|].
  rewrite deleteEmployee_employees. cbn [employees set_employees].
  rewrite filter_app_bool. cbn [List.filter]. rewrite id_is_new_employee. cbn [negb].
  rewrite app_nil_r. apply filter_all_true. intros e He.
  apply negb_true_iff, String.eqb_neq. intros E.
  apply Forall_fmap in Hids. eapply List.Forall_forall in Hids; [|exact He].
  destruct Hids as [_ Hne]. cbn in Hne. by apply Hne.
Qed.
End Theorems.
End EmployeeContext.

(** ** Concrete runs: a first visit with an empty browser storage *)

Module Demo.
Import EmployeeContext.

Definition demo_world : World (gmap StorageKey Json) :=
  mkWorld 1000 [0; 1; 0; 0; 2; 0; 0; 0; 5; 1; 1]%Z
    [123456789012345; 123456789012345]%Z empty_storage.

Definition demo_form : FormData.t := FormData.mk "Amit" Male "2000-01-01" "Delhi" "" true.

Definition demo_st0 := fst (app_start @ demo_world).
Definition demo_w0 := snd (app_start @ demo_world).
Definition demo_st1 := fst (addEmployee demo_form demo_st0 @ demo_w0).
Definition demo_w1 := snd (addEmployee demo_form demo_st0 @ demo_w0).

Lemma demo_world_wf : world_wf demo_world.
Proof. split; repeat constructor; unfold RANDOM_BITS; lia. Qed.

Lemma demo_stored_ok : stored_ok demo_world.
Proof. constructor. Qed.

Lemma demo_reachable0 : reachable demo_st0 demo_w0.
Proof. apply reachable_start; [apply demo_world_wf| apply demo_stored_ok]. Qed.

Lemma demo_reachable1 : reachable demo_st1 demo_w1.
Proof. apply (reachable_step _ _ (EvAdd demo_form)), demo_reachable0. Qed.

Lemma demo_w0_wf : world_wf demo_w0.
Proof. split; repeat constructor; unfold RANDOM_BITS; lia. Qed.

Example random_index_bounds_witness :
  (0 <= 123456789012345 < 2 ^ RANDOM_BITS)%Z /\ (0 <= random_index 123456789012345 <= 9999)%Z.
Proof. split; [unfold RANDOM_BITS; lia| apply random_index_bounds; unfold RANDOM_BITS; lia]. Defined.

Example id_of_index_roundtrip_witness :
  (0 <= 42 <= 9999)%Z /\ parse_emp_id (id_of_index 42) = Some 42%Z.
Proof. split; [lia| apply id_of_index_roundtrip; lia]. Defined.

Example updateEmployee_spec_witness :
  world_wf demo_w0 /\
  Forall2 (fun old new =>
    if id_is "EMP002" old then
      Employee.id new = Employee.id old /\
      Employee.createdAt new = Employee.createdAt old /\
      form_of new = demo_form /\
      (w_now demo_w0 <= Employee.updatedAt new
         <= w_now (snd (updateEmployee "EMP002" demo_form demo_st0 @ demo_w0)))%Z
    else new = old)
    (employees demo_st0) (employees (fst (updateEmployee "EMP002" demo_form demo_st0 @ demo_w0))).
Proof. split; [apply demo_w0_wf| apply updateEmployee_spec, demo_w0_wf]. Defined.

Example missing_id_noop_witness :
  getEmployeeById "EMP999" demo_st0 = None /\
  employees (fst (updateEmployee "EMP999" demo_form demo_st0 @ demo_w0)) = employees demo_st0 /\
  w_now (snd (updateEmployee "EMP999" demo_form demo_st0 @ demo_w0)) = w_now demo_w0 /\
  employees (fst (deleteEmployee "EMP999" demo_st0 @ demo_w0)) = employees demo_st0 /\
  employees (fst (toggleEmployeeStatus "EMP999" demo_st0 @ demo_w0)) = employees demo_st0 /\
  w_now (snd (toggleEmployeeStatus "EMP999" demo_st0 @ demo_w0)) = w_now demo_w0.
Proof.
  assert (H : getEmployeeById "EMP999" demo_st0 = None) by (vm_compute; reflexivity).
  split; [exact H| apply (missing_id_noop "EMP999" demo_form demo_st0 demo_w0 H)].
Defined.

Example reachable_write_through_witness :
  reachable demo_st1 demo_w1 /\
  ls_get EMPLOYEES (w_store demo_w1) ≫= employees_of_json = Some (employees demo_st1).
Proof. split; [apply demo_reachable1| apply reachable_write_through, demo_reachable1]. Defined.

Example reachable_timestamps_witness :
  reachable demo_st1 demo_w1 /\ Forall (ts_ok (w_now demo_w1)) (employees demo_st1).
Proof. split; [apply demo_reachable1| apply reachable_timestamps, demo_reachable1]. Defined.

Example remount_restores_witness :
  reachable demo_st1 demo_w1 /\
  employees (fst (mount [] initial_state @ demo_w1)) =
    match employees demo_st1 with [] => [] | _ => employees demo_st1 end.
Proof. split; [apply demo_reachable1| apply remount_restores, demo_reachable1]. Defined.

Example updateEmployee_updatedAt_mono_witness :
  reachable demo_st1 demo_w1 /\
  Forall2 (fun old new => (Employee.updatedAt old <= Employee.updatedAt new)%Z)
    (employees demo_st1) (employees (fst (updateEmployee "EMP001" demo_form demo_st1 @ demo_w1))).
Proof. split; [apply demo_reachable1| apply updateEmployee_updatedAt_mono, demo_reachable1]. Defined.

(** The demo world draws the same numerator twice: the second record
    added gets the id of the first. *)
Example addEmployee_collision_witness :
  id_of_index (random_index (hd 0%Z (w_rand demo_w1))) ∈ ids demo_st1 /\
  ~ NoDup (ids (fst (addEmployee demo_form demo_st1 @ demo_w1))).
Proof.
  assert (H : id_of_index (random_index (hd 0%Z (w_rand demo_w1))) ∈ ids demo_st1)
    by (vm_compute; apply list_elem_of_In; cbn; tauto).
  split; [exact H| apply (addEmployee_collision demo_form demo_st1 demo_w1 H)].
Defined.

Example scenario_seed_add_delete_witness :
  ls_get EMPLOYEES (w_store demo_world) = None /\
  let st0 := fst (app_start @ demo_world) in
  let w0 := snd (app_start @ demo_world) in
  let st1 := fst (addEmployee demo_form st0 @ w0) in
  let w1 := snd (addEmployee demo_form st0 @ w0) in
  let i := id_of_index (random_index (hd 0%Z (w_rand w0))) in
  total (stats st0) = 4 /\ total (stats st1) = 5 /\
  employees (fst (deleteEmployee i st1 @ w1)) = employees st0.
Proof.
  assert (H : ls_get EMPLOYEES (w_store demo_world) = None) by reflexivity.
  split; [exact H| apply (scenario_seed_add_delete demo_form demo_world H)].
Defined.

(** With a drift of 1 ms between the two reads, the new record's
    timestamps differ (spec 8 expects them equal). *)
Example addEmployee_timestamps_differ :
  exists e, employees (fst (addEmployee demo_form demo_st0 @ demo_w0)) =
              (employees demo_st0 ++ [e])%list /\
            Employee.createdAt e <> Employee.updatedAt e.
Proof. eexists. split; [reflexivity| vm_compute; discriminate]. Qed.
End Demo.
