(* ===== verification/StoreSpec.v ===== *)
(** * The employee store's contract and its refinement

    Spec 4.1 describes each operation of the employee store by its effect
    on the collection and the filters: [add] appends a record built from
    the form with a fresh [EMPdddd] id and timestamps of the call, [update]
    rewrites the form fields of the records with the id and restamps
    them, [delete] drops them, [toggle] flips [active] and restamps,
    [setFilters] merges the given criteria; every operation but
    [setFilters] persists the whole collection.  [spec_step] states this
    contract over an interval [t0, t1] of the clock, independently of how
    the handlers compute it, and [handle_refines] shows that every
    handler of [EmployeeContext] implements it. *)

From S2P Require Import Prelude JsString Json Storage World EmployeeTypes EmployeeStore.
From Stdlib Require Import String.
From stdpp Require Import strings gmap.

Module StoreSpec.
Import EmployeeContext.

(** A record of the collection becomes [new] under an update of the
    records with id [i] by [data] at some instant in [t0, t1]. *)
Definition updated (i : string) (data : FormData.t) (t0 t1 : Z) (old new : Employee.t) : Prop :=
  if id_is i old then
    Employee.id new = Employee.id old /\ Employee.createdAt new = Employee.createdAt old /\
    form_of new = data /\ (t0 <= Employee.updatedAt new <= t1)%Z
  else new = old.

(** ... and under a toggle: the same record with [active] flipped and a
    new [updatedAt]. *)
Definition toggled (i : string) (t0 t1 : Z) (old new : Employee.t) : Prop :=
  if id_is i old then
    exists u, (t0 <= u <= t1)%Z /\
      new = Employee.mk (Employee.id old) (Employee.name old) (Employee.gender old)
              (Employee.dob old) (Employee.state old) (Employee.image old)
              (negb (Employee.active old)) (Employee.createdAt old) u
  else new = old.

Inductive spec_step (t0 t1 : Z) : Event -> EState -> EState -> Prop :=
| spec_add data st e :
    form_of e = data ->
    (exists n, (0 <= n <= 9999)%Z /\ parse_emp_id (Employee.id e) = Some n) ->
    (t0 <= Employee.createdAt e <= Employee.updatedAt e /\ Employee.updatedAt e <= t1)%Z ->
    spec_step t0 t1 (EvAdd data) st (mkEState (employees st ++ [e])%list (filters st))
| spec_update i data st l :
    Forall2 (updated i data t0 t1) (employees st) l ->
    spec_step t0 t1 (EvUpdate i data) st (mkEState l (filters st))
| spec_delete i st :
    spec_step t0 t1 (EvDelete i) st
      (mkEState (List.filter (fun e => negb (id_is i e)) (employees st)) (filters st))
| spec_toggle i st l :
    Forall2 (toggled i t0 t1) (employees st) l ->
    spec_step t0 t1 (EvToggle i) st (mkEState l (filters st))
| spec_filters p st :
    spec_step t0 t1 (EvSetFilters p) st
      (mkEState (employees st)
         (Filters.mk (default (Filters.search (filters st)) (PartialFilters.search p))
            (default (Filters.gender (filters st)) (PartialFilters.gender p))
            (default (Filters.status (filters st)) (PartialFilters.status p)))).

(** Which operations persist the collection. *)
Definition persists (ev : Event) : bool :=
  match ev with EvSetFilters _ => false | _ => true end.

Section Refinement.
Context {S : Type} `{!LocalStorage S} `{!LocalStorageLaws S}.
Abbreviation W := (World S).

Lemma add_spec_record data st (w : W) :
  world_wf w ->
  let e := new_employee data (id_of_index (random_index (hd 0%Z (w_rand w))))
             (w_now w) (w_now w + hd 0%Z (w_drift w)) in
  form_of e = data /\
  (exists n, (0 <= n <= 9999)%Z /\ parse_emp_id (Employee.id e) = Some n) /\
  (w_now w <= Employee.createdAt e <= Employee.updatedAt e /\
   Employee.updatedAt e <= w_now (snd (addEmployee data st @ w)))%Z.
Proof.
  intros [Hd Hr]. cbn zeta. split; [by destruct data|]. split.
  - exists (random_index (hd 0%Z (w_rand w))).
    assert (Hb : (0 <= random_index (hd 0%Z (w_rand w)) <= 9999)%Z).
    { apply random_index_range, (Forall_hd_default (fun k => 0 <= k < 2 ^ RANDOM_BITS)%Z); [|done].
      split; [lia| apply Z.pow_pos_nonneg; unfold RANDOM_BITS; lia]. }
    split; [done| by apply id_of_index_parse].
  - rewrite addEmployee_run. cbn. drift_facts Hd. lia.
Qed.

(** The refinement, for use by the composition. *)
Lemma handle_refines_core ev st (w : W) :
  world_wf w ->
  let r := handle ev st @ w in
  spec_step (w_now w) (w_now (snd r)) ev st (fst r) /\
  (if persists ev then write_through (fst r) (snd r) else snd r = w).
Proof.
  intros Hw. cbn zeta. destruct ev as [data| i data| i| i| p]; cbn [handle persists].
  - destruct (add_spec_record data st w Hw) as (Hf & Hid & Hts).
    split; [rewrite addEmployee_run; by constructor|].
    unfold addEmployee. rewrite !st_bind_run. apply write_through_save.
  - split; [| apply write_through_bind_save].
    pose proof (updateEmployee_stamps i data st w Hw) as H.
    destruct (updateEmployee_run i data st w) as [E _]. rewrite E in H |- *.
    constructor. exact H.
  - split; [| apply write_through_save]. constructor.
  - split; [| apply write_through_bind_save].
    destruct (toggleEmployeeStatus_run i st w) as [-> ->].
    constructor. rewrite toggle_one_stamp.
    eapply Forall2_impl; [exact (mapM_stamp_spec _ _ (employees st) w Hw)|].
    intros old new. unfold stamped, toggled. destruct (id_is i old); [|done].
    intros [u [-> Hu]]. by exists u.
  - split; [constructor| done].
Qed.

(** C15: refinement of the employee store into its contract: every
    handler, run from a well-formed world, makes a [spec_step] between the
    instant of the call and the instant it returns, and every operation
    but [setFilters] leaves the stored snapshot equal to the new
    collection, while [setFilters] touches neither storage nor clock. *)
Theorem handle_refines ev st (w : W) :
  world_wf w ->
  let r := handle ev st @ w in
  spec_step (w_now w) (w_now (snd r)) ev st (fst r) /\
  (if persists ev then write_through (fst r) (snd r) else snd r = w).
Proof. exact (handle_refines_core ev st w). Qed.
End Refinement.
End StoreSpec.

Module StoreSpecDemo.
Import EmployeeContext StoreSpec EmployeeStore.Demo.

Example handle_refines_witness :
  world_wf demo_w0 /\
  (let r := handle (EvAdd demo_form) demo_st0 @ demo_w0 in
   spec_step (w_now demo_w0) (w_now (snd r)) (EvAdd demo_form) demo_st0 (fst r) /\
   (if persists (EvAdd demo_form) then write_through (fst r) (snd r) else snd r = demo_w0)).
Proof. split; [apply demo_w0_wf| exact (handle_refines (EvAdd demo_form) demo_st0 demo_w0 demo_w0_wf)]. Defined.
End StoreSpecDemo.
