(* ===== verification/AuthStore.v ===== *)
(** * The session store: context/AuthContext.tsx

    [AState] is the provider's React state ([isAuthenticated], [user],
    [isLoading]); [user] holds the parsed JSON value the code stores there
    ([null] is [JNull]).  [restore] is the mount effect, [login] and
    [logout] the two callbacks; they write the session through the storage
    adapter under the [AUTH] and [USER] keys.  [MOCK_CREDENTIALS] lives in
    [utils/constants], which is not under src/: its value is the one the
    spec (section 8) and the login form's hint give.

    The spec's state machine (4.2) is [Phase] with [phase_step]; [phase_of]
    abstracts a concrete state, and [auth_step_refines] shows that every
    concrete step is a step of the abstract machine or leaves the phase
    unchanged.  [auth_reachable] is the set of states a page can reach from
    its first render; its invariants are proved by rule induction. *)

From S2P Require Import Prelude Json Storage World.
From Stdlib Require Import String.
From stdpp Require Import strings gmap.

Open Scope string_scope.

Module AuthContext.

Record Credentials : Type := mkCredentials { username : string; password : string }.

(** [MOCK_CREDENTIALS] (utils/constants). *)
Definition MOCK_CREDENTIALS : Credentials := mkCredentials "admin" "admin123".

(** [{ username }], the [User] object the code builds and stores. *)
Definition user_json (u : string) : Json := JObj [("username", JStr u)].

Section Store.
Context {S : Type} `{!LocalStorage S}.
Abbreviation W := (World S).

Record AState : Type := mkAState {
  isAuthenticated : bool;
  user : Json;
  isLoading : bool;
  }.

(** [useState(false)], [useState(null)], [useState(true)]. *)
Definition initial_auth : AState := mkAState false JNull true.

(** The mount effect: restore the session when both stored values are
    truthy, then leave the loading state. *)
Definition restore (st : AState) : St W AState :=
  authStatus ← get_item Some AUTH (JBool false);
  savedUser ← get_item Some USER JNull;
  let st' := if js_truthy authStatus && js_truthy savedUser
             then mkAState true savedUser (isLoading st) else st in
  mret (mkAState (isAuthenticated st') (user st') false).

Definition login (u p : string) (st : AState) : St W (bool * AState) :=
  if String.eqb u (username MOCK_CREDENTIALS) && String.eqb p (password MOCK_CREDENTIALS)
  then
    let userData := user_json u in
    set_item JBool AUTH true;;
    set_item (fun j => j) USER userData;;
    mret (true, mkAState true userData (isLoading st))
  else mret (false, st).

Definition logout (st : AState) : St W AState :=
  remove_item AUTH;;
  remove_item USER;;
  mret (mkAState false JNull (isLoading st)).

(** ** Steps and reachable states *)

(** The events of a page: the mount effect runs once, while loading
    ([useEffect(..., [])]); [login] and [logout] may be called at any
    time. *)
Inductive AuthEvent : Type :=
  | ARestore
  | ALogin (u p : string)
  | ALogout.

Inductive auth_step : AuthEvent -> AState -> W -> AState -> W -> Prop :=
  | auth_step_restore st w :
    isLoading st = true ->
    auth_step ARestore st w (fst (restore st @ w)) (snd (restore st @ w))
  | auth_step_login u p st w :
    auth_step (ALogin u p) st w (snd (fst (login u p st @ w))) (snd (login u p st @ w))
  | auth_step_logout st w :
    auth_step ALogout st w (fst (logout st @ w)) (snd (logout st @ w)).

Inductive auth_reachable : AState -> W -> Prop :=
  | auth_reachable_start w : auth_reachable initial_auth w
  | auth_reachable_step ev st w st' w' :
    auth_reachable st w -> auth_step ev st w st' w' -> auth_reachable st' w'.

(** ** The abstract machine of spec 4.2 *)

Inductive Phase : Type := Loading | Unauthenticated | Authenticated.

Definition phase_of (st : AState) : Phase :=
  if isLoading st then Loading
  else if isAuthenticated st then Authenticated else Unauthenticated.

(** The transitions spec 4.2 allows, labelled by the event causing them. *)
Inductive phase_step : AuthEvent -> Phase -> Phase -> Prop :=
  | phase_restore_unauth : phase_step ARestore Loading Unauthenticated
  | phase_restore_auth : phase_step ARestore Loading Authenticated
  | phase_login u p : phase_step (ALogin u p) Unauthenticated Authenticated
  | phase_logout : phase_step ALogout Authenticated Unauthenticated.

(** The stored session, read the way [restore] reads it. *)
Definition stored_session (s : S) : bool :=
  js_truthy (getItem Some AUTH (JBool false) s) && js_truthy (getItem Some USER JNull s).
End Store.

Section Theorems.
Context {S : Type} `{!LocalStorage S}.
Abbreviation W := (World S).

Definition credentials_ok (u p : string) : bool :=
  String.eqb u (username MOCK_CREDENTIALS) && String.eqb p (password MOCK_CREDENTIALS).

Lemma login_run_ok u p st (w : W) :
  credentials_ok u p = true ->
  login u p st @ w =
    ((true, mkAState true (user_json u) (isLoading st)),
     with_store (setItem (fun j => j) USER (user_json u)) (with_store (setItem JBool AUTH true) w)).
Proof. unfold login, credentials_ok. intros ->. reflexivity. Qed.

(** C30: a login with any other pair than the configured one returns
    [false] and changes neither the state nor the world. *)
Theorem login_failure u p st (w : W) :
  (u, p) <> ("admin", "admin123") -> login u p st @ w = ((false, st), w).
Proof.
  intros Hne. unfold login. cbn [username password MOCK_CREDENTIALS].
  destruct (String.eqb_spec u "admin"), (String.eqb_spec p "admin123"); cbn; [|done..].
  subst. congruence.
Qed.

Lemma logout_run st (w : W) :
  logout st @ w =
    (mkAState false JNull (isLoading st),
     with_store (removeItem USER) (with_store (removeItem AUTH) w)).
Proof. reflexivity. Qed.

Lemma restore_run st (w : W) :
  restore st @ w =
    (if stored_session (w_store w)
     then mkAState true (getItem Some USER JNull (w_store w)) false
     else mkAState (isAuthenticated st) (user st) false, w).
Proof. unfold restore, stored_session. st_simpl. cbn. by destruct (_ && _). Qed.

Context `{!LocalStorageLaws S}.

Lemma stored_session_login u (w : W) :
  getItem Some USER JNull
    (w_store (with_store (setItem (fun j => j) USER (user_json u)) (with_store (setItem JBool AUTH true) w)))
    = user_json u /\
  stored_session
    (w_store (with_store (setItem (fun j => j) USER (user_json u)) (with_store (setItem JBool AUTH true) w)))
    = true.
Proof.
  unfold stored_session. cbn.
  rewrite !getItem_setItem_same, (getItem_setItem_ne _ _ USER AUTH) by discriminate.
  by rewrite getItem_setItem_same.
Qed.

Lemma stored_session_logout (w : W) :
  stored_session (w_store (with_store (removeItem USER) (with_store (removeItem AUTH) w))) = false.
Proof.
  unfold stored_session. cbn.
  rewrite (getItem_removeItem_ne _ USER AUTH), getItem_removeItem by discriminate. done.
Qed.

(** C31: after a successful [login], a restart that restores from the same
    storage is authenticated with the same identity, without calling
    [login] again. *)
Theorem login_then_restart st (w : W) :
  let r := login "admin" "admin123" st @ w in
  fst (fst r) = true /\
  fst (restore initial_auth @ (snd r)) = mkAState true (user_json "admin") false.
Proof.
  cbn zeta. rewrite login_run_ok by reflexivity. cbn [fst snd]. split; [done|].
  rewrite restore_run. destruct (stored_session_login "admin" w) as [-> ->]. done.
Qed.

(** After [logout] the state is unauthenticated and a restart does
    not restore a session. *)
Theorem logout_then_restart st (w : W) :
  let r := logout st @ w in
  isAuthenticated (fst r) = false /\ user (fst r) = JNull /\
  fst (restore initial_auth @ (snd r)) = mkAState false JNull false.
Proof. cbn zeta. rewrite logout_run. cbn [fst snd]. rewrite restore_run, stored_session_logout. done. Qed.

Definition auth_inv (st : AState) (w : W) : Prop :=
  isAuthenticated st = js_truthy (user st) /\
  (isAuthenticated st = true ->
     stored_session (w_store w) = true /\ user st = getItem Some USER JNull (w_store w)) /\
  (isLoading st = false -> isAuthenticated st = stored_session (w_store w)).

Lemma auth_inv_step ev st (w : W) st' (w' : W) :
  auth_inv st w -> auth_step ev st w st' w' -> auth_inv st' w'.
Proof.
  intros (Htr & Hauth & Hdone) Hstep. destruct Hstep as [st w Hload| u p st w| st w].
  - rewrite restore_run. cbn [fst snd].
    destruct (stored_session (w_store w)) eqn:Hs; cbn [isAuthenticated user isLoading].
    + split; [|split; [done| done]].
      unfold stored_session in Hs. apply andb_true_iff in Hs as [_ Hu]. symmetry. exact Hu.
    + destruct (isAuthenticated st) eqn:Ha.
      * destruct (Hauth eq_refl) as [Hs' _]. congruence.
      * split; [done|]. split; [done|]. done.
  - destruct (credentials_ok u p) eqn:Hok.
    + rewrite login_run_ok by done. cbn [fst snd isAuthenticated user isLoading].
      destruct (stored_session_login u w) as [Hg Hs]. split; [done|]. split; [done|]. done.
    + unfold login. unfold credentials_ok in Hok. rewrite Hok. cbn. done.
  - rewrite logout_run. cbn [fst snd isAuthenticated user isLoading].
    unfold auth_inv. rewrite stored_session_logout. split; [done|]. split; done.
Qed.

Lemma reachable_auth_inv st (w : W) : auth_reachable st w -> auth_inv st w.
Proof.
  induction 1 as [w|ev st w st' w' _ IH Hstep].
  - split; [done| split; done].
  - exact (auth_inv_step ev st w st' w' IH Hstep).
Qed.

(** C32: in every reachable state [isAuthenticated] holds exactly when
    [user] is a (truthy) identity, an authenticated state is backed by the
    stored session with the stored identity, and once loading is over the
    state is authenticated exactly when the stored session is. *)
Theorem auth_reachable_inv st (w : W) :
  auth_reachable st w ->
  isAuthenticated st = js_truthy (user st) /\
  (isAuthenticated st = true ->
     stored_session (w_store w) = true /\ user st = getItem Some USER JNull (w_store w)) /\
  (isLoading st = false -> isAuthenticated st = stored_session (w_store w)).
Proof. exact (reachable_auth_inv st w). Qed.

(** C33: refinement of the session store into the machine of spec 4.2:
    every concrete step either keeps the phase or is the abstract
    transition of the same event; in particular no step re-enters
    [Loading], and only the mount effect leaves it. *)
Theorem auth_step_refines ev st (w : W) st' (w' : W) :
  auth_step ev st w st' w' ->
  phase_of st' = phase_of st \/ phase_step ev (phase_of st) (phase_of st').
Proof.
  intros Hstep. destruct Hstep as [st w Hload| u p st w| st w].
  - right. unfold phase_of at 1. rewrite Hload. rewrite restore_run.
    destruct (stored_session (w_store w)); cbn; [constructor|].
    destruct (isAuthenticated st); constructor.
  - destruct (credentials_ok u p) eqn:Hok.
    + rewrite login_run_ok by done. cbn. unfold phase_of. cbn.
      destruct (isLoading st); [by left|].
      destruct (isAuthenticated st); [by left| right; constructor].
    + left. unfold login. unfold credentials_ok in Hok. by rewrite Hok.
  - rewrite logout_run. cbn. unfold phase_of. cbn.
    destruct (isLoading st); [by left|].
    destruct (isAuthenticated st); [right; constructor| by left].
Qed.
End Theorems.
End AuthContext.


(** ** Concrete runs: a first visit, a login, a logout *)

Module AuthDemo.
Import AuthContext.

Definition demo_world : World (gmap StorageKey Json) := mkWorld 0 [] [] empty_storage.

Definition st_loaded := fst (restore initial_auth @ demo_world).
Definition w_loaded := snd (restore initial_auth @ demo_world).
Definition st_in := snd (fst (login "admin" "admin123" st_loaded @ w_loaded)).
Definition w_in := snd (login "admin" "admin123" st_loaded @ w_loaded).

Lemma demo_step_restore :
  auth_step ARestore initial_auth demo_world st_loaded w_loaded.
Proof. by apply auth_step_restore. Qed.

Lemma demo_reachable_in : auth_reachable st_in w_in.
Proof.
  eapply auth_reachable_step; [| apply auth_step_login].
  eapply auth_reachable_step; [apply auth_reachable_start| apply demo_step_restore].
Qed.

Example login_failure_witness :
  ("admin", "wrong") <> ("admin", "admin123") /\
  login "admin" "wrong" st_loaded @ w_loaded = ((false, st_loaded), w_loaded).
Proof.
  assert (H : ("admin", "wrong") <> ("admin", "admin123")) by discriminate.
  split; [exact H| apply (login_failure "admin" "wrong" st_loaded w_loaded H)].
Defined.

Example auth_reachable_inv_witness :
  auth_reachable st_in w_in /\
  (isAuthenticated st_in = js_truthy (user st_in) /\
   (isAuthenticated st_in = true ->
      stored_session (w_store w_in) = true /\
      user st_in = getItem Some USER JNull (w_store w_in)) /\
   (isLoading st_in = false -> isAuthenticated st_in = stored_session (w_store w_in))).
Proof. split; [apply demo_reachable_in| apply auth_reachable_inv, demo_reachable_in]. Defined.

Example auth_step_refines_witness :
  auth_step ARestore initial_auth demo_world st_loaded w_loaded /\
  (phase_of st_loaded = phase_of initial_auth \/
   phase_step ARestore (phase_of initial_auth) (phase_of st_loaded)).
Proof. split; [apply demo_step_restore| apply (auth_step_refines _ _ _ _ _ demo_step_restore)]. Defined.
Example login_then_restart_witness :
  LocalStorageLaws (gmap StorageKey Json) /\
  (let r := login "admin" "admin123" st_loaded @ w_loaded in
   fst (fst r) = true /\
   fst (restore initial_auth @ (snd r)) = mkAState true (user_json "admin") false).
Proof. split; [apply _| apply login_then_restart]. Defined.

Example logout_then_restart_witness :
  LocalStorageLaws (gmap StorageKey Json) /\
  (let r := logout st_in @ w_in in
   isAuthenticated (fst r) = false /\ user (fst r) = JNull /\
   fst (restore initial_auth @ (snd r)) = mkAState false JNull false).
Proof. split; [apply _| apply logout_then_restart]. Defined.
End AuthDemo.
