(* ===== verification/AuthViews.v ===== *)
(** * The authentication views

    The components that read or drive the session store:
    [components/auth/PrivateRoute.tsx] and [pages/Login.tsx] (route
    guards), [components/auth/LoginForm.tsx] (the sign-in form and its
    asynchronous submit handler) and [components/layout/Header.tsx] (the
    identity label and the logout button).

    A component's render is modelled by what it decides: which element it
    returns ([Render]), and for the form the values its JSX binds
    ([LFView]); styling and icons are not modelled.  The submit handler is
    split at its [await]: [handleSubmit_start] runs when the form is
    submitted and captures the credentials of that render;
    [handleSubmit_finish] runs after the 800 ms timer with the form state
    of that later moment. *)

From S2P Require Import Prelude Json Storage World AuthStore.
From Stdlib Require Import String.
From stdpp Require Import strings gmap.

Open Scope string_scope.

Module AuthViews.
Import AuthContext.

(** What a route-level component returns. *)
Inductive Render : Type :=
| RPageLoader
| RNothing
| RNavigate (to : string)
| RChildren
| RLoginPage.

Section Views.
Context {S : Type} `{!LocalStorage S}.
Abbreviation W := (World S).

(** [PrivateRoute]: the loader while loading, a redirect to /login when
    not authenticated, the protected children otherwise. *)
Definition PrivateRoute (st : AState) : Render :=
  if isLoading st then RPageLoader
  else if negb (isAuthenticated st) then RNavigate "/login"
  else RChildren.

(** The [Login] page: nothing while loading, a redirect to /dashboard
    when authenticated, the sign-in page otherwise. *)
Definition LoginPage (st : AState) : Render :=
  if isLoading st then RNothing
  else if isAuthenticated st then RNavigate "/dashboard"
  else RLoginPage.

(** ** LoginForm *)

Record LFState : Type := mkLF {
  lf_username : string;
  lf_password : string;
  lf_showPassword : bool;
  lf_error : string;
  lf_isLoading : bool;
}.

Definition lf_initial : LFState := mkLF "" "" false "" false.

(** The inputs' [onChange] handlers and the show-password button. *)
Inductive LFInput : Type :=
| UsernameInput (s : string)
| PasswordInput (s : string)
| ToggleShowPassword.

Definition lf_input (ev : LFInput) (fs : LFState) : LFState :=
  match ev with
  | UsernameInput s => mkLF s (lf_password fs) (lf_showPassword fs) (lf_error fs) (lf_isLoading fs)
  | PasswordInput s => mkLF (lf_username fs) s (lf_showPassword fs) (lf_error fs) (lf_isLoading fs)
  | ToggleShowPassword =>
      mkLF (lf_username fs) (lf_password fs) (negb (lf_showPassword fs)) (lf_error fs) (lf_isLoading fs)
  end.

(** [handleSubmit] up to its [await]: clear the error, start loading; the
    closure holds this render's [username] and [password]. *)
Definition handleSubmit_start (fs : LFState) : LFState * (string * string) :=
  (mkLF (lf_username fs) (lf_password fs) (lf_showPassword fs) "" true,
   (lf_username fs, lf_password fs)).

(** After the timer: call [login] with the captured credentials; on
    success navigate to /dashboard, otherwise set the error; stop loading.
    The result is the form state, the session state and the navigation. *)
Definition handleSubmit_finish (creds : string * string) (fs : LFState) (ast : AState)
    : St W (LFState * AState * option string) :=
  r ← login (S:=S) (fst creds) (snd creds) ast;
  let success : bool := fst r in
  let err := if success then lf_error fs else "Invalid username or password" in
  mret (mkLF (lf_username fs) (lf_password fs) (lf_showPassword fs) err false,
        snd r, if success then Some "/dashboard" else None).

(** The browser's checks before [onSubmit]: the submit button is
    [disabled] while loading, and both inputs are [required]. *)
Definition lf_submit (fs : LFState) : option (LFState * (string * string)) :=
  if negb (lf_isLoading fs) && negb (String.eqb (lf_username fs) "") &&
     negb (String.eqb (lf_password fs) "")
  then Some (handleSubmit_start fs) else None.

(** The form with its pending submit (the credentials the suspended
    handler holds) and the session it drives. *)
Record LFProc : Type := mkLFP {
  lp_form : LFState;
  lp_pending : option (string * string);
  lp_auth : AState;
}.

Inductive LFEvent : Type :=
| LInput (i : LFInput)
| LSubmit
| LTimer.

(** One event: an input, a submit, or the 800 ms timer of the pending
    submit firing.  The result carries the navigation, if any. *)
Definition lf_proc_step (ev : LFEvent) (p : LFProc) : St W (LFProc * option string) :=
  match ev with
  | LInput i => mret (mkLFP (lf_input i (lp_form p)) (lp_pending p) (lp_auth p), None)
  | LSubmit =>
      match lf_submit (lp_form p) with
      | Some (fs', c) => mret (mkLFP fs' (Some c) (lp_auth p), None)
      | None => mret (p, None)
      end
  | LTimer =>
      match lp_pending p with
      | Some c =>
          r ← handleSubmit_finish c (lp_form p) (lp_auth p);
          mret (mkLFP (fst (fst r)) None (snd (fst r)), snd r)
      | None => mret (p, None)
      end
  end.

Inductive lf_reachable : LFProc -> W -> Prop :=
| lf_start ast (w : W) : lf_reachable (mkLFP lf_initial None ast) w
| lf_step ev p (w : W) :
    lf_reachable p w ->
    lf_reachable (fst (fst (lf_proc_step ev p @ w))) (snd (lf_proc_step ev p @ w)).

(** The submit button shows a spinner while loading. *)
Inductive ButtonLabel : Type := Spinner | SignIn.

(** What the form's JSX binds. *)
Record LFView : Type := mkLFView {
  v_username : string;
  v_password : string;
  v_passwordType : string;
  v_error : option string;
  v_buttonDisabled : bool;
  v_buttonLabel : ButtonLabel;
}.

Definition LoginForm_view (fs : LFState) : LFView :=
  mkLFView (lf_username fs) (lf_password fs)
    (if lf_showPassword fs then "text" else "password")
    (if String.eqb (lf_error fs) "" then None else Some (lf_error fs))
    (lf_isLoading fs)
    (if lf_isLoading fs then Spinner else SignIn).

(** ** Header *)

(** [user?.username || 'Admin']: the [username] field when it is truthy,
    the string 'Admin' otherwise (as the JSON value React renders). *)
Definition header_label (u : Json) : Json :=
  match json_get "username" u with
  | Some v => if js_truthy v then v else JStr "Admin"
  | None => JStr "Admin"
  end.

(** The header shows the label and calls [logout] on its button. *)
Definition Header_logout (st : AState) : St W AState := logout st.
End Views.

(** ** Theorems *)

Section Theorems.
Context {S : Type} `{!LocalStorage S}.
Abbreviation W := (World S).

Lemma PrivateRoute_phase st :
  PrivateRoute st = match phase_of st with
                    | Loading => RPageLoader
                    | Unauthenticated => RNavigate "/login"
                    | Authenticated => RChildren
                    end.
Proof. unfold PrivateRoute, phase_of. by destruct (isLoading st), (isAuthenticated st). Qed.

Lemma LoginPage_phase st :
  LoginPage st = match phase_of st with
                 | Loading => RNothing
                 | Unauthenticated => RLoginPage
                 | Authenticated => RNavigate "/dashboard"
                 end.
Proof. unfold LoginPage, phase_of. by destruct (isLoading st), (isAuthenticated st). Qed.

(** The two route guards depend only on the phase of spec 4.2: the
    protected page is shown exactly in [Authenticated], the sign-in page
    exactly in [Unauthenticated], and each redirects to the other. *)
Theorem route_guards_phase st :
  (PrivateRoute st = RChildren <-> phase_of st = Authenticated) /\
  (LoginPage st = RLoginPage <-> phase_of st = Unauthenticated) /\
  (PrivateRoute st = RNavigate "/login" <-> LoginPage st = RLoginPage) /\
  (LoginPage st = RNavigate "/dashboard" <-> PrivateRoute st = RChildren).
Proof.
  rewrite PrivateRoute_phase, LoginPage_phase.
  destruct (phase_of st); repeat split; congruence.
Qed.

Context `{!LocalStorageLaws S}.

(** C34: a submitted sign-in completes with the credentials captured at
    submit time: with the configured pair the session becomes
    authenticated as that user and the form navigates to /dashboard; with
    any other pair the session is unchanged, nothing navigates and the
    error message is shown; in both cases loading stops. *)
Theorem handleSubmit_spec fs0 fs ast (w : W) :
  let creds := snd (handleSubmit_start fs0) in
  let '(fs', ast', nav) := fst (handleSubmit_finish creds fs ast @ w) in
  lf_isLoading fs' = false /\
  (if credentials_ok (lf_username fs0) (lf_password fs0)
   then isAuthenticated ast' = true /\ user ast' = user_json (lf_username fs0) /\
        nav = Some "/dashboard"
   else ast' = ast /\ nav = None /\
        v_error (LoginForm_view fs') = Some "Invalid username or password").
Proof.
  cbn zeta. unfold handleSubmit_finish. st_simpl. cbn [handleSubmit_start fst snd].
  destruct (credentials_ok (lf_username fs0) (lf_password fs0)) eqn:Hok.
  - rewrite login_run_ok by done. cbn. done.
  - unfold login. unfold credentials_ok in Hok. rewrite Hok. cbn. done.
Qed.

Lemma header_label_user u : u <> "" -> header_label (user_json u) = JStr u.
Proof.
  intros Hu. unfold header_label. cbn.
  destruct (String.eqb_spec u ""); [done| reflexivity].
Qed.

(** In every reachable session state the header shows 'Admin' when
    signed out, and when signed in the label of the identity persisted
    under the USER key (the name a restart would restore). *)
Theorem header_label_reachable st (w : W) :
  auth_reachable st w ->
  (isAuthenticated st = false -> header_label (user st) = JStr "Admin") /\
  (isAuthenticated st = true ->
     header_label (user st) = header_label (getItem Some USER JNull (w_store w))).
Proof.
  intros H. destruct (reachable_auth_inv st w H) as [Htr [Hsess _]]. split.
  - intros Hf. rewrite Hf in Htr. unfold header_label.
    destruct (user st) as [| b | z | s | l | fs]; cbn in *; try done.
  - intros Ht. by destruct (Hsess Ht) as [_ ->].
Qed.
Lemma lf_input_loading i fs : lf_isLoading (lf_input i fs) = lf_isLoading fs.
Proof. by destruct i. Qed.

(** A step of the form keeps "a submit is pending exactly while the form
    is loading". *)
Lemma lf_pending_step ev p (w : W) :
  (is_Some (lp_pending p) <-> lf_isLoading (lp_form p) = true) ->
  (is_Some (lp_pending (fst (fst (lf_proc_step ev p @ w)))) <->
   lf_isLoading (lp_form (fst (fst (lf_proc_step ev p @ w)))) = true).
Proof.
  intros IH. destruct ev as [i| |]; cbn [lf_proc_step].
  - st_simpl. cbn. by rewrite lf_input_loading.
  - unfold lf_submit. destruct (lf_isLoading (lp_form p)) eqn:Hl; cbn [negb andb].
    + st_simpl. cbn. by rewrite Hl.
    + destruct (_ && _); st_simpl; cbn; [split; [done| by eexists]| by rewrite Hl].
  - destruct (lp_pending p) as [c|] eqn:Hp; st_simpl; [| cbn; by rewrite Hp].
    unfold handleSubmit_finish. st_simpl. cbn. split; [by intros [? ?]| done].
Qed.

Lemma lf_submit_loading fs : lf_isLoading fs = true -> lf_submit fs = None.
Proof. intros H. unfold lf_submit. by rewrite H. Qed.

(** At most one sign-in is in flight: in every reachable state of
    the form a submit is pending exactly while the form shows its loading
    state, and while one is pending a further submit is refused, so the
    timer of one submit never finds another's credentials. *)
Theorem lf_pending_loading p (w : W) :
  lf_reachable p w ->
  (is_Some (lp_pending p) <-> lf_isLoading (lp_form p) = true) /\
  (is_Some (lp_pending p) -> lf_submit (lp_form p) = None).
Proof.
  intros H. enough (Hinv : is_Some (lp_pending p) <-> lf_isLoading (lp_form p) = true)
    by (split; [done| intros Hp; apply lf_submit_loading; tauto]).
  induction H as [ast w| ev p w _ IH]; [cbn; split; [by intros [? ?]| done]|].
  by apply lf_pending_step.
Qed.
Lemma lf_submit_ok fs :
  lf_isLoading fs = false -> lf_username fs <> "" -> lf_password fs <> "" ->
  lf_submit fs = Some (handleSubmit_start fs).
Proof.
  intros Hl Hu Hp. unfold lf_submit.
  by rewrite Hl, (proj2 (String.eqb_neq _ _) Hu), (proj2 (String.eqb_neq _ _) Hp).
Qed.

Lemma lf_step_submit p fs' c (w : W) :
  lf_submit (lp_form p) = Some (fs', c) ->
  lf_proc_step LSubmit p @ w = ((mkLFP fs' (Some c) (lp_auth p), None), w).
Proof. intros H. cbn [lf_proc_step]. by rewrite H. Qed.

Lemma lf_step_timer p c (w : W) :
  lp_pending p = Some c ->
  lf_proc_step LTimer p @ w =
    (let r := handleSubmit_finish c (lp_form p) (lp_auth p) @ w in
     ((mkLFP (fst (fst (fst r))) None (snd (fst (fst r))), snd (fst r)), snd r)).
Proof. intros H. cbn [lf_proc_step]. rewrite H. by st_simpl. Qed.

(** The sign-in flow end to end: submitting a filled, idle form and
    letting the timer fire completes the submit; with the configured
    credentials the app navigates to /dashboard, where [PrivateRoute] now
    shows the protected page (and the login page would redirect back);
    otherwise the session is unchanged and the form shows the error. *)
Theorem sign_in_flow fs ast (w : W) :
  lf_isLoading fs = false -> lf_username fs <> "" -> lf_password fs <> "" ->
  isLoading ast = false ->
  let r1 := lf_proc_step LSubmit (mkLFP fs None ast) @ w in
  let r2 := lf_proc_step LTimer (fst (fst r1)) @ (snd r1) in
  let p2 := fst (fst r2) in
  lp_pending p2 = None /\ lf_isLoading (lp_form p2) = false /\
  (if credentials_ok (lf_username fs) (lf_password fs)
   then snd (fst r2) = Some "/dashboard" /\ PrivateRoute (lp_auth p2) = RChildren /\
        LoginPage (lp_auth p2) = RNavigate "/dashboard"
   else snd (fst r2) = None /\ lp_auth p2 = ast /\
        v_error (LoginForm_view (lp_form p2)) = Some "Invalid username or password").
Proof.
  intros Hl Hu Hp Ha. cbn zeta.
  rewrite (lf_step_submit (mkLFP fs None ast) _ _ w (lf_submit_ok fs Hl Hu Hp)). cbn [fst snd].
  rewrite (lf_step_timer _ (lf_username fs, lf_password fs)) by reflexivity.
  cbn [fst snd lp_form lp_auth lp_pending].
  unfold handleSubmit_finish. st_simpl. cbn [fst snd].
  destruct (credentials_ok (lf_username fs) (lf_password fs)) eqn:Hok.
  - rewrite login_run_ok by done. cbn. unfold PrivateRoute, LoginPage. cbn. by rewrite Ha.
  - unfold login. unfold credentials_ok in Hok. rewrite Hok. cbn. done.
Qed.
(** In every reachable session state the protected dashboard is
    shown exactly when loading is over and a session is persisted in
    storage (the AUTH flag and a truthy USER). *)
Theorem private_route_stored st (w : W) :
  auth_reachable st w ->
  (PrivateRoute st = RChildren <-> isLoading st = false /\ stored_session (w_store w) = true).
Proof.
  intros H. destruct (reachable_auth_inv st w H) as (_ & _ & Hload).
  unfold PrivateRoute. destruct (isLoading st); [split; [done| intros [? _]; done]|].
  rewrite <- (Hload eq_refl). destruct (isAuthenticated st); cbn; naive_solver.
Qed.
End Theorems.
End AuthViews.

Module AuthViewsDemo.
Import AuthContext AuthViews AuthStore.AuthDemo.

(** A form where "admin" / "wrong" was typed and submitted. *)
Definition demo_form : LFState := mkLF "admin" "wrong" false "" false.

Example handleSubmit_spec_witness :
  LocalStorageLaws (gmap StorageKey Json) /\
  (let creds := snd (handleSubmit_start demo_form) in
   let '(fs', ast', nav) :=
     fst (handleSubmit_finish creds (fst (handleSubmit_start demo_form)) st_loaded @ w_loaded) in
   lf_isLoading fs' = false /\
   (if credentials_ok (lf_username demo_form) (lf_password demo_form)
    then isAuthenticated ast' = true /\ user ast' = user_json (lf_username demo_form) /\
         nav = Some "/dashboard"
    else ast' = st_loaded /\ nav = None /\
         v_error (LoginForm_view fs') = Some "Invalid username or password")).
Proof. split; [apply _| apply handleSubmit_spec]. Defined.

Example header_label_reachable_witness :
  auth_reachable st_in w_in /\
  ((isAuthenticated st_in = false -> header_label (user st_in) = JStr "Admin") /\
   (isAuthenticated st_in = true ->
      header_label (user st_in) = header_label (getItem Some USER JNull (w_store w_in)))).
Proof. split; [apply demo_reachable_in| apply (header_label_reachable _ _ demo_reachable_in)]. Defined.
Definition lf_next (ev : LFEvent) (pw : LFProc * World (gmap StorageKey Json)) :=
  (fst (fst (lf_proc_step ev (fst pw) @ (snd pw))), snd (lf_proc_step ev (fst pw) @ (snd pw))).

(** The form after typing the configured credentials and submitting. *)
Definition demo_lp :=
  lf_next LSubmit (lf_next (LInput (PasswordInput "admin123"))
    (lf_next (LInput (UsernameInput "admin")) (mkLFP lf_initial None st_loaded, w_loaded))).

Lemma demo_lp_reachable : lf_reachable (fst demo_lp) (snd demo_lp).
Proof. unfold demo_lp, lf_next. cbn [fst snd]. do 3 apply lf_step. apply lf_start. Qed.

Example lf_pending_loading_witness :
  lf_reachable (fst demo_lp) (snd demo_lp) /\
  ((is_Some (lp_pending (fst demo_lp)) <-> lf_isLoading (lp_form (fst demo_lp)) = true) /\
   (is_Some (lp_pending (fst demo_lp)) -> lf_submit (lp_form (fst demo_lp)) = None)).
Proof. split; [apply demo_lp_reachable| apply (lf_pending_loading _ _ demo_lp_reachable)]. Defined.
Definition demo_filled : LFState := mkLF "admin" "admin123" false "" false.

Example sign_in_flow_witness :
  lf_isLoading demo_filled = false /\ lf_username demo_filled <> "" /\
  lf_password demo_filled <> "" /\ isLoading st_loaded = false /\
  (let r1 := lf_proc_step LSubmit (mkLFP demo_filled None st_loaded) @ w_loaded in
   let r2 := lf_proc_step LTimer (fst (fst r1)) @ (snd r1) in
   let p2 := fst (fst r2) in
   lp_pending p2 = None /\ lf_isLoading (lp_form p2) = false /\
   (if credentials_ok (lf_username demo_filled) (lf_password demo_filled)
    then snd (fst r2) = Some "/dashboard" /\ PrivateRoute (lp_auth p2) = RChildren /\
         LoginPage (lp_auth p2) = RNavigate "/dashboard"
    else snd (fst r2) = None /\ lp_auth p2 = st_loaded /\
         v_error (LoginForm_view (lp_form p2)) = Some "Invalid username or password")).
Proof.
  assert (H1 : lf_isLoading demo_filled = false) by reflexivity.
  assert (H2 : lf_username demo_filled <> "") by discriminate.
  assert (H3 : lf_password demo_filled <> "") by discriminate.
  assert (H4 : isLoading st_loaded = false) by (vm_compute; reflexivity).
  split; [exact H1| split; [exact H2| split; [exact H3| split; [exact H4|]]]].
  exact (sign_in_flow demo_filled st_loaded w_loaded H1 H2 H3 H4).
Defined.
Example private_route_stored_witness :
  auth_reachable st_in w_in /\
  (PrivateRoute st_in = RChildren <-> isLoading st_in = false /\ stored_session (w_store w_in) = true).
Proof. split; [apply demo_reachable_in| exact (private_route_stored _ _ demo_reachable_in)]. Defined.
End AuthViewsDemo.
