(* ===== verification/EmployeeViews.v ===== *)
(** * The employee views

    The components of the dashboard page that read or drive the employee
    store: [components/employees/Filters.tsx], [DashboardSummary.tsx],
    [EmployeeForm.tsx], [EmployeeRow.tsx], [EmployeeList.tsx] and the
    shared [components/common/Modal.tsx] and [ConfirmDialog.tsx].

    A render is modelled by the values its JSX binds (a view record) and
    by which callbacks its elements carry; a handler is a function of the
    render it belongs to (its closure) that updates the component's state
    and calls the store.  [EmployeeList]'s state and the store state are
    threaded together through [list_step]; [EmployeeForm]'s state lives
    while the add/edit modal is open, which is when React keeps it mounted.
    Dates of birth are shown through [format(new Date(dob), 'MMM dd,
    yyyy')], which is [Dates.format_dob] at the browser's time-zone offset
    [tz], a parameter of the sections; a date that does not parse makes
    date-fns throw, which is an explicit failure here.  [Modal]'s overlay
    catches pointer events only and traps no focus, so [list_enabled]
    keeps the page's and the rows' controls reachable while a modal is
    open. *)

From S2P Require Import Prelude JsString Dates Json Storage World EmployeeTypes EmployeeStore.
From Stdlib Require Import String.
From stdpp Require Import strings gmap.

Open Scope string_scope.

Module EmployeeViews.
Import EmployeeContext.

(** ** Modal and ConfirmDialog *)

(** The [size] prop and the width class it selects. *)
Inductive ModalSize : Type := sm | md | lg | xl.

Definition sizeClasses (s : ModalSize) : string :=
  match s with
  | sm => "max-w-sm"
  | md => "max-w-md"
  | lg => "max-w-lg"
  | xl => "max-w-2xl"
  end.

(** What an open modal shows: its panel's width class, the title and the
    children. *)
Record ModalView (A : Type) : Type := mkModalView {
  mv_width : string;
  mv_title : string;
  mv_body : A;
}.
Arguments mkModalView {A} _ _ _.
Arguments mv_width {A} _.
Arguments mv_title {A} _.
Arguments mv_body {A} _.

(** [Modal]: [null] when closed, otherwise the panel (size [md] by
    default) with the title and the children. *)
Definition Modal {A : Type} (isOpen : bool) (title : string) (children : A)
    (size : option ModalSize) : option (ModalView A) :=
  if isOpen then Some (mkModalView (sizeClasses (default md size)) title children) else None.

Inductive Variant : Type := Danger | Warning.

(** What [ConfirmDialog] renders inside its modal. *)
Record ConfirmBody : Type := mkConfirmBody {
  cb_message : string;
  cb_cancelText : string;
  cb_confirmText : string;
  cb_confirmVariant : string;
}.

Definition ConfirmDialog (isOpen : bool) (title message : string)
    (confirmText cancelText : option string) (variant : option Variant)
    : option (ModalView ConfirmBody) :=
  let variant := default Danger variant in
  Modal isOpen title
    (mkConfirmBody message (default "Cancel" cancelText) (default "Confirm" confirmText)
       (match variant with Danger => "destructive" | Warning => "default" end))
    (Some sm).

(** ** Filters *)

(** The inputs of the filter bar: the search box, the two selects (whose
    item values are 'all', the genders, or 'active' and 'inactive') and the
    Clear button. *)
Inductive FilterInput : Type :=
| SearchInput (s : string)
| GenderSelect (value : string)
| StatusSelect (value : string)
| ClearClick.

(** The argument each input passes to [setFilters]. *)
Definition filter_patch (ev : FilterInput) : PartialFilters.t :=
  match ev with
  | SearchInput s => PartialFilters.mk (Some s) None None
  | GenderSelect v =>
      PartialFilters.mk None (Some (if String.eqb v "all" then "" else v)) None
  | StatusSelect v =>
      PartialFilters.mk None None (Some (if String.eqb v "all" then "" else v))
  | ClearClick => PartialFilters.mk (Some "") (Some "") (Some "")
  end.

(** [filters.search || filters.gender || filters.status], as a truth value. *)
Definition hasFilters (f : Filters.t) : bool :=
  negb (String.eqb (Filters.search f) "") || negb (String.eqb (Filters.gender f) "") ||
  negb (String.eqb (Filters.status f) "").

Record FiltersView : Type := mkFiltersView {
  fv_search : string;
  fv_gender : string;
  fv_status : string;
  fv_clearShown : bool;
}.

Definition Filters_view (f : Filters.t) : FiltersView :=
  mkFiltersView (Filters.search f) (Filters.gender f) (Filters.status f) (hasFilters f).

(** ** DashboardSummary *)

(** The three cards, as (title, value). *)
Definition summary_cards (s : Stats) : list (string * nat) :=
  [("Total Employees", total s); ("Active Employees", active s);
   ("Inactive Employees", inactive s)].

Definition DashboardSummary (st : EState) : list (string * nat) :=
  summary_cards (stats st).

(** ** EmployeeForm *)

Record EFState : Type := mkEF {
  formData : FormData.t;
  imagePreview : string;
}.

Definition ef_initial : EFState := mkEF (FormData.mk "" Male "" "" "" true) "".

(** The effect on [[employee]]: load the record's fields and preview. *)
Definition ef_load (employee : option Employee.t) (fs : EFState) : EFState :=
  match employee with
  | Some e =>
      mkEF (FormData.mk (Employee.name e) (Employee.gender e) (Employee.dob e)
              (Employee.state e) (Employee.image e) (Employee.active e))
        (Employee.image e)
  | None => fs
  end.

(** Mounting: the initial state, then the effect's first run. *)
Definition EmployeeForm_mount (employee : option Employee.t) : EFState :=
  ef_load employee ef_initial.

(** The inputs' handlers; [ImageLoaded] is the [FileReader]'s [onload]
    with the data URL it read. *)
Inductive FormInput : Type :=
| NameInput (s : string)
| GenderRadio (g : Gender)
| DobInput (s : string)
| StateSelect (s : string)
| ActiveSwitch (b : bool)
| ImageLoaded (result : string).

Definition ef_input (ev : FormInput) (fs : EFState) : EFState :=
  let d := formData fs in
  let n := FormData.name d in
  let g := FormData.gender d in
  let b := FormData.dob d in
  let s := FormData.state d in
  let i := FormData.image d in
  let a := FormData.active d in
  match ev with
  | NameInput v => mkEF (FormData.mk v g b s i a) (imagePreview fs)
  | GenderRadio v => mkEF (FormData.mk n v b s i a) (imagePreview fs)
  | DobInput v => mkEF (FormData.mk n g v s i a) (imagePreview fs)
  | StateSelect v => mkEF (FormData.mk n g b v i a) (imagePreview fs)
  | ActiveSwitch v => mkEF (FormData.mk n g b s i v) (imagePreview fs)
  | ImageLoaded r => mkEF (FormData.mk n g b s r a) r
  end.

(** The browser's constraint validation before [onSubmit]: the [required]
    name, date and state are non-empty and the date is at most the [max]
    attribute (date strings compare as dates). *)
Definition ef_valid (max : string) (d : FormData.t) : bool :=
  negb (String.eqb (FormData.name d) "") && negb (String.eqb (FormData.dob d) "") &&
  String.leb (FormData.dob d) max && negb (String.eqb (FormData.state d) "").

(** [handleSubmit]: [onSubmit(formData)], when validation lets the submit
    event through. *)
Definition EmployeeForm_submit (max : string) (fs : EFState) : option FormData.t :=
  if ef_valid max (formData fs) then Some (formData fs) else None.

Record EFView : Type := mkEFView {
  ev_preview : option string;
  ev_name : string;
  ev_genderChecked : Gender;
  ev_dob : string;
  ev_dobMax : string;
  ev_state : string;
  ev_active : bool;
  ev_submitLabel : string;
}.

Definition EmployeeForm_view (employee : option Employee.t) (max : string) (fs : EFState)
    : EFView :=
  let d := formData fs in
  mkEFView (if String.eqb (imagePreview fs) "" then None else Some (imagePreview fs))
    (FormData.name d) (FormData.gender d) (FormData.dob d) max (FormData.state d)
    (FormData.active d)
    (match employee with Some _ => "Update Employee" | None => "Add Employee" end).

(** ** The print document of [handlePrintSingle] *)

Section Print.
(** The browser's time-zone offset, in minutes east of UTC. *)
Context (tz : Z).

Definition dq : string := String (Ascii.ascii_of_nat 34) EmptyString.

(** [name="value"] with the value spliced in as it is. *)
Definition attr (name value : string) : string := name ++ "=" ++ dq ++ value ++ dq.

Definition print_style : string :=
  "body { font-family: Arial, sans-serif; padding: 40px; } " ++
  ".header { text-align: center; margin-bottom: 30px; } " ++
  ".avatar { width: 100px; height: 100px; border-radius: 50%; object-fit: cover; margin: 0 auto 20px; display: block; } " ++
  ".details { max-width: 400px; margin: 0 auto; } " ++
  ".row { display: flex; justify-content: space-between; padding: 10px 0; border-bottom: 1px solid #eee; } " ++
  ".label { font-weight: bold; color: #666; } " ++
  ".status { padding: 4px 12px; border-radius: 20px; font-size: 12px; } " ++
  ".active { background: #dcfce7; color: #16a34a; } " ++
  ".inactive { background: #f3f4f6; color: #6b7280; }".

Definition print_row (label value : string) : string :=
  "<div " ++ attr "class" "row" ++ "><span " ++ attr "class" "label" ++ ">" ++ label ++
  "</span><span>" ++ value ++ "</span></div>".

(** The template literal written to the print window (its line breaks and
    indentation dropped); every field is interpolated without escaping.
    [None] when formatting the date of birth throws. *)
Definition print_single_html (e : Employee.t) : option string :=
  match Dates.format_dob tz (Employee.dob e) with
  | None => None
  | Some dob =>
      let name := Employee.name e in
      let act := Employee.active e in
      Some ("<html><head><title>Employee Details - " ++ name ++ "</title><style>" ++ print_style ++
        "</style></head><body><div " ++ attr "class" "header" ++ "><h1>Employee Details</h1></div>" ++
        (if String.eqb (Employee.image e) "" then ""
         else "<img " ++ attr "src" (Employee.image e) ++ " " ++ attr "class" "avatar" ++ " " ++
              attr "alt" name ++ ">") ++
        "<div " ++ attr "class" "details" ++ ">" ++
        print_row "ID:" (Employee.id e) ++
        print_row "Name:" name ++
        print_row "Gender:" (gender_toString (Employee.gender e)) ++
        print_row "Date of Birth:" dob ++
        print_row "State:" (Employee.state e) ++
        "<div " ++ attr "class" "row" ++ "><span " ++ attr "class" "label" ++ ">Status:</span><span " ++
        attr "class" ("status " ++ if act then "active" else "inactive") ++ ">" ++
        (if act then "Active" else "Inactive") ++ "</span></div>" ++
        "</div></body></html>")
  end.

(** ** EmployeeRow *)

Record RowView : Type := mkRowView {
  rv_id : string;
  rv_image : option (string * string);
  rv_name : string;
  rv_gender : string;
  rv_dob : string;
  rv_state : string;
  rv_checked : bool;
  rv_statusLabel : string;
}.

(** The row's cells; [None] when formatting the date of birth throws,
    which aborts the list's render. *)
Definition EmployeeRow_view (e : Employee.t) : option RowView :=
  match Dates.format_dob tz (Employee.dob e) with
  | None => None
  | Some dob =>
      Some (mkRowView (Employee.id e)
        (if String.eqb (Employee.image e) "" then None else Some (Employee.image e, Employee.name e))
        (Employee.name e) (gender_toString (Employee.gender e)) dob
        (Employee.state e) (Employee.active e) (if Employee.active e then "Active" else "Inactive"))
  end.
End Print.

(** ** EmployeeList *)

Record ListUI : Type := mkUI {
  isFormOpen : bool;
  editingEmployee : option Employee.t;
  deletingEmployee : option Employee.t;
}.

Definition ui_initial : ListUI := mkUI false None None.

(** The page: the list's state, the mounted form's state (meaningful while
    the add/edit modal is open) and the employee store. *)
Record Page : Type := mkPage {
  ui : ListUI;
  form : EFState;
  store : EState;
}.

(** The callbacks an [EmployeeRow] calls. [RowPrint opened] records
    whether [window.open] returned a window. *)
Inductive RowAction : Type :=
| RowEdit
| RowDelete
| RowToggle
| RowPrint (opened : bool).

Inductive ListEvent : Type :=
| AddClick
| Row (e : Employee.t) (a : RowAction)
| FormInputEv (fi : FormInput)
| FormSubmit (max : string)
| FormClose
| DialogConfirm
| DialogClose
| PrintAllClick.

(** What an event sends outside the page. *)
Inductive Output : Type :=
| NoOutput
| PrintWindow (html : string)
| PrintFailed
| PrintPage.

Definition handleAddClick (u : ListUI) : ListUI := mkUI true None (deletingEmployee u).

Definition handleEditClick (e : Employee.t) (u : ListUI) : ListUI :=
  mkUI true (Some e) (deletingEmployee u).

Definition handleDeleteClick (e : Employee.t) (u : ListUI) : ListUI :=
  mkUI (isFormOpen u) (editingEmployee u) (Some e).

(** The modal's [onClose] and the form's [onCancel]. *)
Definition closeForm (u : ListUI) : ListUI := mkUI false None (deletingEmployee u).

(** The dialog's [onClose]. *)
Definition closeDialog (u : ListUI) : ListUI := mkUI (isFormOpen u) (editingEmployee u) None.

Section List.
Context {S : Type} `{!LocalStorage S}.
Abbreviation W := (World S).
Context (tz : Z).

Definition handleFormSubmit (data : FormData.t) (u : ListUI) (st : EState)
    : St W (ListUI * EState) :=
  st' ← (match editingEmployee u with
         | Some e => updateEmployee (Employee.id e) data st
         | None => addEmployee data st
         end);
  mret (closeForm u, st').

Definition handleDeleteConfirm (p : ListUI * EState) : St W (ListUI * EState) :=
  match deletingEmployee (fst p) with
  | Some e => st' ← deleteEmployee (Employee.id e) (snd p); mret (closeDialog (fst p), st')
  | None => mret p
  end.

(** [ConfirmDialog]'s [handleConfirm]: [onConfirm()] then [onClose()]. *)
Definition handleConfirm (onConfirm onClose : ListUI * EState -> St W (ListUI * EState))
    (p : ListUI * EState) : St W (ListUI * EState) :=
  p' ← onConfirm p; onClose p'.

(** [PrintFailed]: the window opened, then the template threw. *)
Definition handlePrintSingle (e : Employee.t) (opened : bool) : Output :=
  if opened then
    match print_single_html tz e with Some h => PrintWindow h | None => PrintFailed end
  else NoOutput.

Definition page_of (u : ListUI) (fs : EFState) (st : EState) : Page := mkPage u fs st.

Definition list_step (ev : ListEvent) (p : Page) : St W (Page * Output) :=
  let u := ui p in
  let st := store p in
  match ev with
  | AddClick => mret (page_of (handleAddClick u) (EmployeeForm_mount None) st, NoOutput)
  | Row e RowEdit => mret (page_of (handleEditClick e u) (EmployeeForm_mount (Some e)) st, NoOutput)
  | Row e RowDelete => mret (page_of (handleDeleteClick e u) (form p) st, NoOutput)
  | Row e RowToggle =>
      st' ← toggleEmployeeStatus (Employee.id e) st; mret (page_of u (form p) st', NoOutput)
  | Row e (RowPrint opened) => mret (p, handlePrintSingle e opened)
  | FormInputEv fi => mret (page_of u (ef_input fi (form p)) st, NoOutput)
  | FormSubmit max =>
      match EmployeeForm_submit max (form p) with
      | Some data => r ← handleFormSubmit data u st; mret (page_of (fst r) (form p) (snd r), NoOutput)
      | None => mret (p, NoOutput)
      end
  | FormClose => mret (page_of (closeForm u) (form p) st, NoOutput)
  | DialogConfirm =>
      r ← handleConfirm handleDeleteConfirm (fun q => mret (closeDialog (fst q), snd q)) (u, st);
      mret (page_of (fst r) (form p) (snd r), NoOutput)
  | DialogClose => mret (page_of (closeDialog u) (form p) st, NoOutput)
  | PrintAllClick => mret (p, PrintPage)
  end.

(** Which events the render offers.  The page's own buttons and the
    rows' controls (one row per filtered employee) are always reachable:
    an open modal's overlay only catches pointer events, and [Modal] has
    no focus trap, so Tab and Enter or Space still reach and activate the
    controls behind it.  The form's controls exist while the add/edit
    modal is open, the dialog's buttons while the confirmation is open. *)
Definition list_enabled (ev : ListEvent) (p : Page) : bool :=
  let u := ui p in
  match ev with
  | AddClick | PrintAllClick => true
  | Row e _ => bool_decide (e ∈ filteredEmployees (store p))
  | FormInputEv _ | FormSubmit _ | FormClose => isFormOpen u
  | DialogConfirm | DialogClose => bool_decide (is_Some (deletingEmployee u))
  end.

(** The list's header, body and modals. *)
Record ListView : Type := mkListView {
  lv_count : string;
  lv_empty : bool;
  lv_rows : option (list RowView);
  lv_form : option (ModalView EFView);
  lv_dialog : option (ModalView ConfirmBody);
}.

Definition delete_message (d : option Employee.t) : string :=
  "Are you sure you want to delete " ++
  (match d with Some e => Employee.name e | None => "undefined" end) ++
  "? This action cannot be undone.".

Definition EmployeeList_view (max : string) (p : Page) : ListView :=
  let l := filteredEmployees (store p) in
  let u := ui p in
  mkListView
    (JsString.Number_toString (Z.of_nat (length l)) ++ " " ++
     (if Nat.eqb (length l) 1 then "record" else "records") ++ " found")
    (Nat.eqb (length l) 0)
    (mapM (EmployeeRow_view tz) l)
    (Modal (isFormOpen u)
       (match editingEmployee u with Some _ => "Edit Employee" | None => "Add New Employee" end)
       (EmployeeForm_view (editingEmployee u) max (form p)) (Some lg))
    (ConfirmDialog (bool_decide (is_Some (deletingEmployee u))) "Delete Employee"
       (delete_message (deletingEmployee u)) (Some "Delete") None (Some Danger)).

(** A sequence of page events, in order. *)
Fixpoint list_run (evs : list ListEvent) (p : Page) : St W Page :=
  match evs with
  | [] => mret p
  | ev :: evs' => r ← list_step ev p; list_run evs' (fst r)
  end.

(** Pages reachable from the dashboard's mount through enabled events. *)
Inductive page_reachable : Page -> W -> Prop :=
| page_start st (w : W) : reachable st w -> page_reachable (mkPage ui_initial ef_initial st) w
| page_step ev p (w : W) :
    page_reachable p w -> list_enabled ev p = true ->
    page_reachable (fst (fst (list_step ev p @ w))) (snd (list_step ev p @ w)).
End List.

(** ** Theorems *)

Section Theorems.
Context {S : Type} `{!LocalStorage S}.
Abbreviation W := (World S).
Context (tz : Z).

(** The list page's own invariant: a record is being edited only while
    the form modal is open.  Nothing more holds of the two modals: both
    can be open at once, and the record a modal acts on can be deleted
    behind it. *)
Definition page_inv (p : Page) : Prop :=
  forall e, editingEmployee (ui p) = Some e -> isFormOpen (ui p) = true.

Lemma list_step_store ev p (w : W) :
  let r := list_step tz ev p @ w in
  (store (fst (fst r)) = store p /\ snd r = w) \/
  exists sev, store (fst (fst r)) = fst (handle sev (store p) @ w) /\
              snd r = snd (handle sev (store p) @ w).
Proof.
  destruct ev as [| e [| | | o] | fi | max | | | | ]; unfold list_step; st_simpl;
    try (left; done).
  - right. exists (EvToggle (Employee.id e)). by st_simpl.
  - destruct (EmployeeForm_submit max (form p)) as [data|]; st_simpl; [| by left].
    unfold handleFormSubmit. right. st_simpl.
    destruct (editingEmployee (ui p)) as [e|]; st_simpl.
    + by exists (EvUpdate (Employee.id e) data).
    + by exists (EvAdd data).
  - unfold handleConfirm, handleDeleteConfirm. st_simpl. cbn [fst snd].
    destruct (deletingEmployee (ui p)) as [e|]; st_simpl; [| by left].
    right. by exists (EvDelete (Employee.id e)).
Qed.

Lemma elem_of_filteredEmployees e st : e ∈ filteredEmployees st -> e ∈ employees st.
Proof. unfold filteredEmployees. rewrite !list_elem_of_In, filter_In. tauto. Qed.

Lemma closed_form_no_edit (fo : bool) (ed : option Employee.t) (P : Employee.t -> Prop) :
  (forall e, ed = Some e -> fo = true /\ P e) -> fo = false -> ed = None.
Proof. destruct ed as [e|]; [intros H ->; by destruct (H e eq_refl)| done]. Qed.

Lemma page_inv_step ev p (w : W) :
  page_inv p -> page_inv (fst (fst (list_step tz ev p @ w))).
Proof.
  destruct p as [[fo ed de] fs st]. unfold page_inv. cbn [ui isFormOpen editingEmployee].
  intros Hed. destruct ev as [| e [| | | o] | fi | max | | | | ];
    unfold list_step, page_of; st_simpl; cbn [ui fst snd]; try exact Hed.
  all: cbn [form store].
  all: try (destruct (EmployeeForm_submit max fs) as [data|]; st_simpl;
            [unfold handleFormSubmit; st_simpl|]).
  all: try (unfold handleConfirm, handleDeleteConfirm; st_simpl; destruct de; st_simpl).
  all: cbn; first [by intros ? [=] | done | exact Hed].
Qed.

(** The list page refines the employee store and keeps its own
    invariant: in every page reachable through the events its render
    offers, the store state is a reachable state of the store (every page
    event is a store event or leaves store and world alone), and a record
    is being edited only while the form is open. *)
Theorem page_reachable_inv p (w : W) :
  page_reachable tz p w -> reachable (store p) w /\ page_inv p.
Proof.
  induction 1 as [st w Hr| ev p w _ [IHr IHi] Hen].
  - split; [done|]. unfold page_inv; cbn. by intros ? [=].
  - split; [| by apply page_inv_step].
    destruct (list_step_store ev p w) as [[-> ->]| [sev [-> ->]]]; [done|].
    by apply reachable_step.
Qed.

Lemma NoDup_ids_eq (l : list Employee.t) x y :
  NoDup (Employee.id <$> l) -> x ∈ l -> y ∈ l -> Employee.id x = Employee.id y -> x = y.
Proof.
  induction l as [|a l IH]; intros Hnd Hx Hy Hid; [by apply elem_of_nil in Hx|].
  rewrite fmap_cons in Hnd. apply NoDup_cons in Hnd as [Hnot Hnd].
  apply elem_of_cons in Hx as [->|Hx], Hy as [->|Hy]; try done.
  - destruct Hnot. rewrite Hid. by apply list_elem_of_fmap_2.
  - destruct Hnot. rewrite <- Hid. by apply list_elem_of_fmap_2.
  - by apply IH.
Qed.

Lemma untimed_update_same e (l : list Employee.t) (w : W) :
  Forall (fun x => id_is (Employee.id e) x = true -> x = e) l ->
  untimed <$> fst (mapM (update_one (Employee.id e) (form_of e)) l @ w) = untimed <$> l.
Proof.
  intros Hl. apply Forall2_fmap_eq. rewrite update_one_stamp.
  pose proof (mapM_stamp_shape (id_is (Employee.id e))
                (fun emp u => apply_form emp (form_of e) u) l w) as H.
  set (l' := fst (mapM _ l @ w)) in *. clearbody l'.
  induction H as [|x y l l' [u ->] _ IH]; [constructor|].
  inversion Hl as [|? ? Hx Hl']; subst. constructor; [|by apply IH].
  destruct (id_is (Employee.id e) x) eqn:Hid; [|done].
  rewrite (Hx eq_refl). by destruct e.
Qed.

Lemma mount_form_of e : formData (EmployeeForm_mount (Some e)) = form_of e.
Proof. reflexivity. Qed.

(** Opening a shown record for editing and submitting the form
    without touching it rewrites nothing but [updatedAt], and leaves the
    page with both modals closed (when the stored ids are distinct). *)
Theorem edit_submit_unchanged p e max (w : W) :
  list_enabled (Row e RowEdit) p = true -> deletingEmployee (ui p) = None ->
  NoDup (ids (store p)) ->
  ef_valid max (form_of e) = true ->
  let r1 := list_step tz (Row e RowEdit) p @ w in
  let r2 := list_step tz (FormSubmit max) (fst (fst r1)) @ (snd r1) in
  untimed <$> employees (store (fst (fst r2))) = untimed <$> employees (store p) /\
  ui (fst (fst r2)) = ui_initial.
Proof.
  intros Hin Hde Hnd Hvalid. cbn zeta.
  unfold list_enabled in Hin. apply bool_decide_eq_true, elem_of_filteredEmployees in Hin.
  unfold list_step at 1. st_simpl. unfold list_step, page_of. st_simpl.
  cbn [ui form store fst snd].
  unfold EmployeeForm_submit.
  rewrite mount_form_of, Hvalid. st_simpl.
  unfold handleFormSubmit. st_simpl. cbn [ui form store fst snd editingEmployee handleEditClick].
  destruct (updateEmployee_run (Employee.id e) (form_of e) (store p) w) as [-> _].
  split; [| by unfold closeForm, handleEditClick; cbn; rewrite Hde].
  cbn. apply untimed_update_same, List.Forall_forall.
  intros x Hx Hid. apply list_elem_of_In in Hx.
  apply (NoDup_ids_eq _ _ _ Hnd Hx Hin). by apply String.eqb_eq.
Qed.

(** The delete flow.  Clicking a shown row's delete button opens the
    confirmation naming that record; confirming removes exactly the
    records with its id (in order) and closes the dialog; cancelling
    leaves the store, the world and the list's state as they were. *)
Theorem delete_flow p e max (w : W) :
  list_enabled (Row e RowDelete) p = true -> deletingEmployee (ui p) = None ->
  let p1 := fst (fst (list_step tz (Row e RowDelete) p @ w)) in
  let w1 := snd (list_step tz (Row e RowDelete) p @ w) in
  lv_dialog (EmployeeList_view tz max p1) =
    Some (mkModalView "max-w-sm" "Delete Employee"
            (mkConfirmBody (delete_message (Some e)) "Cancel" "Delete" "destructive")) /\
  (let r := list_step tz DialogConfirm p1 @ w1 in
   employees (store (fst (fst r))) =
     List.filter (fun x => negb (id_is (Employee.id e) x)) (employees (store p)) /\
   ui (fst (fst r)) = ui p) /\
  (let r := list_step tz DialogClose p1 @ w1 in
   fst (fst r) = p /\ snd r = w).
Proof.
  intros _ Hde. cbn zeta.
  destruct p as [[fo ed de] fs st]. cbn in Hde. subst de.
  unfold list_step, page_of. st_simpl. cbn [ui form store fst snd handleDeleteClick].
  split; [| split].
  - unfold EmployeeList_view, ConfirmDialog, Modal. cbn -[delete_message].
    done.
  - unfold handleConfirm, handleDeleteConfirm. st_simpl. cbn. done.
  - done.
Qed.

(** C36 (a defect): [Modal] traps no focus, so while the edit form is open the
    keyboard still reaches the Delete button of the row behind it.
    Editing a shown record, then deleting that record from behind the
    form, opens both modals at once; confirming removes the record and
    leaves the form open on it; submitting the form then changes nothing
    ([updateEmployee] finds no record with the id) and closes it: the
    user's edit is silently discarded. *)
Theorem edit_delete_behind_modal p e max (w : W) :
  list_enabled (Row e RowEdit) p = true -> ui p = ui_initial ->
  ef_valid max (form_of e) = true ->
  let r1 := list_step tz (Row e RowEdit) p @ w in
  let r2 := list_step tz (Row e RowDelete) (fst (fst r1)) @ (snd r1) in
  let r3 := list_step tz DialogConfirm (fst (fst r2)) @ (snd r2) in
  let r4 := list_step tz (FormSubmit max) (fst (fst r3)) @ (snd r3) in
  list_enabled (Row e RowDelete) (fst (fst r1)) = true /\
  isFormOpen (ui (fst (fst r2))) = true /\ deletingEmployee (ui (fst (fst r2))) = Some e /\
  list_enabled (FormSubmit max) (fst (fst r3)) = true /\
  editingEmployee (ui (fst (fst r3))) = Some e /\
  List.filter (id_is (Employee.id e)) (employees (store (fst (fst r3)))) = [] /\
  employees (store (fst (fst r4))) = employees (store (fst (fst r3))) /\
  ui (fst (fst r4)) = ui_initial.
Proof.
  intros Hen Hui Hvalid. cbn zeta.
  destruct p as [u fs st]. cbn in Hui. subst u.
  set (F := EmployeeForm_mount (Some e)).
  set (st3 := fst (deleteEmployee (Employee.id e) st @ w)).
  set (w3 := snd (deleteEmployee (Employee.id e) st @ w)).
  assert (E1 : list_step tz (Row e RowEdit) (mkPage ui_initial fs st) @ w =
                 ((mkPage (mkUI true (Some e) None) F st, NoOutput), w))
    by (unfold list_step; by st_simpl).
  assert (E2 : list_step tz (Row e RowDelete) (mkPage (mkUI true (Some e) None) F st) @ w =
                 ((mkPage (mkUI true (Some e) (Some e)) F st, NoOutput), w))
    by (unfold list_step; by st_simpl).
  assert (E3 : list_step tz DialogConfirm (mkPage (mkUI true (Some e) (Some e)) F st) @ w =
                 ((mkPage (mkUI true (Some e) None) F st3, NoOutput), w3)).
  { unfold list_step, handleConfirm, handleDeleteConfirm, page_of. st_simpl. cbn. by st_simpl. }
  assert (E4 : list_step tz (FormSubmit max) (mkPage (mkUI true (Some e) None) F st3) @ w3 =
                 ((mkPage ui_initial F (fst (updateEmployee (Employee.id e) (form_of e) st3 @ w3)),
                   NoOutput), snd (updateEmployee (Employee.id e) (form_of e) st3 @ w3))).
  { unfold list_step, page_of. cbn [ui form store]. unfold EmployeeForm_submit, F.
    rewrite mount_form_of, Hvalid. unfold handleFormSubmit. by st_simpl. }
  rewrite E1; cbn [fst snd]. rewrite E2; cbn [fst snd]. rewrite E3; cbn [fst snd].
  rewrite E4; cbn [fst snd ui store isFormOpen editingEmployee deletingEmployee].
  split; [exact Hen| split; [done| split; [done| split; [done| split; [done|]]]]].
  split; [unfold st3; rewrite deleteEmployee_employees; apply filter_id_deleted|].
  split; [apply updateEmployee_after_delete| done].
Qed.


Ltac skip_to_prefix P :=
  repeat (lazymatch goal with
          | |- JsString.includes (P ++ _) _ = true => fail
          | _ => apply JsString.includes_app_l
          end).

Lemma print_row_includes label value :
  JsString.includes (print_row label value) ("<span>" ++ value ++ "</span>") = true.
Proof.
  unfold print_row. skip_to_prefix "</span><span>".
  change ("</span><span>" ++ ?x) with ("</span>" ++ ("<span>" ++ x)).
  apply JsString.includes_app_l.
  change ("</span></div>") with ("</span>" ++ "</div>").
  rewrite <- !JsString.string_append_assoc.
  apply JsString.includes_app_r, JsString.includes_refl.
Qed.

(** C35 (a defect): printing a record opens a window and writes into it
    a document that holds the record's name verbatim between span tags:
    every field is spliced into the HTML without escaping, so a name
    containing markup is interpreted as markup by the print window. *)
Theorem print_single_unescaped p e (w : W) :
  list_step tz (Row e (RowPrint true)) p @ w =
    ((p, match print_single_html tz e with Some h => PrintWindow h | None => PrintFailed end), w) /\
  (forall h, print_single_html tz e = Some h ->
   JsString.includes h ("<span>" ++ Employee.name e ++ "</span>") = true).
Proof.
  split; [done|]. intros h.
  unfold print_single_html. destruct (Dates.format_dob tz (Employee.dob e)); [| done].
  intros [= <-]. cbn zeta.
  skip_to_prefix (print_row "Name:" (Employee.name e)).
  apply JsString.includes_app_r, print_row_includes.
Qed.

Lemma hasFilters_false f : hasFilters f = false <-> f = initial_filters.
Proof.
  destruct f as [se ge sta]. unfold hasFilters, initial_filters. cbn.
  rewrite !orb_false_iff, !negb_false_iff, !String.eqb_eq.
  split; [intros [[-> ->] ->]; done| intros [= -> -> ->]; done].
Qed.

(** The Clear button is shown exactly when some filter differs from
    the initial ones; clicking it resets all three filters, after which
    every stored employee is listed, the summary is unchanged and the
    button is hidden. *)
Theorem filters_clear st (w : W) :
  (fv_clearShown (Filters_view (filters st)) = true <-> filters st <> initial_filters) /\
  let st' := fst (handle (EvSetFilters (filter_patch ClearClick)) st @ w) in
  filteredEmployees st' = employees st /\
  DashboardSummary st' = DashboardSummary st /\
  fv_clearShown (Filters_view (filters st')) = false.
Proof.
  split.
  - cbn. rewrite <- hasFilters_false. destruct (hasFilters (filters st)); naive_solver.
  - cbn zeta. split; [rewrite filteredEmployees_initial; reflexivity| split; [done|]].
    by apply hasFilters_false.
Qed.

(** Adding through the page: with no confirmation open, clicking Add,
    typing a name, a date and a state and submitting adds, through the
    store's [addEmployee], a record with that data and the form's
    defaults (gender Male, no photo, active), and closes the modal. *)
Theorem add_through_page p n d sname max (w : W) :
  deletingEmployee (ui p) = None ->
  n <> "" -> d <> "" -> sname <> "" -> String.leb d max = true ->
  let r := list_run tz
             [AddClick; FormInputEv (NameInput n); FormInputEv (DobInput d);
              FormInputEv (StateSelect sname); FormSubmit max] p @ w in
  store (fst r) = fst (addEmployee (FormData.mk n Male d sname "" true) (store p) @ w) /\
  snd r = snd (addEmployee (FormData.mk n Male d sname "" true) (store p) @ w) /\
  ui (fst r) = ui_initial.
Proof.
  intros Hde Hn Hd Hs Hle. cbn zeta.
  cbn [list_run]. unfold list_step, page_of. st_simpl.
  cbn [ui form store fst snd handleAddClick ef_input EmployeeForm_mount ef_load ef_initial
       formData imagePreview FormData.name FormData.gender FormData.dob FormData.state
       FormData.image FormData.active].
  unfold EmployeeForm_submit, ef_valid. cbn [formData FormData.name FormData.dob FormData.state].
  rewrite Hle. rewrite (proj2 (String.eqb_neq _ _) Hn), (proj2 (String.eqb_neq _ _) Hd),
    (proj2 (String.eqb_neq _ _) Hs). cbn [negb andb].
  unfold handleFormSubmit. st_simpl.
  cbn [store ui fst snd handleAddClick closeForm editingEmployee deletingEmployee].
  split; [done| split; [done|]]. unfold closeForm, handleAddClick; cbn. by rewrite Hde.
Qed.
Lemma gender_toString_inj g1 g2 : gender_toString g1 = gender_toString g2 <-> g1 = g2.
Proof. split; [destruct g1, g2; cbn; congruence| by intros ->]. Qed.

(** Choosing a gender in the filter bar lists exactly the stored
    employees of that gender that match the current search and status;
    choosing 'All Genders' drops the gender condition. *)
Theorem gender_select_lists st g (w : W) e :
  let f := filters st in
  let sel v := filteredEmployees (fst (handle (EvSetFilters (filter_patch (GenderSelect v))) st @ w)) in
  (In e (sel (gender_toString g)) <->
     In e (employees st) /\ Employee.gender e = g /\ matchesSearch f e = true /\
     matchesStatus f e = true) /\
  (In e (sel "all") <->
     In e (employees st) /\ matchesSearch f e = true /\ matchesStatus f e = true).
Proof.
  cbn zeta. unfold filteredEmployees. cbn. rewrite !filter_In.
  unfold matchesFilters, matchesGender. cbn.
  split.
  - assert (Hall : String.eqb (gender_toString g) "all" = false) by (destruct g; reflexivity).
    rewrite Hall. cbn.
    assert (Hne : String.eqb (gender_toString g) "" = false) by (destruct g; reflexivity).
    rewrite Hne. cbn. rewrite !andb_true_iff, String.eqb_eq, gender_toString_inj. tauto.
  - cbn. rewrite !andb_true_iff. tauto.
Qed.
End Theorems.

(** C38 (a defect): the form's [max] is the UTC calendar date of the
    render instant ([Dates.dob_max]).  East of UTC ([0 < tz < 1440]),
    from local midnight until UTC midnight the local date is the day after
    the UTC one, and a form whose date of birth is today's local date is
    rejected by the form's validation. *)
Theorem dob_max_rejects_today tz now (data : FormData.t) :
  (0 < tz < 1440)%Z -> (Dates.MS_PER_DAY - tz * 60000 <= now mod Dates.MS_PER_DAY)%Z ->
  (0 <= fst (fst (Dates.civil_from_days (now / Dates.MS_PER_DAY))) < 9999)%Z ->
  FormData.dob data = Dates.iso_date (Dates.local_date tz now) ->
  Dates.local_date tz now = Dates.civil_from_days (now / Dates.MS_PER_DAY + 1) /\
  ef_valid (Dates.dob_max now) data = false.
Proof.
  intros Htz Hnow Hy Hdob. pose proof (Dates.local_date_ahead tz now Htz Hnow) as Hl.
  split; [exact Hl|]. unfold ef_valid, String.leb, Dates.dob_max.
  rewrite Hdob, Hl, Dates.iso_date_next_gt by exact Hy. by rewrite andb_false_r, andb_false_l.
Qed.
End EmployeeViews.

Module ViewsDemo.
Import EmployeeContext EmployeeViews EmployeeStore.Demo.

(** India Standard Time. *)
Definition demo_tz : Z := 330.
Definition demo_max : string := "2030-01-01".
Definition demo_emp : Employee.t :=
  List.nth 1 (employees demo_st0) (Employee.mk "" "" Male "" "" "" true 0 0).
Definition demo_page0 : Page := mkPage ui_initial ef_initial demo_st0.
Definition demo_page1 := fst (fst (list_step demo_tz (Row demo_emp RowDelete) demo_page0 @ demo_w0)).
Definition demo_w1 := snd (list_step demo_tz (Row demo_emp RowDelete) demo_page0 @ demo_w0).

Lemma demo_page0_reachable : page_reachable demo_tz demo_page0 demo_w0.
Proof. apply page_start, demo_reachable0. Qed.

Lemma demo_delete_enabled : list_enabled (Row demo_emp RowDelete) demo_page0 = true.
Proof. vm_compute. reflexivity. Qed.

Lemma demo_page1_reachable : page_reachable demo_tz demo_page1 demo_w1.
Proof. apply page_step; [apply demo_page0_reachable| apply demo_delete_enabled]. Qed.

Example page_reachable_inv_witness :
  page_reachable demo_tz demo_page1 demo_w1 /\
  (reachable (store demo_page1) demo_w1 /\ page_inv demo_page1).
Proof. split; [apply demo_page1_reachable| apply (page_reachable_inv demo_tz), demo_page1_reachable]. Defined.

Example edit_submit_unchanged_witness :
  list_enabled (Row demo_emp RowEdit) demo_page0 = true /\
  deletingEmployee (ui demo_page0) = None /\
  NoDup (ids (store demo_page0)) /\
  ef_valid demo_max (form_of demo_emp) = true /\
  (let r1 := list_step demo_tz (Row demo_emp RowEdit) demo_page0 @ demo_w0 in
   let r2 := list_step demo_tz (FormSubmit demo_max) (fst (fst r1)) @ (snd r1) in
   untimed <$> employees (store (fst (fst r2))) = untimed <$> employees (store demo_page0) /\
   ui (fst (fst r2)) = ui_initial).
Proof.
  assert (H1 : list_enabled (Row demo_emp RowEdit) demo_page0 = true)
    by (vm_compute; reflexivity).
  assert (H2 : NoDup (ids (store demo_page0)))
    by (apply (bool_decide_unpack _); vm_compute; reflexivity).
  assert (H3 : ef_valid demo_max (form_of demo_emp) = true) by (vm_compute; reflexivity).
  split; [exact H1| split; [reflexivity| split; [exact H2| split; [exact H3|]]]].
  apply (edit_submit_unchanged demo_tz demo_page0 demo_emp demo_max demo_w0 H1 eq_refl H2 H3).
Defined.

Example delete_flow_witness :
  list_enabled (Row demo_emp RowDelete) demo_page0 = true /\
  deletingEmployee (ui demo_page0) = None /\
  (lv_dialog (EmployeeList_view demo_tz demo_max demo_page1) =
     Some (mkModalView "max-w-sm" "Delete Employee"
             (mkConfirmBody (delete_message (Some demo_emp)) "Cancel" "Delete" "destructive")) /\
   (let r := list_step demo_tz DialogConfirm demo_page1 @ demo_w1 in
    employees (store (fst (fst r))) =
      List.filter (fun x => negb (id_is (Employee.id demo_emp) x)) (employees (store demo_page0)) /\
    ui (fst (fst r)) = ui demo_page0) /\
   (let r := list_step demo_tz DialogClose demo_page1 @ demo_w1 in
    fst (fst r) = demo_page0 /\ snd r = demo_w0)).
Proof.
  split; [apply demo_delete_enabled| split; [reflexivity|]].
  apply (delete_flow demo_tz demo_page0 demo_emp demo_max demo_w0 demo_delete_enabled eq_refl).
Defined.

Example edit_delete_behind_modal_witness :
  list_enabled (Row demo_emp RowEdit) demo_page0 = true /\ ui demo_page0 = ui_initial /\
  ef_valid demo_max (form_of demo_emp) = true /\
  (let r1 := list_step demo_tz (Row demo_emp RowEdit) demo_page0 @ demo_w0 in
   let r2 := list_step demo_tz (Row demo_emp RowDelete) (fst (fst r1)) @ (snd r1) in
   let r3 := list_step demo_tz DialogConfirm (fst (fst r2)) @ (snd r2) in
   let r4 := list_step demo_tz (FormSubmit demo_max) (fst (fst r3)) @ (snd r3) in
   list_enabled (Row demo_emp RowDelete) (fst (fst r1)) = true /\
   isFormOpen (ui (fst (fst r2))) = true /\ deletingEmployee (ui (fst (fst r2))) = Some demo_emp /\
   list_enabled (FormSubmit demo_max) (fst (fst r3)) = true /\
   editingEmployee (ui (fst (fst r3))) = Some demo_emp /\
   List.filter (id_is (Employee.id demo_emp)) (employees (store (fst (fst r3)))) = [] /\
   employees (store (fst (fst r4))) = employees (store (fst (fst r3))) /\
   ui (fst (fst r4)) = ui_initial).
Proof.
  assert (H1 : list_enabled (Row demo_emp RowEdit) demo_page0 = true) by (vm_compute; reflexivity).
  assert (H3 : ef_valid demo_max (form_of demo_emp) = true) by (vm_compute; reflexivity).
  split; [exact H1| split; [reflexivity| split; [exact H3|]]].
  exact (edit_delete_behind_modal demo_tz demo_page0 demo_emp demo_max demo_w0 H1 eq_refl H3).
Defined.

Example add_through_page_witness :
  deletingEmployee (ui demo_page0) = None /\
  "Ravi" <> "" /\ "1990-05-17" <> "" /\ "Kerala" <> "" /\
  String.leb "1990-05-17" demo_max = true /\
  (let r := list_run demo_tz
             [AddClick; FormInputEv (NameInput "Ravi"); FormInputEv (DobInput "1990-05-17");
              FormInputEv (StateSelect "Kerala"); FormSubmit demo_max] demo_page0 @ demo_w0 in
   store (fst r) =
     fst (addEmployee (FormData.mk "Ravi" Male "1990-05-17" "Kerala" "" true) (store demo_page0) @ demo_w0) /\
   snd r = snd (addEmployee (FormData.mk "Ravi" Male "1990-05-17" "Kerala" "" true) (store demo_page0) @ demo_w0) /\
   ui (fst r) = ui_initial).
Proof.
  assert (H0 : deletingEmployee (ui demo_page0) = None) by reflexivity.
  assert (H1 : "Ravi" <> "") by discriminate.
  assert (H2 : "1990-05-17" <> "") by discriminate.
  assert (H3 : "Kerala" <> "") by discriminate.
  assert (H4 : String.leb "1990-05-17" demo_max = true) by reflexivity.
  split; [exact H0| split; [exact H1| split; [exact H2| split; [exact H3| split; [exact H4|]]]]].
  exact (add_through_page demo_tz demo_page0 _ _ _ _ demo_w0 H0 H1 H2 H3 H4).
Defined.
(** A name holding markup reaches the print document as markup. *)
Definition demo_xss : Employee.t :=
  Employee.mk "EMP0042" "<img src=x onerror=alert(1)>" Female "1990-05-17" "Goa" "" true 0 0.

Example print_demo_xss :
  exists h, print_single_html demo_tz demo_xss = Some h /\
            JsString.includes h "<img src=x onerror=alert(1)>" = true.
Proof. eexists. split; [vm_compute; reflexivity| vm_compute; reflexivity]. Qed.
(** 00:10 on 2023-11-14 in India ([tz = 330]) is 18:40 UTC on 2023-11-13:
    a date of birth of 2023-11-14 is refused. *)
Definition demo_today : FormData.t := FormData.mk "Ravi" Male "2023-11-14" "Kerala" "" true.

Example dob_max_rejects_today_witness :
  (0 < 330 < 1440)%Z /\
  (Dates.MS_PER_DAY - 330 * 60000 <= 1699900800000 mod Dates.MS_PER_DAY)%Z /\
  (0 <= fst (fst (Dates.civil_from_days (1699900800000 / Dates.MS_PER_DAY))) < 9999)%Z /\
  FormData.dob demo_today = Dates.iso_date (Dates.local_date 330 1699900800000) /\
  Dates.local_date 330 1699900800000 = Dates.civil_from_days (1699900800000 / Dates.MS_PER_DAY + 1) /\
  ef_valid (Dates.dob_max 1699900800000) demo_today = false.
Proof.
  assert (H1 : (0 < 330 < 1440)%Z) by lia.
  assert (H2 : (Dates.MS_PER_DAY - 330 * 60000 <= 1699900800000 mod Dates.MS_PER_DAY)%Z)
    by (vm_compute; discriminate).
  assert (H3 : (0 <= fst (fst (Dates.civil_from_days (1699900800000 / Dates.MS_PER_DAY))) < 9999)%Z)
    by (replace (Dates.civil_from_days (1699900800000 / Dates.MS_PER_DAY)) with (2023, 11, 13)%Z
          by (vm_compute; reflexivity); cbn; lia).
  assert (H4 : FormData.dob demo_today = Dates.iso_date (Dates.local_date 330 1699900800000))
    by (vm_compute; reflexivity).
  exact (conj H1 (conj H2 (conj H3 (conj H4
    (dob_max_rejects_today 330 1699900800000 demo_today H1 H2 H3 H4))))).
Defined.

End ViewsDemo.
