(* ===== verification/Dashboard.v ===== *)
(** * The dashboard page, its loader and the context interfaces

    - [components/common/Loader.tsx]: the spinner's class list and the
      full-page loader [PrivateRoute] shows while the session loads
      (Module [Loader]);
    - the two context interfaces, [EmployeeContextType] and
      [AuthContextType], as records of the values and operations a
      provider hands to its consumers, the laws the employee provider's
      value satisfies, and the [useEmployees] / [useAuth] hooks that throw
      outside their provider (Module [Contexts]);
    - [pages/Dashboard.tsx]: an [EmployeeProvider] around the header, the
      summary cards, the filter bar and the list, each reading its context
      through the hooks (Module [Dashboard]). *)

From S2P Require Import Prelude JsString Dates Json Storage World EmployeeTypes EmployeeStore AuthStore AuthViews EmployeeViews.
From Stdlib Require Import String.
From stdpp Require Import strings gmap.

Open Scope string_scope.

(** ** Loader *)

Module Loader.

Inductive Size : Type := sm | md | lg.

Definition sizeClasses (s : Size) : string :=
  match s with
  | sm => "w-4 h-4 border-2"
  | md => "w-8 h-8 border-2"
  | lg => "w-12 h-12 border-3"
  end.

(** The class names [Loader] passes to [cn]; an absent [className] is
    dropped, as [cn] drops [undefined]. *)
Definition Loader (size : option Size) (className : option string) : list string :=
  ["rounded-full border-primary/30 border-t-primary animate-spin"; sizeClasses (default md size)]
  ++ option_list className.

Record PageLoaderView : Type := mkPageLoader {
  spinner : list string;
  caption : string;
}.

Definition PageLoader : PageLoaderView := mkPageLoader (Loader (Some lg) None) "Loading...".

End Loader.

(** ** The context interfaces *)

Module Contexts.
Import EmployeeContext AuthContext.

Section Contexts.
Context {S : Type} `{!LocalStorage S}.
Abbreviation W := (World S).

(** [EmployeeContextType]: what [useEmployees()] returns.  The
    operations are the provider's callbacks of one render: they act on
    the collection of that render. *)
Record EmployeeContextType : Type := mkEmployeeContextType {
  c_employees : list Employee.t;
  c_filteredEmployees : list Employee.t;
  c_filters : Filters.t;
  c_addEmployee : FormData.t -> St W EState;
  c_updateEmployee : string -> FormData.t -> St W EState;
  c_deleteEmployee : string -> St W EState;
  c_toggleEmployeeStatus : string -> St W EState;
  c_setFilters : PartialFilters.t -> EState;
  c_getEmployeeById : string -> option Employee.t;
  c_stats : Stats;
}.

(** The [value] [EmployeeProvider] renders with. *)
Definition EmployeeProvider_value (st : EState) : EmployeeContextType :=
  mkEmployeeContextType (employees st) (filteredEmployees st) (filters st)
    (fun data => addEmployee data st) (fun i data => updateEmployee i data st)
    (fun i => deleteEmployee i st) (fun i => toggleEmployeeStatus i st)
    (fun p => setFilters p st) (fun i => getEmployeeById i st) (stats st).

(** What a consumer may rely on: the derived values are computed from
    the collection and the filters of the same render, and the filter and
    lookup operations act on them. *)
Record EmployeeContextLaws (c : EmployeeContextType) : Prop := {
  law_filtered : c_filteredEmployees c = List.filter (matchesFilters (c_filters c)) (c_employees c);
  law_total : total (c_stats c) = length (c_employees c);
  law_active : active (c_stats c) = length (List.filter Employee.active (c_employees c));
  law_inactive :
    inactive (c_stats c) = length (List.filter (fun e => negb (Employee.active e)) (c_employees c));
  law_setFilters p :
    c_setFilters c p = mkEState (c_employees c) (merge_filters (c_filters c) p);
  law_getById i : c_getEmployeeById c i = List.find (id_is i) (c_employees c);
}.

(** [AuthContextType]: what [useAuth()] returns. *)
Record AuthContextType : Type := mkAuthContextType {
  a_isAuthenticated : bool;
  a_user : Json;
  a_login : string -> string -> St W (bool * AState);
  a_logout : St W AState;
  a_isLoading : bool;
}.

Definition AuthProvider_value (st : AState) : AuthContextType :=
  mkAuthContextType (isAuthenticated st) (user st) (fun u p => login u p st) (logout st)
    (isLoading st).

(** The hooks: the nearest provider's value, or the error they throw
    when there is none. *)
Definition useEmployees (ctx : option EmployeeContextType) : EmployeeContextType + string :=
  match ctx with
  | Some c => inl c
  | None => inr "useEmployees must be used within an EmployeeProvider"
  end.

Definition useAuth (ctx : option AuthContextType) : AuthContextType + string :=
  match ctx with
  | Some c => inl c
  | None => inr "useAuth must be used within an AuthProvider"
  end.
End Contexts.
End Contexts.

(** ** The dashboard page *)

Module Dashboard.
Import EmployeeContext AuthContext AuthViews EmployeeViews Contexts.

(** What the page shows: the header's identity label, the three summary
    cards, the filter bar and the list. *)
Record DashboardView : Type := mkDashboardView {
  dv_user : Json;
  dv_summary : list (string * nat);
  dv_filters : FiltersView;
  dv_list : ListView;
}.

Section Dashboard.
Context {S : Type} `{!LocalStorage S}.
Abbreviation W := (World S).
Context (tz : Z).

(** [Dashboard] under the session provider [auth]: the [Header] reads
    [useAuth], [DashboardSummary] and [Filters] read [useEmployees] in the
    page's own [EmployeeProvider], whose state is the page's store. *)
Definition Dashboard_view (max : string) (auth : option (AuthContextType (S:=S))) (p : Page)
    : DashboardView + string :=
  match useAuth auth, useEmployees (Some (EmployeeProvider_value (store p))) with
  | inl a, inl c =>
      inl (mkDashboardView (header_label (a_user a)) (summary_cards (c_stats c))
             (Filters_view (c_filters c)) (EmployeeList_view tz max p))
  | inr err, _ => inr err
  | _, inr err => inr err
  end.
End Dashboard.

(** ** Theorems *)

Section Theorems.
Context {S : Type} `{!LocalStorage S}.
Abbreviation W := (World S).
Context (tz : Z).

(** The employee provider's value meets the interface's laws. *)
Lemma EmployeeProvider_laws (st : EState) : EmployeeContextLaws (EmployeeProvider_value (S:=S) st).
Proof. split; intros; reflexivity. Qed.

(** What a consumer of any lawful context shows: the cards count the
    whole collection, inactive as the rest of it, and the filtered list
    is never longer. *)
Lemma summary_laws (c : EmployeeContextType (S:=S)) :
  EmployeeContextLaws c ->
  (summary_cards (c_stats c) =
    [("Total Employees", length (c_employees c));
     ("Active Employees", length (List.filter Employee.active (c_employees c)));
     ("Inactive Employees",
      (length (c_employees c) - length (List.filter Employee.active (c_employees c)))%nat)]) /\
  (length (c_filteredEmployees c) <= length (c_employees c))%nat.
Proof.
  intros Hc. split.
  - unfold summary_cards. rewrite (law_total _ Hc), (law_active _ Hc), (law_inactive _ Hc).
    pose proof (filter_length_partition Employee.active (c_employees c)) as Hp.
    replace (length (List.filter (fun e => negb (Employee.active e)) (c_employees c)))
      with (length (c_employees c) - length (List.filter Employee.active (c_employees c)))%nat
      by lia.
    reflexivity.
  - rewrite (law_filtered _ Hc). apply sublist_length, filter_sublist.
Qed.

(** The dashboard page renders inside the session provider and
    throws the hook's error outside it; rendered, its header shows the
    session's identity label and its cards count the whole stored
    collection (inactive being the rest of it), whatever the filters,
    while the list shows the filtered records, never more than the
    total. *)
Theorem dashboard_view_spec max (auth : option (AuthContextType (S:=S))) p :
  let l := employees (store p) in
  let k := length (List.filter Employee.active l) in
  match Dashboard_view tz max auth p with
  | inr err => auth = None /\ err = "useAuth must be used within an AuthProvider"
  | inl v =>
      exists a, auth = Some a /\ dv_user v = header_label (a_user a) /\
        dv_summary v = [("Total Employees", length l); ("Active Employees", k);
                        ("Inactive Employees", (length l - k)%nat)] /\
        (length (filteredEmployees (store p)) <= length l)%nat
  end.
Proof.
  cbn zeta. destruct auth as [a|]; [| done]. cbn.
  destruct (summary_laws _ (EmployeeProvider_laws (store p))) as [Hs Hl].
  exists a. split; [done| split; [done| split; [exact Hs| exact Hl]]].
Qed.
End Theorems.
End Dashboard.
