(* ===== verification/App.v ===== *)
(** * The application: providers, routes and mounted components

    The application as a whole (Module [App]): the session provider,
    the route at the current path ([/login] shows [Login], [/dashboard]
    shows [PrivateRoute] around [Dashboard]), the components mounted
    there with their state, and the events the user and the timers
    deliver to them.  A render pass ([settle]) follows the redirects the
    route guards return and mounts or unmounts components: leaving
    [/dashboard] drops the employee provider with its filters and the
    list's dialogs, and entering it mounts a fresh provider that reloads
    the stored collection.  [App_view] renders the state: the loader of
    [Loader], the sign-in form, or the page of [Dashboard].

    The route table of [App.tsx] is not part of the sources; it is taken
    as the spec describes the two pages and as the components navigate
    ([Navigate to="/login"], [navigate('/dashboard')]). *)

From S2P Require Import Prelude JsString Dates Json Storage World EmployeeTypes EmployeeStore StoreSpec AuthStore AuthViews EmployeeViews Dashboard.
From Stdlib Require Import String.
From stdpp Require Import strings gmap.

Open Scope string_scope.

(** ** The application *)

Module App.
Import EmployeeContext StoreSpec AuthContext AuthViews EmployeeViews Contexts.

(** The two routes the components navigate between. *)
Inductive Path : Type := PLogin | PDashboard.

Definition path_eqb (q1 q2 : Path) : bool :=
  match q1, q2 with
  | PLogin, PLogin | PDashboard, PDashboard => true
  | _, _ => false
  end.

Definition path_of_string (s : string) : option Path :=
  if String.eqb s "/login" then Some PLogin
  else if String.eqb s "/dashboard" then Some PDashboard
  else None.

(** The element the router renders at a path. *)
Definition route (a : AState) (q : Path) : Render :=
  match q with
  | PLogin => LoginPage a
  | PDashboard => PrivateRoute a
  end.

(** The mounted components: the session provider's state, the path, the
    sign-in form with the credentials of a pending submit (mounted on the
    sign-in page) and the dashboard page (its employee provider, list and
    form state; mounted under [PrivateRoute]). *)
Record AppState : Type := mkApp {
  app_auth : AState;
  app_path : Path;
  app_login : option (LFState * option (string * string));
  app_dash : option Page;
}.

Definition app_init (q : Path) : AppState := mkApp initial_auth q None None.

(** A navigation: a new path unmounts the components of the old one. *)
Definition go (q : Path) (s : AppState) : AppState :=
  if path_eqb q (app_path s) then s else mkApp (app_auth s) q None None.

(** What the user and the timers can deliver: the session provider's
    mount effect, an event of the sign-in form, the header's Logout
    button, a filter control, an event of the employee list. *)
Inductive AppEvent : Type :=
| AuthMount
| LoginEv (ev : LFEvent)
| LogoutClick
| FilterEv (fi : FilterInput)
| ListEv (ev : ListEvent).

(** The values the filter bar's selects offer: 'all' and the genders of
    [GENDERS], and 'all', 'active', 'inactive'. *)
Definition GENDERS : list Gender := [Male; Female; Other].

Definition filter_offered (fi : FilterInput) : bool :=
  match fi with
  | GenderSelect v => bool_decide (v ∈ "all" :: (gender_toString <$> GENDERS))
  | StatusSelect v => bool_decide (v ∈ ["all"; "active"; "inactive"])
  | SearchInput _ | ClearClick => true
  end.

(** Which events the current render offers.  The header's Logout button
    and the filter bar stay reachable from the keyboard behind an open
    modal, whose overlay only catches pointer events. *)
Definition app_enabled (ev : AppEvent) (s : AppState) : bool :=
  match ev with
  | AuthMount => isLoading (app_auth s)
  | LoginEv LTimer => match app_login s with Some (_, Some _) => true | _ => false end
  | LoginEv _ => bool_decide (is_Some (app_login s))
  | LogoutClick => bool_decide (is_Some (app_dash s))
  | FilterEv fi => bool_decide (is_Some (app_dash s)) && filter_offered fi
  | ListEv e => match app_dash s with Some p => list_enabled e p | None => false end
  end.

(** Two render passes: one redirect, then the page it leads to. *)
Definition settle_fuel : nat := 2.

Section App.
Context {S : Type} `{!LocalStorage S}.
Abbreviation W := (World S).
Context (tz : Z).

Section WithSample.
(** The module-level [SAMPLE_EMPLOYEES], built once when the app loads. *)
Context (sample : list Employee.t).

(** [Dashboard] mounts: a fresh [EmployeeProvider] runs its mount
    effect, the list starts closed and the form at its initial state. *)
Definition mount_dashboard (s : AppState) : St W AppState :=
  st ← mount sample initial_state;
  mret (mkApp (app_auth s) (app_path s) None (Some (mkPage ui_initial ef_initial st))).

(** A render pass: follow the route's redirect, or mount what the route
    shows and unmount the rest. *)
Fixpoint settle (fuel : nat) (s : AppState) : St W AppState :=
  match fuel with
  | O => mret s
  | Datatypes.S n =>
      match route (app_auth s) (app_path s) with
      | RNavigate to =>
          match path_of_string to with
          | Some q => settle n (go q s)
          | None => mret s
          end
      | RLoginPage =>
          mret (mkApp (app_auth s) (app_path s) (Some (default (lf_initial, None) (app_login s))) None)
      | RChildren =>
          match app_dash s with
          | Some p => mret (mkApp (app_auth s) (app_path s) None (Some p))
          | None => mount_dashboard s
          end
      | RPageLoader | RNothing => mret (mkApp (app_auth s) (app_path s) None None)
      end
  end.

(** An event, before the render pass that follows it. *)
Definition app_event (ev : AppEvent) (s : AppState) : St W (AppState * Output) :=
  match ev with
  | AuthMount =>
      a ← restore (app_auth s);
      mret (mkApp a (app_path s) (app_login s) (app_dash s), NoOutput)
  | LoginEv e =>
      match app_login s with
      | Some (fs, pend) =>
          r ← lf_proc_step e (mkLFP fs pend (app_auth s));
          let s1 := mkApp (lp_auth (fst r)) (app_path s)
                      (Some (lp_form (fst r), lp_pending (fst r))) (app_dash s) in
          mret (match snd r ≫= path_of_string with Some q => go q s1 | None => s1 end, NoOutput)
      | None => mret (s, NoOutput)
      end
  | LogoutClick =>
      a ← Header_logout (app_auth s);
      mret (mkApp a (app_path s) (app_login s) (app_dash s), NoOutput)
  | FilterEv fi =>
      match app_dash s with
      | Some p =>
          mret (mkApp (app_auth s) (app_path s) (app_login s)
                  (Some (mkPage (ui p) (form p) (setFilters (filter_patch fi) (store p)))), NoOutput)
      | None => mret (s, NoOutput)
      end
  | ListEv e =>
      match app_dash s with
      | Some p =>
          r ← list_step tz e p;
          mret (mkApp (app_auth s) (app_path s) (app_login s) (Some (fst r)), snd r)
      | None => mret (s, NoOutput)
      end
  end.

Definition app_step (ev : AppEvent) (s : AppState) : St W (AppState * Output) :=
  r ← app_event ev s;
  s' ← settle settle_fuel (fst r);
  mret (s', snd r).

(** A sequence of events, in order. *)
Fixpoint app_run (evs : list AppEvent) (s : AppState) : St W AppState :=
  match evs with
  | [] => mret s
  | ev :: evs' => r ← app_step ev s; app_run evs' (fst r)
  end.
End WithSample.

(** Loading the app at path [q]: the module is evaluated (building the
    sample records), then the first render pass. *)
Definition app_boot (q : Path) : St W (list Employee.t * AppState) :=
  sample ← SAMPLE_EMPLOYEES;
  s ← settle sample settle_fuel (app_init q);
  mret (sample, s).

(** The states the app reaches from a load through the events its
    renders offer. *)
Inductive app_reachable : list Employee.t -> AppState -> W -> Prop :=
| app_start q (w : W) :
    world_wf w -> stored_ok w ->
    app_reachable (fst (fst (app_boot q @ w))) (snd (fst (app_boot q @ w))) (snd (app_boot q @ w))
| app_next sample ev s (w : W) :
    app_reachable sample s w -> app_enabled ev s = true ->
    app_reachable sample (fst (fst (app_step sample ev s @ w))) (snd (app_step sample ev s @ w)).

(** Runs of enabled events. *)
Inductive app_steps (sample : list Employee.t) : AppState -> W -> AppState -> W -> Prop :=
| steps_refl s (w : W) : app_steps sample s w s w
| steps_cons ev s (w : W) s' (w' : W) :
    app_enabled ev s = true ->
    app_steps sample (fst (fst (app_step sample ev s @ w))) (snd (app_step sample ev s @ w)) s' w' ->
    app_steps sample s w s' w'.

(** What the app renders: [PrivateRoute]'s [PageLoader], nothing (the
    sign-in page while the session loads), the [LoginForm], or the
    [Dashboard] inside the session provider, which throws instead when a
    hook misses its provider. *)
Inductive AppView : Type :=
| VLoader (v : Loader.PageLoaderView)
| VNothing
| VLogin (v : LFView)
| VDashboard (v : Dashboard.DashboardView + string).

Definition App_view (max : string) (s : AppState) : AppView :=
  match route (app_auth s) (app_path s) with
  | RPageLoader => VLoader Loader.PageLoader
  | RLoginPage =>
      match app_login s with Some (fs, _) => VLogin (LoginForm_view fs) | None => VNothing end
  | RChildren =>
      match app_dash s with
      | Some p => VDashboard (Dashboard.Dashboard_view tz max (Some (AuthProvider_value (app_auth s))) p)
      | None => VNothing
      end
  | RNothing | RNavigate _ => VNothing
  end.

End App.

(** ** Theorems *)

(** A state the render pass leaves alone: the route shows no redirect,
    and exactly the components the route shows are mounted. *)
Definition settled (s : AppState) : Prop :=
  match route (app_auth s) (app_path s) with
  | RNavigate _ => False
  | RLoginPage => is_Some (app_login s) /\ app_dash s = None
  | RChildren => app_login s = None /\ is_Some (app_dash s)
  | RPageLoader | RNothing => app_login s = None /\ app_dash s = None
  end.

Section Theorems.
Context {S : Type} `{!LocalStorage S}.
Abbreviation W := (World S).
Context (tz : Z).

Lemma settled_fixed sample n s (w : W) : settled s -> settle sample n s @ w = (s, w).
Proof.
  destruct n as [|n]; [done|]. destruct s as [a q l d]. unfold settled.
  cbn [settle app_auth app_path app_login app_dash].
  destruct (route a q);
    [intros [-> ->] | intros [-> ->] | done | intros [-> [p ->]] | intros [[x ->] ->]]; done.
Qed.

Lemma mount_dashboard_run sample s (w : W) :
  mount_dashboard sample s w =
    (mkApp (app_auth s) (app_path s) None
       (Some (mkPage ui_initial ef_initial (fst (mount sample initial_state @ w)))),
     snd (mount sample initial_state @ w)).
Proof. unfold mount_dashboard, st_run, mbind, St_bind, mret, St_ret. cbn. destruct (mount sample initial_state w); reflexivity. Qed.

Lemma mount_dashboard_at sample s (w : W) :
  mount_dashboard sample s @ w =
    (mkApp (app_auth s) (app_path s) None
       (Some (mkPage ui_initial ef_initial (fst (mount sample initial_state @ w)))),
     snd (mount sample initial_state @ w)).
Proof. apply mount_dashboard_run. Qed.

Lemma settle_settled sample s (w : W) : settled (fst (settle sample settle_fuel s @ w)).
Proof.
  destruct s as [[[] u []] [] l d]; cbn -[mount_dashboard];
    try destruct d; rewrite ?mount_dashboard_run; unfold settled; cbn; split; by eauto.
Qed.

(** C17: the render pass terminates: whatever the session and the path,
    two passes (one redirect of a route guard, then the page it leads
    to) reach a state with no pending redirect and exactly the route's
    components mounted, which any further pass leaves unchanged; the two
    guards never redirect back and forth. *)
Theorem settle_terminates sample s (w : W) :
  let r := settle sample settle_fuel s @ w in
  settled (fst r) /\ forall n, settle sample n (fst r) @ (snd r) = r.
Proof.
  cbn zeta. split; [apply settle_settled|].
  intros n. rewrite settled_fixed by apply settle_settled. by destruct (settle _ _ _ @ _).
Qed.

(** *** Frames between the two stores *)

Context `{!LocalStorageLaws S}.

(** The world facts the application keeps: a well-formed world, a stored
    collection and sample records stamped in the clock's past. *)
Definition world_inv (sample : list Employee.t) (w : W) : Prop :=
  world_wf w /\ stored_ok w /\ Forall (ts_ok (w_now w)) sample.

(** What the session store's handlers change: AUTH and USER only. *)
Definition session_frame (w w' : W) : Prop :=
  w_now w' = w_now w /\ w_drift w' = w_drift w /\ w_rand w' = w_rand w /\
  ls_get EMPLOYEES (w_store w') = ls_get EMPLOYEES (w_store w).

(** What the employee store's handlers leave alone: AUTH and USER. *)
Definition employee_frame (w w' : W) : Prop :=
  ls_get AUTH (w_store w') = ls_get AUTH (w_store w) /\
  ls_get USER (w_store w') = ls_get USER (w_store w).

Lemma session_frame_refl (w : W) : session_frame w w.
Proof. done. Qed.

Lemma session_frame_trans (w1 w2 w3 : W) :
  session_frame w1 w2 -> session_frame w2 w3 -> session_frame w1 w3.
Proof. unfold session_frame. intros (? & ? & ? & ?) (? & ? & ? & ?). repeat split; congruence. Qed.

Lemma session_frame_store (f : S -> S) (w : W) :
  (forall s, ls_get EMPLOYEES (f s) = ls_get EMPLOYEES s) -> session_frame w (with_store f w).
Proof. intros Hf. unfold session_frame. cbn. by rewrite Hf. Qed.

Lemma login_frame u p a (w : W) : session_frame w (snd (login u p a @ w)).
Proof.
  unfold login. destruct (_ && _); [| apply session_frame_refl]. st_simpl. cbn -[setItem].
  eapply session_frame_trans; apply session_frame_store; intros s';
    unfold setItem; by rewrite ls_get_set_ne.
Qed.

Lemma logout_frame a (w : W) : session_frame w (snd (logout a @ w)).
Proof.
  rewrite logout_run. cbn [snd].
  eapply session_frame_trans; apply session_frame_store; intros s';
    unfold removeItem; by rewrite ls_get_remove_ne.
Qed.

Lemma world_inv_session sample (w w' : W) :
  session_frame w w' -> world_inv sample w -> world_inv sample w'.
Proof.
  intros (Hn & Hd & Hr & He) (Hw & Hst & Hs). unfold world_inv, world_wf, stored_ok, getItem in *.
  by rewrite Hn, Hd, Hr, He.
Qed.

Lemma emp_inv_session st (w w' : W) : session_frame w w' -> emp_inv st w -> emp_inv st w'.
Proof.
  intros (Hn & Hd & Hr & He) (Hw & Hwt & Hts). unfold emp_inv, world_wf, write_through in *.
  by rewrite Hn, Hd, Hr, He.
Qed.

Lemma auth_inv_employee a (w w' : W) : employee_frame w w' -> auth_inv a w -> auth_inv a w'.
Proof.
  intros [Ha Hu]. unfold auth_inv, stored_session, getItem. by rewrite Ha, Hu.
Qed.

Lemma keeps_employee_frame {A} (m : St W A) (w : W) :
  keeps_key AUTH m -> keeps_key USER m -> employee_frame w (snd (m @ w)).
Proof. intros Ha Hu. split; [apply Ha| apply Hu]. Qed.

Lemma handle_employee_frame ev st (w : W) : employee_frame w (snd (handle ev st @ w)).
Proof.
  apply keeps_employee_frame; destruct ev; cbn [handle];
    unfold addEmployee, generateId, updateEmployee, update_one, deleteEmployee,
      toggleEmployeeStatus, toggle_one, saveEmployees; solve_keeps.
Qed.

Lemma mount_employee_frame sample st (w : W) : employee_frame w (snd (mount sample st @ w)).
Proof. apply keeps_employee_frame; unfold mount; solve_keeps. Qed.

Lemma emp_inv_stored_ok st (w : W) : emp_inv st w -> stored_ok w.
Proof. intros (_ & Hwt & Hts). unfold stored_ok. by rewrite (getItem_write_through st w Hwt). Qed.

(** A fresh provider's mount establishes the store's invariant. *)
Lemma emp_inv_mount sample (w : W) :
  world_inv sample w ->
  emp_inv (fst (mount sample initial_state @ w)) (snd (mount sample initial_state @ w)).
Proof.
  intros (Hw & Hst & Hs). rewrite mount_run.
  destruct (Nat.eqb_spec (length (getItem employees_of_json EMPLOYEES [] (w_store w))) 0).
  - split; [done| split; [|done]].
    unfold write_through. cbn. unfold setItem. rewrite ls_get_set_eq. apply employees_roundtrip.
  - split; [done| split; [by apply getItem_nonempty| done]].
Qed.

Lemma mount_world_inv sample (w : W) :
  world_inv sample w -> world_inv sample (snd (mount sample initial_state @ w)).
Proof.
  intros Hi. pose proof (emp_inv_mount sample w Hi) as Hm. destruct Hi as (Hw & Hst & Hs).
  split; [apply Hm| split; [by eapply emp_inv_stored_ok|]].
  rewrite mount_run. by destruct (_ =? 0)%nat.
Qed.

Lemma handle_world_inv sample ev st (w : W) :
  emp_inv st w -> Forall (ts_ok (w_now w)) sample ->
  world_inv sample (snd (handle ev st @ w)) /\ emp_inv (fst (handle ev st @ w)) (snd (handle ev st @ w)).
Proof.
  intros He Hs. pose proof (emp_inv_step ev st w He) as He'.
  destruct (handle_mono ev st w (proj1 He)) as [Hw' Hle].
  split; [| done]. split; [done| split; [by eapply emp_inv_stored_ok| by eapply Forall_ts_ok_later]].
Qed.

(** *** The application's invariant *)

(** The session invariant, the sign-in form's "pending exactly while
    loading", and for the mounted dashboard the store's and the list's
    invariants. *)
Definition app_inv (sample : list Employee.t) (s : AppState) (w : W) : Prop :=
  world_inv sample w /\ auth_inv (app_auth s) w /\
  (forall fs pend, app_login s = Some (fs, pend) -> (is_Some pend <-> lf_isLoading fs = true)) /\
  (forall p, app_dash s = Some p -> emp_inv (store p) w /\ page_inv p).

Lemma page_inv_initial st : page_inv (mkPage ui_initial ef_initial st).
Proof. unfold page_inv; cbn. by intros ? [=]. Qed.

Lemma app_inv_drop sample s q (w : W) :
  app_inv sample s w -> app_inv sample (mkApp (app_auth s) q None None) w.
Proof. intros (Hw & Ha & _ & _). split; [done| split; [done| split; done]]. Qed.

Lemma go_inv sample q s (w : W) : app_inv sample s w -> app_inv sample (go q s) w.
Proof. unfold go. destruct (path_eqb _ _); [done| apply app_inv_drop]. Qed.

Lemma settle_inv sample n s (w : W) :
  app_inv sample s w -> app_inv sample (fst (settle sample n s @ w)) (snd (settle sample n s @ w)).
Proof.
  revert s w; induction n as [|n IH]; intros s w Hi; [done|].
  cbn [settle]. destruct (route (app_auth s) (app_path s)).
  1, 2: by apply app_inv_drop.
  - destruct (path_of_string to); [apply IH; by apply go_inv| done].
  - destruct (app_dash s) as [p|] eqn:Hd.
    + destruct Hi as (Hw & Ha & _ & Hp). split; [done| split; [done| split; [done|]]].
      intros p' [= <-]. by apply Hp.
    + rewrite mount_dashboard_at. destruct Hi as (Hw & Ha & _ & _).
      split; [by apply mount_world_inv|]. split; [exact (auth_inv_employee _ _ _ (mount_employee_frame _ _ w) Ha)|].
      split; [done|]. intros p [= <-]. split; [by apply emp_inv_mount| apply page_inv_initial].
  - destruct Hi as (Hw & Ha & Hl & Hp). split; [done| split; [done| split; [|done]]].
    cbn. destruct (app_login s) as [[fs pend]|]; cbn; intros ? ? [= <- <-]; [by eapply Hl|].
    split; [by intros [? ?]| done].
Qed.

Lemma lf_step_session ev p (w : W) :
  auth_inv (lp_auth p) w ->
  session_frame w (snd (lf_proc_step ev p @ w)) /\
  auth_inv (lp_auth (fst (fst (lf_proc_step ev p @ w)))) (snd (lf_proc_step ev p @ w)).
Proof.
  intros Ha. destruct ev as [i| |]; cbn [lf_proc_step].
  - st_simpl. done.
  - destruct (lf_submit (lp_form p)) as [[fs' c]|]; st_simpl; done.
  - destruct (lp_pending p) as [c|]; st_simpl; [| done].
    unfold handleSubmit_finish. st_simpl. cbn [lp_auth]. split; [apply login_frame|].
    exact (auth_inv_step _ _ _ _ _ Ha (auth_step_login (fst c) (snd c) (lp_auth p) w)).
Qed.

Lemma app_event_inv sample ev s (w : W) :
  app_inv sample s w -> app_enabled ev s = true ->
  app_inv sample (fst (fst (app_event tz ev s @ w))) (snd (app_event tz ev s @ w)).
Proof.
  intros (Hw & Ha & Hl & Hp) Hen.
  destruct ev as [| e | | fi | e]; cbn [app_event app_enabled] in *.
  - pose proof (auth_inv_step _ _ _ _ _ Ha (auth_step_restore (app_auth s) w Hen)) as Ha'.
    st_simpl. rewrite restore_run in Ha' |- *. cbn [fst snd app_auth app_login app_dash] in *.
    split; [done| split; [done| split; done]].
  - destruct (app_login s) as [[fs pend]|] eqn:Hls; [| st_simpl; split; [done| split; [done| split; [by rewrite Hls| done]]]].
    destruct (lf_step_session e (mkLFP fs pend (app_auth s)) w Ha) as [Hf Ha'].
    pose proof (lf_pending_step e (mkLFP fs pend (app_auth s)) w (Hl fs pend eq_refl)) as Hpend.
    st_simpl. cbn zeta.
    match goal with
    | |- app_inv _ (match ?nav with Some q => go q ?s1 | None => _ end) _ =>
        assert (H1 : app_inv sample s1 (snd (lf_proc_step e (mkLFP fs pend (app_auth s)) @ w)));
        [| destruct nav; [by apply go_inv| exact H1]]
    end.
    split; [by eapply world_inv_session| split; [done| split]]; cbn [app_login app_dash].
    + by intros fs' pend' [= <- <-].
    + intros p Hd. destruct (Hp p Hd). split; [by eapply emp_inv_session| done].
  - pose proof (auth_inv_step _ _ _ _ _ Ha (auth_step_logout (app_auth s) w)) as Ha'.
    pose proof (logout_frame (app_auth s) w) as Hf.
    unfold Header_logout. st_simpl. cbn [app_auth app_login app_dash].
    split; [by eapply world_inv_session| split; [done| split; [done|]]].
    intros p Hd. destruct (Hp p Hd). split; [by eapply emp_inv_session| done].
  - destruct (app_dash s) as [p|] eqn:Hd; [| done]. destruct (Hp p eq_refl) as [He Hpi].
    st_simpl. split; [done| split; [done| split; [done|]]].
    intros p' [= <-]. by destruct p.
  - destruct (app_dash s) as [p|] eqn:Hd; [| done]. destruct (Hp p eq_refl) as [He Hpi].
    pose proof (page_inv_step tz e p w Hpi) as Hpi'.
    destruct (list_step_store tz e p w) as [[Hst Hw'] | [sev [Hst Hw']]]; st_simpl;
      rewrite Hw'; cbn [app_auth app_login app_dash].
    + split; [done| split; [done| split; [done|]]]. intros p' [= <-]. by rewrite Hst.
    + destruct (handle_world_inv sample sev (store p) w He (proj2 (proj2 Hw))) as [Hwi He'].
      split; [done| split; [exact (auth_inv_employee _ _ _ (handle_employee_frame sev (store p) w) Ha)|]].
      split; [done|]. intros p' [= <-]. by rewrite Hst.
Qed.

Lemma app_inv_boot q (w : W) :
  world_wf w -> stored_ok w ->
  app_inv (fst (SAMPLE_EMPLOYEES @ w)) (app_init q) (snd (SAMPLE_EMPLOYEES @ w)).
Proof.
  intros Hw Hst. destruct (SAMPLE_EMPLOYEES_ts w Hw) as (Hw1 & Hle & Hs).
  split; [split; [done| split; [|done]]|].
  - unfold stored_ok in *. rewrite SAMPLE_EMPLOYEES_store. by eapply Forall_ts_ok_later.
  - split; [split; [done| split; done]| split; done].
Qed.

Lemma app_reachable_app_inv sample s (w : W) :
  app_reachable tz sample s w -> app_inv sample s w /\ settled s.
Proof.
  induction 1 as [q w Hw Hst| sample ev s w _ [IH _] Hen].
  - unfold app_boot. st_simpl. split; [by apply settle_inv, app_inv_boot| apply settle_settled].
  - unfold app_step. st_simpl. split; [by apply settle_inv, app_event_inv| apply settle_settled].
Qed.

(** The dashboard is mounted only on its route, once the session has
    loaded and is authenticated. *)
Lemma settled_dash s p :
  settled s -> app_dash s = Some p ->
  app_path s = PDashboard /\ isLoading (app_auth s) = false /\ isAuthenticated (app_auth s) = true.
Proof.
  destruct s as [[[] u []] [] l d]; unfold settled; cbn; intros H ->; try done;
    destruct H as [_ H]; done.
Qed.

(** C16: the composed application keeps the invariants of its parts: in
    every state reachable from a page load through the events the renders
    offer, no redirect is pending and exactly the route's components are
    mounted; the session state agrees with the stored session; and while
    the dashboard is mounted the session is persisted, its store's
    collection is the stored one (both stores write the same storage), its
    records are stamped in the past, and a record is being edited only
    while the form is open. *)
Theorem app_reachable_inv sample s (w : W) :
  app_reachable tz sample s w ->
  settled s /\ auth_inv (app_auth s) w /\
  (forall p, app_dash s = Some p ->
     stored_session (w_store w) = true /\ write_through (store p) w /\
     Forall (ts_ok (w_now w)) (employees (store p)) /\ page_inv p).
Proof.
  intros H. destruct (app_reachable_app_inv sample s w H) as [(Hw & Ha & _ & Hp) Hs].
  split; [done| split; [done|]]. intros p Hd.
  destruct (settled_dash s p Hs Hd) as (_ & _ & Hauth).
  destruct (Hp p Hd) as ((_ & Hwt & Hts) & Hpi).
  split; [by apply (proj1 (proj2 Ha))| done].
Qed.

(** *** Runs of events *)

Lemma app_steps_one sample ev s (w : W) :
  app_enabled ev s = true ->
  app_steps tz sample s w (fst (fst (app_step tz sample ev s @ w))) (snd (app_step tz sample ev s @ w)).
Proof. intros H. eapply steps_cons; [done| constructor]. Qed.

Lemma app_steps_trans sample s1 (w1 : W) s2 w2 s3 w3 :
  app_steps tz sample s1 w1 s2 w2 -> app_steps tz sample s2 w2 s3 w3 ->
  app_steps tz sample s1 w1 s3 w3.
Proof. induction 1 as [|ev s w s' w' Hen _ IH]; [done|]. intros H23. eapply steps_cons; eauto. Qed.

Lemma app_steps_reachable sample s (w : W) s' w' :
  app_steps tz sample s w s' w' -> app_reachable tz sample s w -> app_reachable tz sample s' w'.
Proof. induction 1 as [|ev s w s' w' Hen _ IH]; [done|]. intros Hr. by apply IH, app_next. Qed.

(** An event after which no render pass is needed. *)
Lemma app_step_settled sample ev s (w : W) :
  settled (fst (fst (app_event tz ev s @ w))) ->
  app_step tz sample ev s @ w = app_event tz ev s @ w.
Proof.
  intros H. unfold app_step. st_simpl. rewrite settled_fixed by done. cbn [fst snd].
  by destruct (app_event tz ev s @ w) as [[? ?] ?].
Qed.

(** Once the session has loaded, the app shows either the dashboard or
    the sign-in form of a signed-out session. *)
Lemma settled_loaded s :
  settled s -> isLoading (app_auth s) = false ->
  is_Some (app_dash s) \/
  exists u fs pend, s = mkApp (mkAState false u false) PLogin (Some (fs, pend)) None.
Proof.
  destruct s as [[[] u []] [] l d]; unfold settled; cbn; intros H Hl; try done.
  all: first [left; apply (proj2 H)
             | destruct H as [[[fs pend] ->] ->]; right; by exists u, fs, pend].
Qed.

Definition signed_out_form (u : Json) (fs : LFState) (pend : option (string * string)) : AppState :=
  mkApp (mkAState false u false) PLogin (Some (fs, pend)) None.

Lemma signed_out_settled u fs pend : settled (signed_out_form u fs pend).
Proof. unfold settled; cbn. split; by eauto. Qed.

Lemma login_input_run sample u fs pend i (w : W) :
  app_step tz sample (LoginEv (LInput i)) (signed_out_form u fs pend) @ w =
    ((signed_out_form u (lf_input i fs) pend, NoOutput), w).
Proof. rewrite app_step_settled; [reflexivity| apply signed_out_settled]. Qed.

Lemma login_submit_run sample u fs fs' c (w : W) :
  lf_submit fs = Some (fs', c) ->
  app_step tz sample (LoginEv LSubmit) (signed_out_form u fs None) @ w =
    ((signed_out_form u fs' (Some c), NoOutput), w).
Proof.
  intros H. rewrite app_step_settled; [| unfold app_event; cbn; rewrite H; apply signed_out_settled].
  unfold app_event; cbn. by rewrite H.
Qed.

Lemma login_timer_fail sample u fs c (w : W) :
  credentials_ok (fst c) (snd c) = false ->
  app_step tz sample (LoginEv LTimer) (signed_out_form u fs (Some c)) @ w =
    ((signed_out_form u (mkLF (lf_username fs) (lf_password fs) (lf_showPassword fs)
                          "Invalid username or password" false) None, NoOutput), w).
Proof.
  intros Hok. unfold credentials_ok in Hok.
  assert (E : app_event tz (LoginEv LTimer) (signed_out_form u fs (Some c)) @ w =
    ((signed_out_form u (mkLF (lf_username fs) (lf_password fs) (lf_showPassword fs)
                          "Invalid username or password" false) None, NoOutput), w)).
  { unfold app_event. cbn [signed_out_form app_login]. st_simpl.
    rewrite (lf_step_timer (mkLFP fs (Some c) (mkAState false u false)) c w eq_refl).
    unfold handleSubmit_finish. st_simpl. unfold login. rewrite Hok. by st_simpl. }
  rewrite app_step_settled; rewrite E; [done| apply signed_out_settled].
Qed.

Lemma login_timer_ok sample u fs c (w : W) :
  credentials_ok (fst c) (snd c) = true ->
  is_Some (app_dash (fst (fst (app_step tz sample (LoginEv LTimer) (signed_out_form u fs (Some c)) @ w)))).
Proof.
  intros Hok. unfold app_step, app_event. cbn [signed_out_form app_login]. st_simpl.
  rewrite (lf_step_timer (mkLFP fs (Some c) (mkAState false u false)) c w eq_refl).
  unfold handleSubmit_finish. st_simpl. rewrite login_run_ok by done. cbn.
  rewrite mount_dashboard_run. cbn. by eexists.
Qed.

(** From the sign-in form of a signed-out session, a run reaches the
    dashboard: let a pending submit finish, then type the configured
    credentials, submit, and let the timer fire. *)
Lemma sign_in_reaches_dashboard sample u fs pend (w : W) :
  (pend = None -> lf_isLoading fs = false) ->
  exists s' w', app_steps tz sample (signed_out_form u fs pend) w s' w' /\ is_Some (app_dash s').
Proof.
  intros Hpend.
  assert (Hidle : forall fs0 (w0 : W), lf_isLoading fs0 = false ->
    exists s' w', app_steps tz sample (signed_out_form u fs0 None) w0 s' w' /\ is_Some (app_dash s')).
  { intros fs0 w0 Hl.
    set (fs1 := lf_input (PasswordInput "admin123") (lf_input (UsernameInput "admin") fs0)).
    assert (Hsub : lf_submit fs1 = Some (handleSubmit_start fs1)) by (apply lf_submit_ok; done).
    eexists _, _. split.
    - eapply steps_cons with (ev := LoginEv (LInput (UsernameInput "admin"))); [reflexivity|].
      rewrite login_input_run. cbn [fst snd].
      eapply steps_cons with (ev := LoginEv (LInput (PasswordInput "admin123"))); [reflexivity|].
      rewrite login_input_run. cbn [fst snd].
      eapply steps_cons with (ev := LoginEv LSubmit); [reflexivity|].
      rewrite (login_submit_run _ _ _ _ _ _ Hsub). cbn [fst snd].
      eapply steps_cons with (ev := LoginEv LTimer); [reflexivity| apply steps_refl].
    - by apply login_timer_ok. }
  destruct pend as [c|]; [| by apply Hidle, Hpend].
  destruct (credentials_ok (fst c) (snd c)) eqn:Hok.
  - eexists _, _. split; [apply (app_steps_one _ (LoginEv LTimer)); reflexivity| by apply login_timer_ok].
  - destruct (Hidle (mkLF (lf_username fs) (lf_password fs) (lf_showPassword fs)
                       "Invalid username or password" false) w eq_refl) as (s' & w' & Hs & Hd).
    exists s', w'. split; [| done]. eapply steps_cons with (ev := LoginEv LTimer); [reflexivity|].
    by rewrite login_timer_fail.
Qed.

Definition dash_state (u : Json) (p : Page) : AppState :=
  mkApp (mkAState true u false) PDashboard None (Some p).

Lemma dash_state_settled u p : settled (dash_state u p).
Proof. unfold settled; cbn. split; by eauto. Qed.

Lemma settled_dash_state s p : settled s -> app_dash s = Some p -> exists u, s = dash_state u p.
Proof.
  destruct s as [[[] u []] [] l d]; unfold settled; cbn; intros H Hd; subst d.
  all: first [done | destruct H as [_ Hx]; discriminate | destruct H as [-> _]; by exists u].
Qed.

Lemma list_ev_run sample u p ev (w : W) :
  app_step tz sample (ListEv ev) (dash_state u p) @ w =
    ((dash_state u (fst (fst (list_step tz ev p @ w))), snd (fst (list_step tz ev p @ w))),
     snd (list_step tz ev p @ w)).
Proof.
  rewrite app_step_settled; [| unfold app_event; cbn [dash_state app_dash]; st_simpl; apply dash_state_settled].
  unfold app_event. cbn [dash_state app_dash]. by st_simpl.
Qed.

Lemma filter_ev_run sample u p fi (w : W) :
  app_step tz sample (FilterEv fi) (dash_state u p) @ w =
    ((dash_state u (mkPage (ui p) (form p) (setFilters (filter_patch fi) (store p))), NoOutput), w).
Proof. rewrite app_step_settled; [reflexivity| apply dash_state_settled]. Qed.

(** From a mounted dashboard, a run closes the open modal, if any, and
    clears the filters. *)
Lemma dashboard_home_run sample u p (w : W) :
  page_inv p ->
  exists p' w', app_steps tz sample (dash_state u p) w (dash_state u p') w' /\
    ui p' = ui_initial /\ filters (store p') = initial_filters /\
    employees (store p') = employees (store p).
Proof.
  intros Hed.
  assert (Hclear : forall p0 (w0 : W), ui p0 = ui_initial ->
    exists p' w', app_steps tz sample (dash_state u p0) w0 (dash_state u p') w' /\
      ui p' = ui_initial /\ filters (store p') = initial_filters /\
      employees (store p') = employees (store p0)).
  { intros [u0 fs0 st0] w0 Hu. cbn in Hu. subst u0. eexists _, _. split.
    - eapply steps_cons with (ev := FilterEv ClearClick); [reflexivity|].
      rewrite filter_ev_run. apply steps_refl.
    - done. }
  assert (Hnodlg : forall fo ed fs st (w0 : W), (forall e, ed = Some e -> fo = true) ->
    exists p' w', app_steps tz sample (dash_state u (mkPage (mkUI fo ed None) fs st)) w0
                    (dash_state u p') w' /\
      ui p' = ui_initial /\ filters (store p') = initial_filters /\ employees (store p') = employees st).
  { intros fo ed fs st w0 Hed0. destruct fo.
    - destruct (Hclear (mkPage ui_initial fs st) w0 eq_refl) as (p' & w' & Hs & Hp').
      exists p', w'. split; [| done].
      eapply steps_cons with (ev := ListEv FormClose); [reflexivity|]. rewrite list_ev_run. exact Hs.
    - destruct ed as [e|]; [discriminate (Hed0 e eq_refl)|]. by apply Hclear. }
  destruct p as [[fo ed de] fs st]; cbn [ui store page_inv isFormOpen editingEmployee deletingEmployee] in *.
  destruct de as [d|]; [| by apply Hnodlg].
  destruct (Hnodlg fo ed fs st w Hed) as (p' & w' & Hs & Hp').
  exists p', w'. split; [| done].
  eapply steps_cons with (ev := ListEv DialogClose); [reflexivity|]. rewrite list_ev_run. exact Hs.
Qed.

Lemma settle_auth sample n s (w : W) : app_auth (fst (settle sample n s @ w)) = app_auth s.
Proof.
  revert s w; induction n as [|n IH]; intros s w; [done|]. cbn [settle].
  destruct (route _ _); st_simpl; try done.
  - destruct (path_of_string to); st_simpl; [rewrite IH; unfold go; by destruct (path_eqb _ _)| done].
  - destruct (app_dash s); st_simpl; [done| by rewrite mount_dashboard_at].
Qed.

(** C18: liveness of the dashboard: from every state the app reaches, a
    finite run of events its renders offer leads to the dashboard showing
    every stored employee with no modal open: the session's mount effect
    runs if it has not, a pending sign-in completes, the configured
    credentials are typed and submitted, the open modals are closed (the
    dialog, then the form) and the filters are cleared. *)
Theorem dashboard_always_reachable sample s (w : W) :
  app_reachable tz sample s w ->
  exists s' w' p, app_steps tz sample s w s' w' /\ app_dash s' = Some p /\
    ui p = ui_initial /\ filters (store p) = initial_filters /\
    filteredEmployees (store p) = employees (store p).
Proof.
  intros Hr.
  assert (H1 : exists s1 w1, app_steps tz sample s w s1 w1 /\ isLoading (app_auth s1) = false).
  { destruct (isLoading (app_auth s)) eqn:Hl; [| exists s, w; split; [constructor| done]].
    eexists _, _. split; [by apply (app_steps_one _ AuthMount)|].
    unfold app_step. st_simpl. rewrite settle_auth. unfold app_event. st_simpl. cbn [app_auth].
    rewrite restore_run. cbn. by destruct (stored_session _). }
  destruct H1 as (s1 & w1 & Hs1 & Hl1).
  pose proof (app_steps_reachable _ _ _ _ _ Hs1 Hr) as Hr1.
  assert (H2 : exists s2 w2, app_steps tz sample s1 w1 s2 w2 /\ app_reachable tz sample s2 w2 /\
                             is_Some (app_dash s2)).
  { destruct (app_reachable_app_inv _ _ _ Hr1) as [(_ & _ & Hlf & _) Hset].
    destruct (settled_loaded s1 Hset Hl1) as [Hd | (u & fs & pend & ->)].
    - exists s1, w1. split; [constructor| done].
    - destruct (sign_in_reaches_dashboard sample u fs pend w1) as (s2 & w2 & Hs2 & Hd2).
      { intros ->. destruct (lf_isLoading fs) eqn:E; [| done].
        by destruct (proj2 (Hlf fs None eq_refl) E). }
      exists s2, w2. split; [done| split; [by eapply app_steps_reachable| done]]. }
  destruct H2 as (s2 & w2 & Hs2 & Hr2 & [p Hp]).
  destruct (app_reachable_app_inv _ _ _ Hr2) as [(_ & _ & _ & Hpi) Hset2].
  pose proof (proj2 (Hpi p Hp)) as Hpi'.
  destruct (settled_dash_state s2 p Hset2 Hp) as [u ->].
  destruct (dashboard_home_run sample u p w2 Hpi') as (p' & w' & Hs3 & Hu & Hf & _).
  exists (dash_state u p'), w', p'.
  split; [eapply app_steps_trans; [exact Hs1| eapply app_steps_trans; [exact Hs2| exact Hs3]]|].
  split; [done| split; [done| split; [done| by apply filteredEmployees_initial]]].
Qed.

Lemma login_timer_ok_run sample u fs c (w : W) :
  credentials_ok (fst c) (snd c) = true ->
  let w1 := snd (login (fst c) (snd c) (mkAState false u false) @ w) in
  app_step tz sample (LoginEv LTimer) (signed_out_form u fs (Some c)) @ w =
    ((dash_state (user_json (fst c)) (mkPage ui_initial ef_initial (fst (mount sample initial_state @ w1))),
      NoOutput), snd (mount sample initial_state @ w1)).
Proof.
  intros Hok. cbn zeta. unfold app_step, app_event. cbn [signed_out_form app_login]. st_simpl.
  rewrite (lf_step_timer (mkLFP fs (Some c) (mkAState false u false)) c w eq_refl).
  unfold handleSubmit_finish. st_simpl. rewrite !login_run_ok by done. cbn.
  by rewrite mount_dashboard_run.
Qed.

Lemma logout_app_run sample u p (w : W) :
  app_step tz sample LogoutClick (dash_state u p) @ w =
    ((signed_out_form JNull lf_initial None, NoOutput), snd (logout (mkAState true u false) @ w)).
Proof. unfold app_step, app_event, Header_logout. st_simpl. by rewrite logout_run. Qed.

Lemma getItem_session_frame {T} (dec : Json -> option T) d (w w' : W) :
  session_frame w w' -> getItem dec EMPLOYEES d (w_store w') = getItem dec EMPLOYEES d (w_store w).
Proof. intros (_ & _ & _ & He). unfold getItem. by rewrite He. Qed.

(** The events of signing in with the configured credentials. *)
Definition sign_in_events : list AppEvent :=
  [LoginEv (LInput (UsernameInput "admin")); LoginEv (LInput (PasswordInput "admin123"));
   LoginEv LSubmit; LoginEv LTimer].

(** C19: signing out and in again remounts the dashboard from storage:
    Logout on a reachable dashboard unmounts it and shows the sign-in
    form; signing in mounts a fresh employee provider whose collection is
    the one the dashboard held (read back from storage), or the sample
    records when that collection was empty, with the filters cleared and
    no modal open. *)
Theorem logout_login_remount sample u p (w : W) :
  app_reachable tz sample (dash_state u p) w ->
  let r1 := app_step tz sample LogoutClick (dash_state u p) @ w in
  let r2 := app_run tz sample sign_in_events (fst (fst r1)) @ (snd r1) in
  app_dash (fst (fst r1)) = None /\ app_login (fst (fst r1)) = Some (lf_initial, None) /\
  exists p', app_dash (fst r2) = Some p' /\ ui p' = ui_initial /\ filters (store p') = initial_filters /\
    employees (store p') = match employees (store p) with [] => sample | l => l end.
Proof.
  intros Hr. destruct (app_reachable_app_inv _ _ _ Hr) as [(_ & _ & _ & Hp) _].
  destruct (Hp p eq_refl) as ((_ & Hwt & _) & _).
  cbn zeta. rewrite logout_app_run. cbn [fst snd]. split; [done| split; [done|]].
  cbn [app_run sign_in_events]. st_simpl. rewrite login_input_run. st_simpl.
  rewrite login_input_run. st_simpl.
  rewrite (login_submit_run sample JNull
             (lf_input (PasswordInput "admin123") (lf_input (UsernameInput "admin") lf_initial))
             _ _ _ eq_refl). st_simpl.
  rewrite login_timer_ok_run by reflexivity. st_simpl. eexists. split; [reflexivity|].
  rewrite mount_run. cbn zeta.
  rewrite (getItem_session_frame _ _ w) by
    (eapply session_frame_trans; [apply logout_frame| apply login_frame]).
  rewrite (getItem_write_through _ _ Hwt).
  by destruct (employees (store p)).
Qed.

(** *** The filters' domains *)

(** [EmployeeFilters] types both criteria as strings; the selects keep
    them within their items. *)
Definition filters_wf (f : Filters.t) : Prop :=
  Filters.gender f ∈ "" :: (gender_toString <$> GENDERS) /\
  Filters.status f ∈ [""; "active"; "inactive"].

Definition dash_filters_wf (s : AppState) : Prop :=
  forall p, app_dash s = Some p -> filters_wf (filters (store p)).

Lemma filters_wf_patch fi f :
  filter_offered fi = true -> filters_wf f -> filters_wf (merge_filters f (filter_patch fi)).
Proof.
  intros Hoff [Hg Hs]. unfold filters_wf.
  destruct fi as [q|v|v|]; cbn [filter_offered filter_patch merge_filters default Filters.gender Filters.status] in *;
    try (split; [done| done]); [| | split; set_solver].
  all: apply bool_decide_eq_true in Hoff; destruct (String.eqb_spec v "all") as [->|Hne];
    split; try done; try set_solver.
Qed.

Lemma list_step_filters ev p (w : W) :
  filters (store (fst (fst (list_step tz ev p @ w)))) = filters (store p).
Proof.
  destruct ev as [| e [| | | o] | fi | max | | | | ]; unfold list_step; st_simpl; try done.
  - by rewrite (proj1 (toggleEmployeeStatus_run _ _ _)).
  - destruct (EmployeeForm_submit max (form p)); st_simpl; [| done]. unfold handleFormSubmit. st_simpl.
    destruct (editingEmployee (ui p)); st_simpl;
      [by rewrite (proj1 (updateEmployee_run _ _ _ _))| by rewrite addEmployee_run].
  - unfold handleConfirm, handleDeleteConfirm. st_simpl.
    destruct (deletingEmployee (ui p)); st_simpl; [| done].
    unfold deleteEmployee. by rewrite saveEmployees_run.
Qed.

Lemma settle_filters_wf sample n s (w : W) :
  dash_filters_wf s -> dash_filters_wf (fst (settle sample n s @ w)).
Proof.
  revert s w; induction n as [|n IH]; intros s w Hs; [done|]. cbn [settle].
  destruct (route _ _); st_simpl; try by intros ? [=].
  - destruct (path_of_string to); st_simpl; [| done]. apply IH.
    unfold go. destruct (path_eqb _ _); [done| by intros ? [=]].
  - destruct (app_dash s) as [p|] eqn:Hd; st_simpl; [by intros p' [= <-]; apply Hs|].
    rewrite mount_dashboard_at. intros p' [= <-]. cbn. rewrite mount_run.
    destruct (_ =? 0)%nat; cbn; split; set_solver.
Qed.

Lemma app_event_filters_wf ev s (w : W) :
  dash_filters_wf s -> app_enabled ev s = true -> dash_filters_wf (fst (fst (app_event tz ev s @ w))).
Proof.
  intros Hs Hen. destruct ev as [| e | | fi | e]; cbn [app_event app_enabled] in *; st_simpl; try done.
  - destruct (app_login s) as [[fs pend]|]; st_simpl; [| done]. cbn zeta.
    destruct (_ ≫= path_of_string); [unfold go; destruct (path_eqb _ _)|]; [done| by intros ? [=]| done].
  - destruct (app_dash s) as [p|] eqn:Hd; [| done]. apply andb_true_iff in Hen as [_ Hoff].
    st_simpl. intros p' [= <-]. by apply filters_wf_patch, Hs.
  - destruct (app_dash s) as [p|] eqn:Hd; [| done]. st_simpl.
    intros p' [= <-]. rewrite list_step_filters. by apply Hs.
Qed.

(** C20: the filter state stays within the values the filter bar
    offers: in every reachable state the mounted dashboard's gender
    criterion is empty or a gender name and its status criterion is
    empty, 'active' or 'inactive', although [EmployeeFilters] types both
    as arbitrary strings; so the status test's fall-back branch
    ([!emp.active]) is taken only for 'inactive'. *)
Theorem app_filters_domain sample s (w : W) :
  app_reachable tz sample s w ->
  forall p, app_dash s = Some p ->
    Filters.gender (filters (store p)) ∈ "" :: (gender_toString <$> GENDERS) /\
    Filters.status (filters (store p)) ∈ [""; "active"; "inactive"].
Proof.
  induction 1 as [q w Hw Hst| sample ev s w _ IH Hen].
  - unfold app_boot. st_simpl. apply settle_filters_wf. by intros ? [=].
  - unfold app_step. st_simpl. apply settle_filters_wf, app_event_filters_wf; [exact IH| done].
Qed.

(** *** The composition refines the store's contract *)

(** The collection persisted in the world. *)
Definition stored (w : W) : list Employee.t := getItem employees_of_json EMPLOYEES [] (w_store w).

Lemma settle_stored sample n s (w : W) :
  stored (snd (settle sample n s @ w)) = stored w \/
  (stored w = [] /\ stored (snd (settle sample n s @ w)) = sample).
Proof.
  revert s w; induction n as [|n IH]; intros s w; [by left|]. cbn [settle].
  destruct (route _ _); st_simpl; try by left.
  - destruct (path_of_string to); st_simpl; [apply IH| by left].
  - destruct (app_dash s); st_simpl; [by left|].
    rewrite mount_dashboard_at. cbn [snd]. rewrite mount_run. unfold stored.
    destruct (Nat.eqb_spec (length (getItem employees_of_json EMPLOYEES [] (w_store w))) 0) as [E|E];
      cbn; [right| by left].
    split; [by destruct (getItem employees_of_json EMPLOYEES [] (w_store w))|].
    apply getItem_setItem, employees_roundtrip.
Qed.

Lemma lf_step_frame ev p (w : W) : session_frame w (snd (lf_proc_step ev p @ w)).
Proof.
  destruct ev as [i| |]; cbn [lf_proc_step].
  - by st_simpl.
  - destruct (lf_submit (lp_form p)) as [[fs' c]|]; by st_simpl.
  - destruct (lp_pending p) as [c|]; st_simpl; [| done].
    unfold handleSubmit_finish. st_simpl. apply login_frame.
Qed.

(** Events other than the list's leave the persisted collection alone. *)
Lemma app_event_stored ev s (w : W) :
  (forall e, ev <> ListEv e) -> stored (snd (app_event tz ev s @ w)) = stored w.
Proof.
  intros Hev. unfold stored.
  destruct ev as [| e | | fi | e]; cbn [app_event]; [| | | | by destruct (Hev e)].
  - st_simpl. by rewrite restore_run.
  - destruct (app_login s) as [[fs pend]|]; st_simpl; [| done].
    apply getItem_session_frame, lf_step_frame.
  - unfold Header_logout. st_simpl. apply getItem_session_frame, logout_frame.
  - destruct (app_dash s); by st_simpl.
Qed.

(** An event other than the list's changes the persisted collection only
    through a mount that reseeds it. *)
Lemma app_step_stored sample ev s (w : W) :
  (forall e, ev <> ListEv e) ->
  stored (snd (app_step tz sample ev s @ w)) = stored w \/
  (stored w = [] /\ stored (snd (app_step tz sample ev s @ w)) = sample).
Proof.
  intros Hnl. pose proof (app_event_stored ev s w Hnl) as He.
  unfold app_step. st_simpl. rewrite <- He. apply settle_stored.
Qed.

(** What one offered event does to the persisted collection, for any
    settled state over a well-formed world. *)
Lemma app_step_store_cases sample s ev (w : W) :
  world_wf w -> settled s -> app_enabled ev s = true ->
  let r := app_step tz sample ev s @ w in
  stored (snd r) = stored w \/
  (exists p p' sev, app_dash s = Some p /\ app_dash (fst (fst r)) = Some p' /\
     spec_step (w_now w) (w_now (snd r)) sev (store p) (store p') /\
     stored (snd r) = employees (store p')) \/
  (stored w = [] /\ stored (snd r) = sample).
Proof.
  intros Hw Hset Hen. cbn zeta.
  destruct ev as [| e0 | | fi | e];
    try match goal with
    | |- context [app_step _ _ ?ev _ @ _] =>
        destruct (app_step_stored sample ev s w ltac:(intros ? Heq; discriminate Heq)) as [E|E];
        [left; exact E| right; right; exact E]
    end.
  cbn [app_enabled] in Hen. destruct (app_dash s) as [p|] eqn:Hd; [| done].
  destruct (settled_dash_state s p Hset Hd) as [u ->]. rewrite list_ev_run. cbn [fst snd].
  destruct (list_step_store tz e p w) as [[Hst Hw']|[sev [Hst Hw']]]; [left; by rewrite Hw'|].
  destruct (handle_refines_core sev (store p) w Hw) as [Hspec Hpers].
  destruct (persists sev).
  - right; left. exists p, (fst (fst (list_step tz e p @ w))), sev.
    split; [done| split; [done|]]. rewrite Hst, Hw'.
    split; [exact Hspec| by apply getItem_write_through].
  - left. by rewrite Hw', Hpers.
Qed.

(** C21: the running application refines the employee store's contract
    on the persisted collection: every event the app's renders offer
    either leaves the stored collection as it was, or is one operation of
    spec 4.1 ([spec_step], within the instants of the event) on the
    mounted dashboard's store, after which storage holds the store's new
    collection, or mounts the dashboard over an empty stored collection,
    which reseeds the sample records, a change no operation of the
    contract makes. *)
Theorem app_refines_store_contract sample s ev (w : W) :
  app_reachable tz sample s w -> app_enabled ev s = true ->
  let r := app_step tz sample ev s @ w in
  stored (snd r) = stored w \/
  (exists p p' sev, app_dash s = Some p /\ app_dash (fst (fst r)) = Some p' /\
     spec_step (w_now w) (w_now (snd r)) sev (store p) (store p') /\
     stored (snd r) = employees (store p')) \/
  (stored w = [] /\ stored (snd r) = sample).
Proof.
  intros Hr Hen. destruct (app_reachable_app_inv _ _ _ Hr) as [((Hw & _) & _) Hset].
  exact (app_step_store_cases sample s ev w Hw Hset Hen).
Qed.

(** C22: what a reachable app shows: the loader while the session
    loads at /dashboard and nothing at /login; the sign-in form, exactly
    when no session is stored, with the spinner exactly while a submit is
    pending; or the dashboard, which never throws a hook error, whose
    header names the stored user and whose cards count the collection
    localStorage holds. *)
Theorem app_view_reachable sample s (w : W) max :
  app_reachable tz sample s w ->
  let l := stored w in
  let k := length (List.filter Employee.active l) in
  match App_view tz max s with
  | VLoader v => v = Loader.PageLoader /\ isLoading (app_auth s) = true /\ app_path s = PDashboard
  | VNothing => isLoading (app_auth s) = true /\ app_path s = PLogin
  | VLogin v =>
      app_path s = PLogin /\ stored_session (w_store w) = false /\
      exists fs pend, app_login s = Some (fs, pend) /\ v = LoginForm_view fs /\
        (v_buttonLabel v = Spinner <-> is_Some pend)
  | VDashboard (inl v) =>
      app_path s = PDashboard /\ stored_session (w_store w) = true /\
      Dashboard.dv_user v = header_label (getItem Some USER JNull (w_store w)) /\
      Dashboard.dv_summary v = [("Total Employees", length l); ("Active Employees", k);
                                ("Inactive Employees", (length l - k)%nat)]
  | VDashboard (inr _) => False
  end.
Proof.
  intros H. destruct (app_reachable_app_inv sample s w H) as [(Hw & (Hu & Ha & Hl) & Hlf & Hp) Hs].
  cbn zeta. unfold App_view.
  destruct s as [[[] u []] [] lg d]; unfold settled in Hs; cbn in *; try done.
  - destruct Hs as [_ [p ->]]; cbn.
    destruct (Hp p eq_refl) as [(_ & Hwt & _) _].
    destruct (Dashboard.summary_laws (EmployeeProvider_value (store p))
                (Dashboard.EmployeeProvider_laws _)) as [Hsum _]; cbn in Hsum.
    destruct (Ha eq_refl) as [Hss Hus]. unfold stored. rewrite (getItem_write_through _ _ Hwt).
    by rewrite Hsum, Hus.
  - destruct Hs as [[[fs pend] ->] _]; cbn.
    split; [done| split; [by rewrite (Hl eq_refl)|]]. exists fs, pend.
    split; [done| split; [done|]]. rewrite (Hlf fs pend eq_refl). cbn.
    by destruct (lf_isLoading fs).
Qed.

End Theorems.
End App.

(** ** Worked example

    A first visit to /dashboard: the loader while the session loads, the
    redirect to the sign-in form, the four sign-in events, the dashboard
    with the seeded records. *)

Module AppDemo.
Import EmployeeContext AuthContext AuthViews EmployeeViews App EmployeeStore.Demo ViewsDemo.

Abbreviation DW := (World (gmap StorageKey Json)).

Definition demo_boot := app_boot (S:=gmap StorageKey Json) PDashboard @ demo_world.
Definition demo_sample : list Employee.t := fst (fst demo_boot).

Definition next (ev : AppEvent) (x : AppState * DW) : AppState * DW :=
  (fst (fst (app_step demo_tz demo_sample ev (fst x) @ (snd x))),
   snd (app_step demo_tz demo_sample ev (fst x) @ (snd x))).

Definition demo_start : AppState * DW := (snd (fst demo_boot), snd demo_boot).
Definition demo_loaded := next AuthMount demo_start.
Definition demo_signed_in := fold_left (fun x ev => next ev x) sign_in_events demo_loaded.

Definition demo_page : Page :=
  default (mkPage ui_initial ef_initial initial_state) (app_dash (fst demo_signed_in)).

Lemma demo_reach_start : app_reachable demo_tz demo_sample (fst demo_start) (snd demo_start).
Proof. apply app_start; [apply demo_world_wf| apply demo_stored_ok]. Qed.

Lemma demo_reach_next ev x :
  app_reachable demo_tz demo_sample (fst x) (snd x) -> app_enabled ev (fst x) = true ->
  app_reachable demo_tz demo_sample (fst (next ev x)) (snd (next ev x)).
Proof. intros H He. by apply app_next. Qed.

Lemma demo_reach_signed_in :
  app_reachable demo_tz demo_sample (fst demo_signed_in) (snd demo_signed_in).
Proof.
  unfold demo_signed_in, demo_loaded, sign_in_events. cbn [fold_left].
  repeat (apply demo_reach_next; [| vm_compute; reflexivity]).
  exact demo_reach_start.
Qed.

Lemma demo_signed_in_dash :
  fst demo_signed_in = dash_state (user_json "admin") demo_page.
Proof. vm_compute. reflexivity. Qed.

Lemma demo_reach_dash :
  app_reachable demo_tz demo_sample (dash_state (user_json "admin") demo_page) (snd demo_signed_in).
Proof. rewrite <- demo_signed_in_dash. exact demo_reach_signed_in. Qed.

Lemma demo_dash_page : app_dash (fst demo_signed_in) = Some demo_page.
Proof. by rewrite demo_signed_in_dash. Qed.

Example app_reachable_inv_witness :
  app_reachable demo_tz demo_sample (fst demo_signed_in) (snd demo_signed_in) /\
  (settled (fst demo_signed_in) /\ auth_inv (app_auth (fst demo_signed_in)) (snd demo_signed_in) /\
   (forall p, app_dash (fst demo_signed_in) = Some p ->
      stored_session (w_store (snd demo_signed_in)) = true /\
      write_through (store p) (snd demo_signed_in) /\
      Forall (ts_ok (w_now (snd demo_signed_in))) (employees (store p)) /\ page_inv p)).
Proof.
  split; [exact demo_reach_signed_in|].
  exact (app_reachable_inv demo_tz demo_sample _ _ demo_reach_signed_in).
Defined.

Example dashboard_always_reachable_witness :
  app_reachable demo_tz demo_sample (fst demo_start) (snd demo_start) /\
  (exists s' w' p, app_steps demo_tz demo_sample (fst demo_start) (snd demo_start) s' w' /\
     app_dash s' = Some p /\ ui p = ui_initial /\ filters (store p) = initial_filters /\
     filteredEmployees (store p) = employees (store p)).
Proof.
  split; [exact demo_reach_start|].
  exact (dashboard_always_reachable demo_tz demo_sample _ _ demo_reach_start).
Defined.

Example logout_login_remount_witness :
  app_reachable demo_tz demo_sample (dash_state (user_json "admin") demo_page) (snd demo_signed_in) /\
  (let r1 := app_step demo_tz demo_sample LogoutClick (dash_state (user_json "admin") demo_page)
               @ (snd demo_signed_in) in
   let r2 := app_run demo_tz demo_sample sign_in_events (fst (fst r1)) @ (snd r1) in
   app_dash (fst (fst r1)) = None /\ app_login (fst (fst r1)) = Some (lf_initial, None) /\
   exists p', app_dash (fst r2) = Some p' /\ ui p' = ui_initial /\
     filters (store p') = initial_filters /\
     employees (store p') = match employees (store demo_page) with [] => demo_sample | l => l end).
Proof.
  split; [exact demo_reach_dash|].
  exact (logout_login_remount demo_tz demo_sample _ _ _ demo_reach_dash).
Defined.

Example app_filters_domain_witness :
  app_reachable demo_tz demo_sample (fst demo_signed_in) (snd demo_signed_in) /\
  app_dash (fst demo_signed_in) = Some demo_page /\
  (Filters.gender (filters (store demo_page)) ∈ "" :: (gender_toString <$> GENDERS) /\
   Filters.status (filters (store demo_page)) ∈ [""; "active"; "inactive"]).
Proof.
  split; [exact demo_reach_signed_in| split; [exact demo_dash_page|]].
  exact (app_filters_domain demo_tz demo_sample _ _ demo_reach_signed_in demo_page demo_dash_page).
Defined.

(** Toggling the first listed record on the signed-in dashboard. *)
Definition demo_first : Employee.t :=
  default (new_employee (FormData.mk "" Male "" "" "" true) "" 0 0)
    (head (filteredEmployees (store demo_page))).

Definition demo_toggle : AppEvent := ListEv (Row demo_first RowToggle).

Lemma demo_toggle_enabled : app_enabled demo_toggle (fst demo_signed_in) = true.
Proof. vm_compute. reflexivity. Qed.

Example app_refines_store_contract_witness :
  app_reachable demo_tz demo_sample (fst demo_signed_in) (snd demo_signed_in) /\
  app_enabled demo_toggle (fst demo_signed_in) = true /\
  (let r := app_step demo_tz demo_sample demo_toggle (fst demo_signed_in) @ (snd demo_signed_in) in
   stored (snd r) = stored (snd demo_signed_in) \/
   (exists p p' sev, app_dash (fst demo_signed_in) = Some p /\ app_dash (fst (fst r)) = Some p' /\
      StoreSpec.spec_step (w_now (snd demo_signed_in)) (w_now (snd r)) sev (store p) (store p') /\
      stored (snd r) = employees (store p')) \/
   (stored (snd demo_signed_in) = [] /\ stored (snd r) = demo_sample)).
Proof.
  split; [exact demo_reach_signed_in| split; [exact demo_toggle_enabled|]].
  exact (app_refines_store_contract demo_tz demo_sample _ _ _ demo_reach_signed_in demo_toggle_enabled).
Defined.
Example app_view_reachable_witness :
  app_reachable demo_tz demo_sample (fst demo_signed_in) (snd demo_signed_in) /\
  (let w := snd demo_signed_in in
   let l := stored w in
   let k := length (List.filter Employee.active l) in
   match App_view demo_tz demo_max (fst demo_signed_in) with
   | VLoader v => v = Loader.PageLoader /\ isLoading (app_auth (fst demo_signed_in)) = true /\
                  app_path (fst demo_signed_in) = PDashboard
   | VNothing => isLoading (app_auth (fst demo_signed_in)) = true /\ app_path (fst demo_signed_in) = PLogin
   | VLogin v =>
       app_path (fst demo_signed_in) = PLogin /\ stored_session (w_store w) = false /\
       exists fs pend, app_login (fst demo_signed_in) = Some (fs, pend) /\ v = LoginForm_view fs /\
         (v_buttonLabel v = Spinner <-> is_Some pend)
   | VDashboard (inl v) =>
       app_path (fst demo_signed_in) = PDashboard /\ stored_session (w_store w) = true /\
       Dashboard.dv_user v = header_label (getItem Some USER JNull (w_store w)) /\
       Dashboard.dv_summary v = [("Total Employees", length l); ("Active Employees", k);
                                 ("Inactive Employees", (length l - k)%nat)]
   | VDashboard (inr _) => False
   end).
Proof.
  split; [exact demo_reach_signed_in|].
  exact (app_view_reachable demo_tz demo_sample _ _ demo_max demo_reach_signed_in).
Defined.
End AppDemo.
