(* ===== verification/Browser.v ===== *)
(** * Several tabs over one localStorage

    Spec 5: "there is no multi-tab or multi-process synchronization —
    concurrent edits from two open views of the same persisted store are
    last-write-wins with no conflict detection".  This file runs several
    copies of the application of [App] side by side, each with its own
    module instance (its own [SAMPLE_EMPLOYEES]), session provider and
    mounted components, over one shared world: one clock, one random
    stream and one storage.  Neither context listens to the browser's
    [storage] event, so a tab learns of another tab's writes only when it
    mounts a provider.

    - [Browser]: the open tabs, a [gmap] from a tab number to the tab's
      module-level sample records and application state; the events open
      a tab at a path (the page load of [App.app_boot]), close it, or
      deliver one of the application's events to one tab; one tab steps
      at a time, as the browser's single event loop runs them.
    - The theorems: the invariants that survive sharing the storage (the
      world stays well formed, nothing is stamped in the future, every
      tab is settled and keeps its list's invariant); a single tab is the
      application of [App]; every offered event leaves storage as it was,
      or holds the writing tab's collection, or reseeds it (last write
      wins); a toggle in one tab is undone by a later write of a tab that
      did not see it; and a logout in one tab leaves the other tabs
      signed in and writing. *)

From S2P Require Import Prelude JsString Dates Json Storage World EmployeeTypes EmployeeStore StoreSpec AuthStore AuthViews EmployeeViews Dashboard App.
From Stdlib Require Import String.
From stdpp Require Import strings gmap.

Open Scope string_scope.

Module Browser.
Import EmployeeContext StoreSpec AuthContext AuthViews EmployeeViews App.

(** A tab: its module instance's sample records and its application. *)
Record Tab : Type := mkTab {
  tab_sample : list Employee.t;
  tab_app : AppState;
}.

Abbreviation Browser := (gmap nat Tab).

Inductive BrowserEvent : Type :=
| TabOpen (t : nat) (q : Path)
| TabClose (t : nat)
| TabEv (t : nat) (ev : AppEvent).

(** A tab number is opened when it is free; an event reaches an open
    tab when that tab's render offers it. *)
Definition browser_enabled (be : BrowserEvent) (b : Browser) : bool :=
  match be with
  | TabOpen t _ => bool_decide (b !! t = None)
  | TabClose t => bool_decide (is_Some (b !! t))
  | TabEv t ev => match b !! t with Some tb => app_enabled ev (tab_app tb) | None => false end
  end.

Section Browser.
Context {S : Type} `{!LocalStorage S}.
Abbreviation W := (World S).
Context (tz : Z).

Definition browser_step (be : BrowserEvent) (b : Browser) : St W Browser :=
  match be with
  | TabOpen t q =>
      r ← app_boot q;
      mret (<[t := mkTab (fst r) (snd r)]> b)
  | TabClose t => mret (delete t b)
  | TabEv t ev =>
      match b !! t with
      | Some tb =>
          r ← app_step tz (tab_sample tb) ev (tab_app tb);
          mret (<[t := mkTab (tab_sample tb) (fst r)]> b)
      | None => mret b
      end
  end.

(** The browser's lifetime: no tab open over a storage an earlier
    session left, then the events the tabs offer, one at a time. *)
Inductive browser_reachable : Browser -> W -> Prop :=
| browser_start (w : W) : world_wf w -> stored_ok w -> browser_reachable ∅ w
| browser_next be b (w : W) :
    browser_reachable b w -> browser_enabled be b = true ->
    browser_reachable (fst (browser_step be b @ w)) (snd (browser_step be b @ w)).
End Browser.

(** ** Theorems *)

Section Theorems.
Context {S : Type} `{!LocalStorage S} `{!LocalStorageLaws S}.
Abbreviation W := (World S).
Context (tz : Z).

(** What a tab keeps while other tabs write: the world facts, its
    sign-in form pending exactly while loading, and its dashboard's
    records stamped in the past with the list's invariant.  Unlike
    [app_inv] it asks nothing of the stored session or the stored
    collection, which other tabs change. *)
Definition tab_ok (sample : list Employee.t) (s : AppState) (w : W) : Prop :=
  world_inv sample w /\
  (forall fs pend, app_login s = Some (fs, pend) -> (is_Some pend <-> lf_isLoading fs = true)) /\
  (forall p, app_dash s = Some p -> Forall (ts_ok (w_now w)) (employees (store p)) /\ page_inv p).

Lemma app_inv_tab_ok sample s (w : W) : app_inv sample s w -> tab_ok sample s w.
Proof.
  intros (Hw & _ & Hl & Hp). split; [done| split; [done|]].
  intros p Hd. destruct (Hp p Hd) as [(_ & _ & Hts) Hpi]. done.
Qed.

(** A tab's facts survive another tab's step: only the clock moved. *)
Lemma tab_ok_later sample s (w w' : W) :
  world_wf w' -> stored_ok w' -> (w_now w <= w_now w')%Z ->
  tab_ok sample s w -> tab_ok sample s w'.
Proof.
  intros Hw' Hst' Hle ((_ & _ & Hs) & Hl & Hp).
  split; [split; [done| split; [done| by eapply Forall_ts_ok_later]]| split; [done|]].
  intros p Hd. destruct (Hp p Hd) as [Hts Hpi]. split; [by eapply Forall_ts_ok_later| done].
Qed.

Lemma tab_ok_drop sample s q (w : W) :
  tab_ok sample s w -> tab_ok sample (mkApp (app_auth s) q None None) w.
Proof. intros (Hw & _ & _). split; [done| split; done]. Qed.

Lemma tab_ok_go sample q s (w : W) : tab_ok sample s w -> tab_ok sample (go q s) w.
Proof. unfold go. destruct (path_eqb _ _); [done| apply tab_ok_drop]. Qed.

(** A handler's world facts, without the write-through of [emp_inv]:
    storage is left alone or holds the handler's new collection. *)
Lemma handle_world_ok sample ev st (w : W) :
  world_inv sample w -> Forall (ts_ok (w_now w)) (employees st) ->
  world_inv sample (snd (handle ev st @ w)) /\
  Forall (ts_ok (w_now (snd (handle ev st @ w)))) (employees (fst (handle ev st @ w))).
Proof.
  intros (Hw & Hst & Hs) Hts. destruct (handle_mono ev st w Hw) as [Hw' Hle].
  pose proof (handle_ts ev st w Hw Hts) as Hts'.
  split; [| done]. split; [done| split; [| by eapply Forall_ts_ok_later]].
  destruct (handle_refines_core ev st w Hw) as [_ Hpers]. destruct (persists ev).
  - unfold stored_ok. by rewrite (getItem_write_through _ _ Hpers).
  - by rewrite Hpers.
Qed.

Lemma settle_tab_ok sample n s (w : W) :
  tab_ok sample s w -> tab_ok sample (fst (settle sample n s @ w)) (snd (settle sample n s @ w)).
Proof.
  revert s w; induction n as [|n IH]; intros s w Hi; [done|].
  cbn [settle]. destruct (route (app_auth s) (app_path s)).
  1, 2: by apply tab_ok_drop.
  - destruct (path_of_string to); [apply IH; by apply tab_ok_go| done].
  - destruct (app_dash s) as [p|] eqn:Hd.
    + destruct Hi as (Hw & _ & Hp). split; [done| split; [done|]].
      intros p' [= <-]. by apply Hp.
    + rewrite mount_dashboard_at. destruct Hi as (Hw & _ & _).
      split; [by apply mount_world_inv| split; [done|]].
      intros p [= <-]. split; [apply (emp_inv_mount sample w Hw)| apply page_inv_initial].
  - destruct Hi as (Hw & Hl & Hp). split; [done| split; [|done]].
    cbn. destruct (app_login s) as [[fs pend]|]; cbn; intros ? ? [= <- <-]; [by eapply Hl|].
    split; [by intros [? ?]| done].
Qed.

(** The session store's handlers keep a tab's facts: they change only
    AUTH and USER. *)
Lemma tab_ok_session sample s s' (w w' : W) :
  session_frame w w' -> app_dash s' = app_dash s ->
  (forall fs pend, app_login s' = Some (fs, pend) -> (is_Some pend <-> lf_isLoading fs = true)) ->
  tab_ok sample s w -> tab_ok sample s' w'.
Proof.
  intros Hf Hd Hl (Hw & _ & Hp). pose proof Hf as (Hn & _).
  split; [by eapply world_inv_session| split; [done|]]. rewrite Hd, Hn. exact Hp.
Qed.

(** A render pass reads storage, and writes it only to reseed: the
    clock does not move. *)
Lemma settle_now sample n s (w : W) : w_now (snd (settle sample n s @ w)) = w_now w.
Proof.
  revert s w; induction n as [|n IH]; intros s w; [done|]. cbn [settle].
  destruct (route _ _); st_simpl; try done.
  - destruct (path_of_string to); st_simpl; [apply IH| done].
  - destruct (app_dash s); st_simpl; [done|].
    rewrite mount_dashboard_at. cbn [snd]. rewrite mount_run. by destruct (_ =? 0)%nat.
Qed.

Lemma app_event_tab_ok sample ev s (w : W) :
  tab_ok sample s w -> app_enabled ev s = true ->
  tab_ok sample (fst (fst (app_event tz ev s @ w))) (snd (app_event tz ev s @ w)) /\
  (w_now w <= w_now (snd (app_event tz ev s @ w)))%Z.
Proof.
  intros Hi Hen. pose proof Hi as ((Hw & _) & Hl & Hp).
  destruct ev as [| e | | fi | e]; cbn [app_event app_enabled] in *.
  - st_simpl. rewrite restore_run. cbn [fst snd]. split; [exact Hi| lia].
  - destruct (app_login s) as [[fs pend]|] eqn:Hls; [| st_simpl; split; [done| lia]].
    pose proof (lf_step_frame e (mkLFP fs pend (app_auth s)) w) as Hf.
    pose proof (lf_pending_step e (mkLFP fs pend (app_auth s)) w (Hl fs pend eq_refl)) as Hpend.
    st_simpl. cbn zeta. split; [| destruct Hf as [-> _]; lia].
    match goal with
    | |- tab_ok _ (match ?nav with Some q => go q ?s1 | None => _ end) _ =>
        assert (H1 : tab_ok sample s1 (snd (lf_proc_step e (mkLFP fs pend (app_auth s)) @ w)));
        [| destruct nav; [by apply tab_ok_go| exact H1]]
    end.
    apply (tab_ok_session sample s _ w _ Hf); [done| | exact Hi]. by intros fs' pend' [= <- <-].
  - pose proof (logout_frame (app_auth s) w) as Hf. unfold Header_logout. st_simpl.
    split; [| destruct Hf as [-> _]; lia].
    apply (tab_ok_session sample s _ w _ Hf); [done| exact Hl| exact Hi].
  - destruct (app_dash s) as [p|] eqn:Hd; [| done]. st_simpl. split; [| lia].
    split; [exact (proj1 Hi)| split; [done|]]. intros p' [= <-]. destruct (Hp p eq_refl) as [Hts Hpi].
    split; [exact Hts| destruct p; exact Hpi].
  - destruct (app_dash s) as [p|] eqn:Hd; [| done]. destruct (Hp p eq_refl) as [Hts Hpi].
    pose proof (page_inv_step tz e p w Hpi) as Hpi'.
    destruct (list_step_store tz e p w) as [[Hst Hw'] | [sev [Hst Hw']]]; st_simpl;
      rewrite Hw'; cbn [app_login app_dash].
    + split; [| lia]. split; [exact (proj1 Hi)| split; [done|]]. intros p' [= <-]. by rewrite Hst.
    + destruct (handle_world_ok sample sev (store p) w (proj1 Hi) Hts) as [Hwi Hts'].
      split; [| apply (handle_mono sev (store p) w Hw)].
      split; [done| split; [done|]]. intros p' [= <-]. by rewrite Hst.
Qed.

Lemma app_step_tab_ok sample ev s (w : W) :
  tab_ok sample s w -> app_enabled ev s = true ->
  let r := app_step tz sample ev s @ w in
  tab_ok sample (fst (fst r)) (snd r) /\ settled (fst (fst r)) /\ (w_now w <= w_now (snd r))%Z.
Proof.
  intros Hi Hen. cbn zeta. destruct (app_event_tab_ok sample ev s w Hi Hen) as [Hi' Hle].
  unfold app_step. st_simpl.
  split; [by apply settle_tab_ok| split; [apply settle_settled| by rewrite settle_now]].
Qed.

(** A page load: the module's samples, then the first render pass. *)
Lemma app_boot_tab_ok q (w : W) :
  world_wf w -> stored_ok w ->
  let r := app_boot q @ w in
  tab_ok (fst (fst r)) (snd (fst r)) (snd r) /\ settled (snd (fst r)) /\ (w_now w <= w_now (snd r))%Z.
Proof.
  intros Hw Hst. cbn zeta. destruct (SAMPLE_EMPLOYEES_ts w Hw) as (_ & Hle & _).
  pose proof (app_inv_boot q w Hw Hst) as Hi.
  unfold app_boot. st_simpl.
  split; [by apply settle_tab_ok, app_inv_tab_ok| split; [apply settle_settled| by rewrite settle_now]].
Qed.

(** *** The browser's invariant *)

Definition browser_inv (b : Browser) (w : W) : Prop :=
  world_wf w /\ stored_ok w /\
  map_Forall (fun _ tb => settled (tab_app tb) /\ tab_ok (tab_sample tb) (tab_app tb) w) b.

Lemma tabs_later (b : Browser) (w w' : W) :
  world_wf w' -> stored_ok w' -> (w_now w <= w_now w')%Z ->
  map_Forall (fun _ tb => settled (tab_app tb) /\ tab_ok (tab_sample tb) (tab_app tb) w) b ->
  map_Forall (fun _ tb => settled (tab_app tb) /\ tab_ok (tab_sample tb) (tab_app tb) w') b.
Proof.
  intros Hw' Hst' Hle Hb. eapply map_Forall_impl; [exact Hb|]. intros t tb [Hs Hi].
  split; [done| by eapply tab_ok_later].
Qed.

Lemma browser_step_inv be b (w : W) :
  browser_inv b w -> browser_enabled be b = true ->
  browser_inv (fst (browser_step tz be b @ w)) (snd (browser_step tz be b @ w)).
Proof.
  intros (Hw & Hst & Hb) Hen. destruct be as [t q | t | t ev]; cbn [browser_step browser_enabled] in *.
  - destruct (app_boot_tab_ok q w Hw Hst) as (Hi & Hs & Hle). st_simpl.
    pose proof Hi as ((Hw' & Hst' & _) & _).
    split; [exact Hw'| split; [exact Hst'|]]. apply map_Forall_insert_2; [exact (conj Hs Hi)|].
    exact (tabs_later b w _ Hw' Hst' Hle Hb).
  - st_simpl. split; [done| split; [done|]]. by apply map_Forall_delete.
  - destruct (b !! t) as [tb|] eqn:Ht; [| done].
    destruct (Hb t tb Ht) as [Hs Hi].
    destruct (app_step_tab_ok (tab_sample tb) ev (tab_app tb) w Hi Hen) as (Hi' & Hs' & Hle).
    st_simpl. pose proof Hi' as ((Hw' & Hst' & _) & _).
    split; [exact Hw'| split; [exact Hst'|]]. apply map_Forall_insert_2; [exact (conj Hs' Hi')|].
    exact (tabs_later b w _ Hw' Hst' Hle Hb).
Qed.

Lemma browser_reachable_browser_inv b (w : W) : browser_reachable tz b w -> browser_inv b w.
Proof.
  induction 1 as [w Hw Hst| be b w _ IH Hen].
  - split; [done| split; [done| apply map_Forall_empty]].
  - by apply browser_step_inv.
Qed.

(** C23: the invariants that survive several tabs writing one storage:
    in every reachable browser the world stays well formed and the stored
    collection is stamped in the clock's past, and every open tab is
    settled (no pending redirect, exactly its route's components
    mounted), its module's sample records are stamped in the past, and
    its mounted dashboard's records are too, with a record being edited
    only while the form is open. *)
Theorem browser_reachable_inv b (w : W) :
  browser_reachable tz b w ->
  world_wf w /\ stored_ok w /\
  forall t tb, b !! t = Some tb ->
    settled (tab_app tb) /\ Forall (ts_ok (w_now w)) (tab_sample tb) /\
    (forall p, app_dash (tab_app tb) = Some p ->
       Forall (ts_ok (w_now w)) (employees (store p)) /\ page_inv p).
Proof.
  intros H. destruct (browser_reachable_browser_inv b w H) as (Hw & Hst & Hb).
  split; [done| split; [done|]]. intros t tb Ht.
  destruct (Hb t tb Ht) as [Hs ((_ & _ & Hsm) & _ & Hp)]. done.
Qed.

(** *** A single tab is the application *)

(** The browser extends the application of [App]: every state the
    application reaches from a page load is the state of a browser with
    that one tab open, over the same world. *)
Theorem app_in_browser t sample s (w : W) :
  app_reachable tz sample s w -> browser_reachable tz {[t := mkTab sample s]} w.
Proof.
  induction 1 as [q w Hw Hst| sample ev s w _ IH Hen].
  - assert (Hen : browser_enabled (TabOpen t q) ∅ = true) by (cbn [browser_enabled]; by apply bool_decide_eq_true, lookup_empty).
    pose proof (browser_next tz _ _ _ (browser_start tz w Hw Hst) Hen) as H.
    cbn [browser_step] in H. st_simpl. by rewrite insert_empty in H.
  - assert (Hen' : browser_enabled (TabEv t ev) {[t := mkTab sample s]} = true)
      by (unfold browser_enabled; rewrite lookup_singleton_eq; exact Hen).
    pose proof (browser_next tz _ _ _ IH Hen') as H.
    cbn [browser_step] in H. rewrite lookup_singleton_eq in H. st_simpl.
    by rewrite insert_singleton_eq in H.
Qed.

(** *** Last write wins *)

(** A tab's step changes that tab only. *)
Lemma browser_ev_run b t tb ev (w : W) :
  b !! t = Some tb ->
  browser_step tz (TabEv t ev) b @ w =
    (<[t := mkTab (tab_sample tb) (fst (fst (app_step tz (tab_sample tb) ev (tab_app tb) @ w)))]> b,
     snd (app_step tz (tab_sample tb) ev (tab_app tb) @ w)).
Proof. intros Ht. cbn [browser_step]. rewrite Ht. by st_simpl. Qed.

(** C24: last write wins: in a reachable browser, an event one tab's
    render offers leaves the other tabs as they were, and leaves the
    stored collection as it was, or is one operation of spec 4.1 on that
    tab's own store (which may be stale: it was loaded when the tab
    mounted its dashboard) after which storage holds exactly that tab's
    collection, whatever other tabs wrote before; or the tab mounts its
    dashboard over an empty stored collection and writes its own module's
    samples. *)
Theorem last_write_wins b t tb ev (w : W) :
  browser_reachable tz b w -> b !! t = Some tb -> app_enabled ev (tab_app tb) = true ->
  let r := browser_step tz (TabEv t ev) b @ w in
  (forall t', t' <> t -> fst r !! t' = b !! t') /\
  exists s', fst r !! t = Some (mkTab (tab_sample tb) s') /\
    (stored (snd r) = stored w \/
     (exists p p' sev, app_dash (tab_app tb) = Some p /\ app_dash s' = Some p' /\
        spec_step (w_now w) (w_now (snd r)) sev (store p) (store p') /\
        stored (snd r) = employees (store p')) \/
     (stored w = [] /\ stored (snd r) = tab_sample tb)).
Proof.
  intros H Ht Hen. cbn zeta. destruct (browser_reachable_browser_inv b w H) as (Hw & _ & Hb).
  destruct (Hb t tb Ht) as [Hs _]. rewrite (browser_ev_run b t tb ev w Ht). cbn [fst snd].
  split; [intros t' Hne; by rewrite lookup_insert_ne|].
  eexists. split; [by rewrite lookup_insert_eq|].
  exact (app_step_store_cases tz (tab_sample tb) (tab_app tb) ev w Hw Hs Hen).
Qed.

(** *** Lost updates *)

(** After a toggle, storage holds the toggled collection. *)
Lemma toggle_stored i st (w : W) :
  stored (snd (toggleEmployeeStatus i st @ w)) = employees (fst (toggleEmployeeStatus i st @ w)).
Proof. unfold stored. apply getItem_write_through, write_through_bind_save. Qed.

(** A row's Toggle button on a tab showing its dashboard. *)
Lemma browser_toggle_run b t sm u p e (w : W) :
  b !! t = Some (mkTab sm (dash_state u p)) ->
  browser_step tz (TabEv t (ListEv (Row e RowToggle))) b @ w =
    (<[t := mkTab sm (dash_state u (mkPage (ui p) (form p)
                (fst (toggleEmployeeStatus (Employee.id e) (store p) @ w))))]> b,
     snd (toggleEmployeeStatus (Employee.id e) (store p) @ w)).
Proof.
  intros Ht. rewrite (browser_ev_run b t _ _ w Ht). cbn [tab_sample tab_app].
  rewrite list_ev_run. unfold list_step. by st_simpl.
Qed.

Lemma reachable_dash_tab b t tb p (w : W) :
  browser_reachable tz b w -> b !! t = Some tb -> app_dash (tab_app tb) = Some p ->
  exists u, tb = mkTab (tab_sample tb) (dash_state u p).
Proof.
  intros H Ht Hd. destruct (browser_reachable_browser_inv b w H) as (_ & _ & Hb).
  destruct (Hb t tb Ht) as [Hs _]. destruct (settled_dash_state _ p Hs Hd) as [u Hu].
  exists u. by destruct tb; cbn in *; subst.
Qed.

(** C25: a lost update: two tabs show their dashboards over the same
    collection [l]; tab [t1] toggles the status of record [e1], which
    reaches storage; then tab [t2], which has not seen that write, toggles
    another record [e2]: storage now holds [t2]'s collection, in which
    the records with [e1]'s id are exactly as in [l]: [t1]'s change is
    lost without any sign, as spec 5's last-write-wins allows. *)
Theorem lost_update b t1 t2 tb1 tb2 p1 p2 e1 e2 (w : W) :
  browser_reachable tz b w -> t1 <> t2 ->
  b !! t1 = Some tb1 -> app_dash (tab_app tb1) = Some p1 ->
  b !! t2 = Some tb2 -> app_dash (tab_app tb2) = Some p2 ->
  employees (store p1) = employees (store p2) ->
  Employee.id e1 <> Employee.id e2 ->
  let r1 := browser_step tz (TabEv t1 (ListEv (Row e1 RowToggle))) b @ w in
  let r2 := browser_step tz (TabEv t2 (ListEv (Row e2 RowToggle))) (fst r1) @ (snd r1) in
  Employee.active <$> List.filter (id_is (Employee.id e1)) (stored (snd r1)) =
    negb ∘ Employee.active <$> List.filter (id_is (Employee.id e1)) (employees (store p1)) /\
  List.filter (id_is (Employee.id e1)) (stored (snd r2)) =
    List.filter (id_is (Employee.id e1)) (employees (store p1)).
Proof.
  intros H Hne Ht1 Hd1 Ht2 Hd2 Hl Hid. cbn zeta.
  destruct (reachable_dash_tab b t1 tb1 p1 w H Ht1 Hd1) as [u1 E1].
  destruct (reachable_dash_tab b t2 tb2 p2 w H Ht2 Hd2) as [u2 E2].
  rewrite E1 in Ht1. rewrite E2 in Ht2.
  rewrite (browser_toggle_run b t1 _ u1 p1 e1 w Ht1). cbn [fst snd].
  rewrite (browser_toggle_run _ t2 _ u2 p2 e2 _) by (rewrite lookup_insert_ne; done).
  cbn [fst snd]. rewrite !toggle_stored, !(proj1 (toggleEmployeeStatus_run _ _ _)). cbn.
  split; [apply toggle_filter_same|]. rewrite Hl. by apply toggle_filter_other.
Qed.

(** *** A logout in one tab *)

Lemma stored_session_employee_frame (w w' : W) :
  employee_frame w w' -> stored_session (w_store w') = stored_session (w_store w).
Proof. intros [Ha Hu]. unfold stored_session, getItem. by rewrite Ha, Hu. Qed.

(** C26: a logout in one tab does not reach the others: after tab [t1]
    signs out, no session is stored, yet tab [t2] still shows its
    dashboard as signed in (the single tab's agreement between the
    session state and the stored session, C16, fails across tabs), and a
    Toggle there still writes its collection to storage, with no session
    stored. *)
Theorem logout_leaves_other_tabs b t1 t2 tb1 tb2 p2 e (w : W) :
  browser_reachable tz b w -> t1 <> t2 ->
  b !! t1 = Some tb1 -> app_enabled LogoutClick (tab_app tb1) = true ->
  b !! t2 = Some tb2 -> app_dash (tab_app tb2) = Some p2 ->
  let r1 := browser_step tz (TabEv t1 LogoutClick) b @ w in
  let r2 := browser_step tz (TabEv t2 (ListEv (Row e RowToggle))) (fst r1) @ (snd r1) in
  stored_session (w_store (snd r1)) = false /\
  fst r1 !! t2 = Some tb2 /\ isAuthenticated (app_auth (tab_app tb2)) = true /\
  stored_session (w_store (snd r2)) = false /\
  exists p2', fst r2 !! t2 = Some (mkTab (tab_sample tb2) (mkApp (app_auth (tab_app tb2)) PDashboard None (Some p2'))) /\
    stored (snd r2) = employees (store p2').
Proof.
  intros H Hne Ht1 Hen Ht2 Hd2. cbn zeta.
  destruct (app_dash (tab_app tb1)) as [p1|] eqn:Hd1; [| by cbn in Hen; rewrite Hd1 in Hen].
  destruct (reachable_dash_tab b t1 tb1 p1 w H Ht1 Hd1) as [u1 E1].
  destruct (reachable_dash_tab b t2 tb2 p2 w H Ht2 Hd2) as [u2 E2].
  rewrite (browser_ev_run b t1 tb1 LogoutClick w Ht1). rewrite E1. cbn [tab_sample tab_app].
  rewrite logout_app_run. cbn [fst snd].
  assert (Ht2' : <[t1 := mkTab (tab_sample tb1) (signed_out_form JNull lf_initial None)]> b !! t2 = Some tb2)
    by (rewrite lookup_insert_ne; done).
  rewrite E2 in Ht2'. rewrite (browser_toggle_run _ t2 _ u2 p2 e _ Ht2'). cbn [fst snd].
  rewrite logout_run. cbn [snd]. rewrite stored_session_logout.
  rewrite E2. cbn [tab_sample tab_app app_auth].
  split; [done| split; [exact Ht2'| split; [done|]]].
  split; [rewrite (stored_session_employee_frame _ _ (handle_employee_frame (EvToggle (Employee.id e)) (store p2) _));
          apply stored_session_logout|].
  eexists. split; [by rewrite lookup_insert_eq| apply toggle_stored].
Qed.
End Theorems.
End Browser.

(** ** Worked example

    Two tabs over the demonstration world: tab 0 loads /dashboard, is
    sent to the sign-in form and signs in; tab 1 then loads /dashboard,
    finds the stored session and mounts its dashboard over the collection
    tab 0 stored. *)

Module BrowserDemo.
Import EmployeeContext AuthContext AuthViews EmployeeViews App Browser EmployeeStore.Demo ViewsDemo.

Abbreviation DW := (World (gmap StorageKey Json)).

Definition bnext (be : BrowserEvent) (x : Browser * DW) : Browser * DW :=
  (fst (browser_step demo_tz be (fst x) @ (snd x)), snd (browser_step demo_tz be (fst x) @ (snd x))).

Definition two_tabs_events : list BrowserEvent :=
  [TabOpen 0 PDashboard; TabEv 0 AuthMount] ++ (TabEv 0 <$> sign_in_events) ++
  [TabOpen 1 PDashboard; TabEv 1 AuthMount].

Definition two_tabs : Browser * DW :=
  fold_left (fun x be => bnext be x) two_tabs_events (∅, demo_world).

Lemma bnext_reachable be x :
  browser_reachable demo_tz (fst x) (snd x) -> browser_enabled be (fst x) = true ->
  browser_reachable demo_tz (fst (bnext be x)) (snd (bnext be x)).
Proof. intros H He. by apply browser_next. Qed.

Lemma two_tabs_reachable : browser_reachable demo_tz (fst two_tabs) (snd two_tabs).
Proof.
  unfold two_tabs, two_tabs_events, sign_in_events. cbn [fold_left app fmap list_fmap].
  repeat (apply bnext_reachable; [| vm_compute; reflexivity]).
  apply browser_start; [apply demo_world_wf| apply demo_stored_ok].
Qed.

Definition dummy_tab : Tab := mkTab [] (app_init PLogin).
Definition tab0 : Tab := default dummy_tab (fst two_tabs !! 0).
Definition tab1 : Tab := default dummy_tab (fst two_tabs !! 1).
Definition page0 : Page := default (mkPage ui_initial ef_initial initial_state) (app_dash (tab_app tab0)).
Definition page1 : Page := default (mkPage ui_initial ef_initial initial_state) (app_dash (tab_app tab1)).
Definition rec0 : Employee.t := List.nth 0 (employees (store page0)) (Employee.mk "" "" Male "" "" "" true 0 0).
Definition rec1 : Employee.t := List.nth 1 (employees (store page0)) (Employee.mk "" "" Male "" "" "" true 0 0).

Lemma two_tabs_0 : fst two_tabs !! 0 = Some tab0.
Proof. vm_compute. reflexivity. Qed.
Lemma two_tabs_1 : fst two_tabs !! 1 = Some tab1.
Proof. vm_compute. reflexivity. Qed.
Lemma tab0_dash : app_dash (tab_app tab0) = Some page0.
Proof. vm_compute. reflexivity. Qed.
Lemma tab1_dash : app_dash (tab_app tab1) = Some page1.
Proof. vm_compute. reflexivity. Qed.
Lemma same_collection : employees (store page0) = employees (store page1).
Proof. vm_compute. reflexivity. Qed.
Lemma rec_ids_differ : Employee.id rec0 <> Employee.id rec1.
Proof. vm_compute. discriminate. Qed.

Example browser_reachable_inv_witness :
  browser_reachable demo_tz (fst two_tabs) (snd two_tabs) /\
  (world_wf (snd two_tabs) /\ stored_ok (snd two_tabs) /\
   forall t tb, fst two_tabs !! t = Some tb ->
     settled (tab_app tb) /\ Forall (ts_ok (w_now (snd two_tabs))) (tab_sample tb) /\
     (forall p, app_dash (tab_app tb) = Some p ->
        Forall (ts_ok (w_now (snd two_tabs))) (employees (store p)) /\ page_inv p)).
Proof.
  split; [exact two_tabs_reachable|].
  exact (browser_reachable_inv demo_tz _ _ two_tabs_reachable).
Defined.

Definition toggle1 : AppEvent := ListEv (Row rec0 RowToggle).

Lemma toggle1_enabled : app_enabled toggle1 (tab_app tab1) = true.
Proof. vm_compute. reflexivity. Qed.

Example last_write_wins_witness :
  browser_reachable demo_tz (fst two_tabs) (snd two_tabs) /\
  fst two_tabs !! 1 = Some tab1 /\ app_enabled toggle1 (tab_app tab1) = true /\
  (let r := browser_step demo_tz (TabEv 1 toggle1) (fst two_tabs) @ (snd two_tabs) in
   (forall t', t' <> 1 -> fst r !! t' = fst two_tabs !! t') /\
   exists s', fst r !! 1 = Some (mkTab (tab_sample tab1) s') /\
     (stored (snd r) = stored (snd two_tabs) \/
      (exists p p' sev, app_dash (tab_app tab1) = Some p /\ app_dash s' = Some p' /\
         StoreSpec.spec_step (w_now (snd two_tabs)) (w_now (snd r)) sev (store p) (store p') /\
         stored (snd r) = employees (store p')) \/
      (stored (snd two_tabs) = [] /\ stored (snd r) = tab_sample tab1))).
Proof.
  split; [exact two_tabs_reachable| split; [exact two_tabs_1| split; [exact toggle1_enabled|]]].
  exact (last_write_wins demo_tz _ 1 _ _ _ two_tabs_reachable two_tabs_1 toggle1_enabled).
Defined.

Example lost_update_witness :
  browser_reachable demo_tz (fst two_tabs) (snd two_tabs) /\ 0 <> 1 /\
  fst two_tabs !! 0 = Some tab0 /\ app_dash (tab_app tab0) = Some page0 /\
  fst two_tabs !! 1 = Some tab1 /\ app_dash (tab_app tab1) = Some page1 /\
  employees (store page0) = employees (store page1) /\ Employee.id rec0 <> Employee.id rec1 /\
  (let r1 := browser_step demo_tz (TabEv 0 (ListEv (Row rec0 RowToggle))) (fst two_tabs) @ (snd two_tabs) in
   let r2 := browser_step demo_tz (TabEv 1 (ListEv (Row rec1 RowToggle))) (fst r1) @ (snd r1) in
   Employee.active <$> List.filter (id_is (Employee.id rec0)) (stored (snd r1)) =
     negb ∘ Employee.active <$> List.filter (id_is (Employee.id rec0)) (employees (store page0)) /\
   List.filter (id_is (Employee.id rec0)) (stored (snd r2)) =
     List.filter (id_is (Employee.id rec0)) (employees (store page0))).
Proof.
  split; [exact two_tabs_reachable| split; [lia|]].
  split; [exact two_tabs_0| split; [exact tab0_dash|]].
  split; [exact two_tabs_1| split; [exact tab1_dash|]].
  split; [exact same_collection| split; [exact rec_ids_differ|]].
  exact (lost_update demo_tz _ 0 1 _ _ _ _ _ _ _ two_tabs_reachable ltac:(lia)
           two_tabs_0 tab0_dash two_tabs_1 tab1_dash same_collection rec_ids_differ).
Defined.

Lemma logout0_enabled : app_enabled LogoutClick (tab_app tab0) = true.
Proof. vm_compute. reflexivity. Qed.

Example logout_leaves_other_tabs_witness :
  browser_reachable demo_tz (fst two_tabs) (snd two_tabs) /\ 0 <> 1 /\
  fst two_tabs !! 0 = Some tab0 /\ app_enabled LogoutClick (tab_app tab0) = true /\
  fst two_tabs !! 1 = Some tab1 /\ app_dash (tab_app tab1) = Some page1 /\
  (let r1 := browser_step demo_tz (TabEv 0 LogoutClick) (fst two_tabs) @ (snd two_tabs) in
   let r2 := browser_step demo_tz (TabEv 1 (ListEv (Row rec0 RowToggle))) (fst r1) @ (snd r1) in
   stored_session (w_store (snd r1)) = false /\
   fst r1 !! 1 = Some tab1 /\ isAuthenticated (app_auth (tab_app tab1)) = true /\
   stored_session (w_store (snd r2)) = false /\
   exists p2', fst r2 !! 1 = Some (mkTab (tab_sample tab1)
                 (mkApp (app_auth (tab_app tab1)) PDashboard None (Some p2'))) /\
     stored (snd r2) = employees (store p2')).
Proof.
  split; [exact two_tabs_reachable| split; [lia|]].
  split; [exact two_tabs_0| split; [exact logout0_enabled|]].
  split; [exact two_tabs_1| split; [exact tab1_dash|]].
  exact (logout_leaves_other_tabs demo_tz _ 0 1 _ _ _ rec0 _ two_tabs_reachable ltac:(lia)
           two_tabs_0 logout0_enabled two_tabs_1 tab1_dash).
Defined.
End BrowserDemo.
